(** * wbcache.lookup_container: lookup containers, change log and write-back cache

    A shallow embedding of [src/wbcache/lookup_container.py].  Python objects
    that the code mutates and shares by reference (model instances) live in an
    explicit heap and are named by their address; every method becomes a
    function from the receiver's state to an outcome and the state the receiver
    is left in, so that the state an exception leaves behind is observable. *)

From stdpp Require Import base option list gmap strings sorting.
From Stdlib Require Import ZArith Lia.

(** ** Python values, exceptions and outcomes *)

(** Attribute values.  [VTransient t] is the instance of
    [UniqueTransientValue] created by the [t]-th allocation: its [__eq__] is
    [self is other], so it is equal to itself only. *)
Inductive value : Type :=
  | VNone
  | VInt (z : Z)
  | VStr (s : string)
  | VTransient (t : nat).

#[global] Instance value_eq_dec : EqDecision value.
Proof. solve_decision. Defined.

Definition isinstance_UniqueTransientValue (v : value) : bool :=
  match v with VTransient _ => true | _ => false end.

(** [x is None] *)
Definition is_None (v : value) : bool :=
  match v with VNone => true | _ => false end.

Inductive exn : Type :=
  | AttributeError (name : string)
  | KeyError
  | ValueError
  | TypeError
  | LookupException
  | UtilFailure (msg : string).

#[global] Instance exn_eq_dec : EqDecision exn.
Proof. solve_decision. Defined.

Inductive Result (A : Type) : Type :=
  | Ok (a : A)
  | Raise (e : exn).
Arguments Ok {A} a.
Arguments Raise {A} e.

Definition is_Ok {A} (r : Result A) : bool :=
  match r with Ok _ => true | Raise _ => false end.

(** A method of an object with state [S]: it returns or raises, and in both
    cases leaves the object in some state. *)
Definition M (S A : Type) : Type := S → Result A * S.

Definition ret {S A} (a : A) : M S A := λ s, (Ok a, s).
Definition raise {S A} (e : exn) : M S A := λ s, (Raise e, s).
Definition bind {S A B} (m : M S A) (k : A → M S B) : M S B :=
  λ s, match m s with
       | (Ok a, s') => k a s'
       | (Raise e, s') => (Raise e, s')
       end.
Definition get {S} : M S S := λ s, (Ok s, s).
Definition put {S} (s : S) : M S unit := λ _, (Ok tt, s).
(** a computation that cannot touch the state *)
Definition lift {S A} (r : Result A) : M S A := λ s, (r, s).

Declare Scope py_scope.
Delimit Scope py_scope with py.
Notation "x <- m ;; k" := (bind m (λ x, k))
  (at level 100, m at next level, right associativity) : py_scope.
Notation "m ;;; k" := (bind m (λ _, k))
  (at level 100, right associativity) : py_scope.
Local Open Scope py_scope.

(** [for x in l: f(x)] *)
Fixpoint for_each {S A} (f : A → M S unit) (l : list A) : M S unit :=
  match l with
  | [] => ret tt
  | x :: l' => f x ;;; for_each f l'
  end.

(** [[f(x) for x in l]] for an [f] without side effects *)
Fixpoint collect {A B} (f : A → Result B) (l : list A) : Result (list B) :=
  match l with
  | [] => Ok []
  | x :: l' =>
      match f x with
      | Raise e => Raise e
      | Ok y => match collect f l' with
                | Raise e => Raise e
                | Ok ys => Ok (y :: ys)
                end
      end
  end.

(** Modelled from the spec: the module [util] ([from util import util]) is
    not part of the repository.  The spec calls what [util.fail],
    [util.validate] and [util.validate_equals] report an integrity violation
    that fails loudly and immediately; here they raise [UtilFailure]. *)
Definition util_fail {S A} (msg : string) : M S A := raise (UtilFailure msg).
Definition util_validate {S} (cond : bool) (msg : string) : M S unit :=
  if cond then ret tt else raise (UtilFailure msg).
Definition util_validate_equals {S} (expected actual : nat) : M S unit :=
  if Nat.eqb expected actual then ret tt
  else raise (UtilFailure "validate_equals").

(** ** Dictionaries

    A [dict] keeps its items in insertion order, one item per key. *)
Section dict.
Context {K V : Type} `{EqDecision K}.

Definition dict : Type := list (K * V).

Fixpoint dict_get (k : K) (d : dict) : option V :=
  match d with
  | [] => None
  | (k', v) :: d' => if decide (k' = k) then Some v else dict_get k d'
  end.

(** [k in d] *)
Definition dict_mem (k : K) (d : dict) : bool :=
  match dict_get k d with Some _ => true | None => false end.

(** [d[k] = v]: an existing key keeps its position, a new one goes last *)
Fixpoint dict_set (k : K) (v : V) (d : dict) : dict :=
  match d with
  | [] => [(k, v)]
  | (k', v') :: d' =>
      if decide (k' = k) then (k, v) :: d' else (k', v') :: dict_set k v d'
  end.

Definition dict_keys (d : dict) : list K := map fst d.
Definition dict_values (d : dict) : list V := map snd d.

(** [d[k]] on a [collections.defaultdict]: a missing key is first inserted
    with the value the factory makes. *)
Definition defaultdict_get (factory : V) (k : K) (d : dict) : V * dict :=
  match dict_get k d with
  | Some v => (v, d)
  | None => (factory, dict_set k factory d)
  end.
End dict.

(** ** Lists: [list.remove], [list.sort] *)
Section pylist.
Context {A : Type}.

(** [l.remove(x)]: drops the first item that compares equal to [x];
    [ValueError] when there is none. *)
Fixpoint list_remove (eq_x : A → bool) (l : list A) : Result (list A) :=
  match l with
  | [] => Raise ValueError
  | y :: l' =>
      if eq_x y then Ok l'
      else match list_remove eq_x l' with
           | Ok r => Ok (y :: r)
           | Raise e => Raise e
           end
  end.

(** Insertion to the right of the items whose key is not greater
    ([bisect_right]). *)
Fixpoint insort_right (key : A → Z) (x : A) (l : list A) : list A :=
  match l with
  | [] => [x]
  | y :: l' =>
      if (key x <? key y)%Z then x :: l else y :: insort_right key x l'
  end.

(** The stable sort by [key]: items are taken left to right and each goes
    behind the items already placed whose key is not greater. *)
Definition stable_sort (key : A → Z) (l : list A) : list A :=
  foldl (λ acc x, insort_right key x acc) [] l.

(** [l.sort(key=key)].  Without a key the items themselves are compared
    with [<]; neither model instances nor change records define an order,
    so the first comparison raises [TypeError] and the list stays as it
    was.  A list of fewer than two items needs no comparison. *)
Definition list_sort (key : option (A → Z)) (l : list A) : Result (list A) :=
  match key with
  | Some f => Ok (stable_sort f l)
  | None => if decide (length l ≤ 1) then Ok l else Raise TypeError
  end.
End pylist.

(** ** Objects

    What the containers ask of the objects they hold: attribute access,
    [__eq__] and whether [hash] returns.  [H] is the heap the objects live
    in. *)
Class PyObject (H E : Type) := {
  py_getattr : H → E → string → Result value;
  py_eq : H → E → E → bool;
  py_hashable : H → E → bool;
}.

(** Model instances.  A record has the identity field [pk] and further
    attribute fields. *)
Definition oid : Type := nat.

Record model : Type := Model {
  pk : value;
  fields : list (string * value);
}.

#[global] Instance model_inhabited : Inhabited model := populate (Model VNone []).

Definition heap : Type := gmap oid model.

Definition deref (h : heap) (o : oid) : model := h !!! o.

Definition model_getattr (h : heap) (o : oid) (name : string) : Result value :=
  if decide (name = "pk") then Ok (pk (deref h o))
  else match dict_get name (fields (deref h o)) with
       | Some v => Ok v
       | None => Raise (AttributeError name)
       end.

(** Equality of model instances, as the docstring of [add] records it: an
    instance whose [pk] is [None] is equal to itself only; otherwise
    equality is equality of the [pk] values. *)
Definition model_eq (h : heap) (a b : oid) : bool :=
  match pk (deref h a) with
  | VNone => bool_decide (a = b)
  | p => bool_decide (p = pk (deref h b))
  end.

(** "if model instance pk value is None, then the object is not hashable" *)
Definition model_hashable (h : heap) (a : oid) : bool :=
  negb (is_None (pk (deref h a))).

#[global] Instance model_object : PyObject heap oid := {|
  py_getattr := model_getattr;
  py_eq := model_eq;
  py_hashable := model_hashable;
|}.

(** ** LookupContainer *)

Inductive retcode : Type :=
  | LOOKUP_NOT_SUPPORTED
  | VALUE_UNKNOWN
  | VALUE_DOES_NOT_EXIST
  | VALUE_FOUND.

#[global] Instance retcode_eq_dec : EqDecision retcode.
Proof. solve_decision. Defined.

(** the integer the class attribute holds *)
Definition retcode_value (c : retcode) : Z :=
  match c with
  | LOOKUP_NOT_SUPPORTED => 0
  | VALUE_UNKNOWN => 1
  | VALUE_DOES_NOT_EXIST => 2
  | VALUE_FOUND => 3
  end.

(** [max(a, b)] *)
Definition retcode_max (a b : retcode) : retcode :=
  if (retcode_value a <? retcode_value b)%Z then b else a.

(** an index key: [tuple([...])] *)
Definition key : Type := list value.
(** keyword arguments: [**parameters] *)
Definition kwargs : Type := list (string * value).

(** [tuple([getattr(elem, k) for k in key_attributes])] *)
Definition key_of `{PyObject H E} (h : H) (key_attributes : list string)
    (elem : E) : Result key :=
  collect (py_getattr h elem) key_attributes.

(** [tuple([parameters[k] for k in key_attributes])] *)
Definition key_of_parameters (parameters : kwargs) (key_attributes : list string)
    : Result key :=
  collect (λ k, match dict_get k parameters with
                | Some v => Ok v
                | None => Raise KeyError
                end) key_attributes.

(** *** DefaultListLookup: a dict of sorted lists *)
Module DefaultListLookup.
Section with_objects.
Context {H E : Type} `{PyObject H E}.

(** The instance attributes, and [can_answer_authoritatively], the method
    a subclass may override. *)
Record t : Type := {
  key_attributes : list string;
  _sort_key : option (H → E → Z);
  can_answer_authoritatively : kwargs → bool;
  _index : list (key * list E);
}.

Definition __init__ (key_attributes : list string)
    (sort_key : option (H → E → Z)) : t :=
  {| key_attributes := key_attributes;
     _sort_key := sort_key;
     can_answer_authoritatively := λ _, false;
     _index := [] |}.

Definition with_index (self : t) (d : list (key * list E)) : t :=
  {| key_attributes := key_attributes self;
     _sort_key := _sort_key self;
     can_answer_authoritatively := can_answer_authoritatively self;
     _index := d |}.

Definition _key (h : H) (elem : E) : M t key :=
  λ self, (key_of h (key_attributes self) elem, self).

(** [self._index[key]], which makes the bucket when it is missing *)
Definition getitem (k : key) : M t (list E) :=
  λ self, let '(b, d) := defaultdict_get [] k (_index self) in
          (Ok b, with_index self d).

(** the bucket under [k] becomes [b] (an in-place change of the list, or
    [self._index[key] = b]) *)
Definition setitem (k : key) (b : list E) : M t unit :=
  λ self, (Ok tt, with_index self (dict_set k b (_index self))).

(** [self._index[key].sort(key=self._sort_key)] *)
Definition sort_bucket (h : H) (k : key) : M t unit :=
  self <- get ;;
  bucket <- getitem k ;;
  sorted <- lift (list_sort (option_map (λ f, f h) (_sort_key self)) bucket) ;;
  setitem k sorted.

Definition add (h : H) (elem : E) : M t unit :=
  key <- _key h elem ;;
  bucket <- getitem key ;;
  match list_remove (λ item, py_eq h item elem) bucket with
  | Ok bucket' => setitem key bucket'
  | Raise _ => ret tt
  end ;;;
  bucket <- getitem key ;;
  setitem key (bucket ++ [elem]) ;;;
  sort_bucket h key.

(** the loop [for val in self._index.values(): val.sort(...)] *)
Fixpoint sort_values (sk : option (E → Z)) (d : list (key * list E))
    : Result unit * list (key * list E) :=
  match d with
  | [] => (Ok tt, [])
  | (k, val) :: d' =>
      match list_sort sk val with
      | Raise e => (Raise e, d)
      | Ok val' => let '(r, d'') := sort_values sk d' in (r, (k, val') :: d'')
      end
  end.

(** the body of the first loop of [bulk_add]:
    [self._index[key].append(item)] *)
Definition append (h : H) (item : E) : M t unit :=
  key <- _key h item ;;
  bucket <- getitem key ;;
  setitem key (bucket ++ [item]).

(** the second loop of [bulk_add] *)
Definition sort_all (h : H) : M t unit :=
  λ self, let '(r, d) := sort_values (option_map (λ f, f h) (_sort_key self))
                                     (_index self) in
          (r, with_index self d).

Definition bulk_add (h : H) (items : list E) : M t unit :=
  self <- get ;;
  if decide (length (_index self) = 0) then
    for_each (append h) items ;;;
    sort_all h
  else
    for_each (add h) items.

Definition clear : M t unit :=
  λ self, (Ok tt, with_index self []).

Definition delete (h : H) (elem : E) : M t unit :=
  key <- _key h elem ;;
  self <- get ;;
  util_validate (dict_mem key (_index self)) "ERROR 934923432" ;;;
  bucket <- getitem key ;;
  setitem key (filter (λ e, py_eq h e elem = false) bucket).

Definition __len__ (self : t) : nat := length (_index self).

Definition lookup (parameters : kwargs) : M t (retcode * option (list E)) :=
  self <- get ;;
  if negb (length parameters =? length (key_attributes self))%nat then
    ret (LOOKUP_NOT_SUPPORTED, None)
  else
    match key_of_parameters parameters (key_attributes self) with
    | Raise _ => ret (LOOKUP_NOT_SUPPORTED, None)
    | Ok key =>
        bucket <- getitem key ;;
        if negb (bool_decide (bucket = [])) then
          bucket <- getitem key ;;
          ret (VALUE_FOUND, Some bucket)
        else if can_answer_authoritatively self parameters then
          ret (VALUE_DOES_NOT_EXIST, None)
        else
          ret (VALUE_UNKNOWN, None)
    end.
End with_objects.
Arguments t : clear implicits.
End DefaultListLookup.

(** *** SortedSet

    [sortedcontainers.SortedSet(key=sort_key)], a library outside the
    repository, taken at its documented behaviour: a set (membership by
    [hash] and [==]) whose items are kept ordered by [sort_key].  Hashing an
    unhashable item raises [TypeError]; ordering items without a key compares
    the items themselves, which raises [TypeError] for the objects held
    here.

    The set is modelled in the use [ListLookup.add] asks of its caller: once
    a record is added its hash and its sort order do not change, and a
    record equal to a member has the sort key of the member.  There
    [discard] and [remove] find the member by equality.  Where the sort keys
    of the two differ, or there is no sort key, the library's removal from
    the sorted list raises; the model does not show that. *)
Module SortedSet.
Section with_objects.
Context {H E : Type} `{PyObject H E}.

Definition t : Type := list E.

(** [value in s] *)
Definition contains (h : H) (value : E) (s : t) : Result bool :=
  if py_hashable h value then Ok (existsb (λ item, py_eq h item value) s)
  else Raise TypeError.

Definition without (h : H) (value : E) (s : t) : t :=
  filter (λ item, py_eq h item value = false) s.

(** [s.discard(value)]: remove [value] if it is a member *)
Definition discard (h : H) (value : E) (s : t) : Result t :=
  match contains h value s with
  | Raise e => Raise e
  | Ok _ => Ok (without h value s)
  end.

(** [s.remove(value)]: [KeyError] if [value] is not a member *)
Definition remove (h : H) (value : E) (s : t) : Result t :=
  match contains h value s with
  | Raise e => Raise e
  | Ok true => Ok (without h value s)
  | Ok false => Raise KeyError
  end.

(** [s.add(value)] *)
Definition add (h : H) (sort_key : option (H → E → Z)) (value : E) (s : t)
    : Result t :=
  match contains h value s with
  | Raise e => Raise e
  | Ok true => Ok s
  | Ok false =>
      match sort_key with
      | Some f => Ok (insort_right (f h) value s)
      | None => if bool_decide (s = []) then Ok [value] else Raise TypeError
      end
  end.
End with_objects.
End SortedSet.

(** *** ListLookup: a dict of sorted sets *)
Module ListLookup.
Section with_objects.
Context {H E : Type} `{PyObject H E}.

(** [sort_key] is what the bucket factory closes over *)
Record t : Type := {
  key_attributes : list string;
  sort_key : option (H → E → Z);
  can_answer_authoritatively : kwargs → bool;
  _index : list (key * list E);
}.

Definition __init__ (key_attributes : list string)
    (sort_key : option (H → E → Z)) : t :=
  {| key_attributes := key_attributes;
     sort_key := sort_key;
     can_answer_authoritatively := λ _, false;
     _index := [] |}.

Definition with_index (self : t) (d : list (key * list E)) : t :=
  {| key_attributes := key_attributes self;
     sort_key := sort_key self;
     can_answer_authoritatively := can_answer_authoritatively self;
     _index := d |}.

Definition _key (h : H) (elem : E) : M t key :=
  λ self, (key_of h (key_attributes self) elem, self).

Definition getitem (k : key) : M t (list E) :=
  λ self, let '(b, d) := defaultdict_get [] k (_index self) in
          (Ok b, with_index self d).

Definition setitem (k : key) (b : list E) : M t unit :=
  λ self, (Ok tt, with_index self (dict_set k b (_index self))).

(** [self._index[key].add(item)] *)
Definition bucket_add (h : H) (k : key) (item : E) : M t unit :=
  self <- get ;;
  bucket <- getitem k ;;
  bucket' <- lift (SortedSet.add h (sort_key self) item bucket) ;;
  setitem k bucket'.

Definition bulk_add (h : H) (items : list E) : M t unit :=
  for_each (λ item, key <- _key h item ;; bucket_add h key item) items.

Definition add (h : H) (elem : E) : M t unit :=
  key <- _key h elem ;;
  bucket <- getitem key ;;
  bucket' <- lift (SortedSet.discard h elem bucket) ;;
  setitem key bucket' ;;;
  bucket_add h key elem.

Definition clear : M t unit :=
  λ self, (Ok tt, with_index self []).

Definition delete (h : H) (elem : E) : M t unit :=
  key <- _key h elem ;;
  self <- get ;;
  util_validate (dict_mem key (_index self)) "ERROR 934923432" ;;;
  bucket <- getitem key ;;
  bucket' <- lift (SortedSet.remove h elem bucket) ;;
  setitem key bucket'.

Definition __len__ (self : t) : nat := length (_index self).

Definition lookup (parameters : kwargs) : M t (retcode * option (list E)) :=
  self <- get ;;
  if negb (length parameters =? length (key_attributes self))%nat then
    ret (LOOKUP_NOT_SUPPORTED, None)
  else
    match key_of_parameters parameters (key_attributes self) with
    | Raise _ => ret (LOOKUP_NOT_SUPPORTED, None)
    | Ok key =>
        match dict_get key (_index self) with
        | Some (item :: bucket) => ret (VALUE_FOUND, Some (item :: bucket))
        | _ =>
            if can_answer_authoritatively self parameters then
              ret (VALUE_DOES_NOT_EXIST, None)
            else
              ret (VALUE_UNKNOWN, None)
        end
    end.
End with_objects.
Arguments t : clear implicits.
End ListLookup.

(** ** The interface the composite fans out over *)
Class LookupContainer (H E C : Type) := {
  lc_add : H → E → M C unit;
  lc_delete : H → E → M C unit;
  lc_clear : M C unit;
  lc_bulk_add : H → list E → M C unit;
  lc_lookup : kwargs → M C (retcode * option (list E));
}.

#[global] Instance ListLookup_container `{PyObject H E}
    : LookupContainer H E (ListLookup.t H E) := {|
  lc_add := ListLookup.add;
  lc_delete := ListLookup.delete;
  lc_clear := ListLookup.clear;
  lc_bulk_add := ListLookup.bulk_add;
  lc_lookup := ListLookup.lookup;
|}.

#[global] Instance DefaultListLookup_container `{PyObject H E}
    : LookupContainer H E (DefaultListLookup.t H E) := {|
  lc_add := DefaultListLookup.add;
  lc_delete := DefaultListLookup.delete;
  lc_clear := DefaultListLookup.clear;
  lc_bulk_add := DefaultListLookup.bulk_add;
  lc_lookup := DefaultListLookup.lookup;
|}.

(** *** CompositeLookup *)
Module CompositeLookup.
Section with_members.
Context {H E C : Type} `{LookupContainer H E C}.

(** [self.indexes] *)
Definition t : Type := list C.

(** [for idx in self.indexes: idx.f(...)]: an exception leaves the
    members behind it untouched *)
Fixpoint broadcast (f : M C unit) (indexes : list C) : Result unit * list C :=
  match indexes with
  | [] => (Ok tt, [])
  | idx :: rest =>
      match f idx with
      | (Ok _, idx') =>
          let '(r, rest') := broadcast f rest in (r, idx' :: rest')
      | (Raise e, idx') => (Raise e, idx' :: rest)
      end
  end.

Definition clear : M t unit := broadcast lc_clear.
Definition add (h : H) (elem : E) : M t unit := broadcast (lc_add h elem).
Definition bulk_add (h : H) (items : list E) : M t unit :=
  broadcast (lc_bulk_add h items).
Definition delete (h : H) (elem : E) : M t unit :=
  broadcast (lc_delete h elem).

Definition __init__ (indexes : list C) : t := indexes.

(** the loop of [lookup], entered with the code accumulated so far *)
Fixpoint lookup_from (parameters : kwargs) (code : retcode)
    (indexes : list C) : Result (retcode * option (list E)) * list C :=
  match indexes with
  | [] => (Ok (code, None), [])
  | idx :: rest =>
      match lc_lookup parameters idx with
      | (Raise e, idx') => (Raise e, idx' :: rest)
      | (Ok (new_retcode, result), idx') =>
          if bool_decide (new_retcode ∈ [VALUE_FOUND; VALUE_DOES_NOT_EXIST])
          then (Ok (new_retcode, result), idx' :: rest)
          else
            let '(r, rest') :=
              lookup_from parameters (retcode_max code new_retcode) rest in
            (r, idx' :: rest')
      end
  end.

Definition lookup (parameters : kwargs)
    : M t (retcode * option (list E)) :=
  lookup_from parameters LOOKUP_NOT_SUPPORTED.
End with_members.
End CompositeLookup.

(** ** The process state outside the cache

    The model instances, the class-wide [Sequence] of [DjangoModelChange],
    the [UniqueTransientValue] objects allocated so far, and the backing
    store. *)
Inductive store_call : Type :=
  | StoreSave (o : oid) (save_kwargs : kwargs)
  | StoreDelete (o : oid).

#[global] Instance store_call_eq_dec : EqDecision store_call.
Proof. solve_decision. Defined.

Record world : Type := {
  objects : heap;
  _change_counter : Z;
  transient_values : nat;
  store_next_pk : Z;
  store_calls : list store_call;
}.

Definition with_objects (w : world) (h : heap) : world :=
  {| objects := h;
     _change_counter := _change_counter w;
     transient_values := transient_values w;
     store_next_pk := store_next_pk w;
     store_calls := store_calls w |}.

Module Sequence.
(** [self.value += 1; ret = self.value] *)
Definition next_value : M world Z :=
  λ w, let ret := (_change_counter w + 1)%Z in
       (Ok ret,
        {| objects := objects w;
           _change_counter := ret;
           transient_values := transient_values w;
           store_next_pk := store_next_pk w;
           store_calls := store_calls w |}).
End Sequence.

(** [UniqueTransientValue()] *)
Definition new_UniqueTransientValue : M world value :=
  λ w, (Ok (VTransient (transient_values w)),
        {| objects := objects w;
           _change_counter := _change_counter w;
           transient_values := S (transient_values w);
           store_next_pk := store_next_pk w;
           store_calls := store_calls w |}).

(** [elem.pk = v] *)
Definition set_pk (elem : oid) (v : value) : M world unit :=
  λ w, (Ok tt,
        with_objects w
          (<[elem := Model v (fields (deref (objects w) elem))]> (objects w))).

Definition record_call (c : store_call) (w : world) : world :=
  {| objects := objects w;
     _change_counter := _change_counter w;
     transient_values := transient_values w;
     store_next_pk := store_next_pk w;
     store_calls := store_calls w ++ [c] |}.

(** [elem.save] with the keyword arguments [save_kwargs], Django's save.
    [store_calls] keeps every call made.  A record without identity is given
    the next one.  A [pk] that is a [UniqueTransientValue] is no value of
    the key field: the save raises [TypeError] and writes nothing, and the
    exception is the caller's. *)
Definition model_save (elem : oid) (save_kwargs : kwargs) : M world unit :=
  λ w, let w1 := record_call (StoreSave elem save_kwargs) w in
       if is_None (pk (deref (objects w1) elem)) then
         (Ok tt,
          {| objects := <[elem := Model (VInt (store_next_pk w1))
                                        (fields (deref (objects w1) elem))]>
                          (objects w1);
             _change_counter := _change_counter w1;
             transient_values := transient_values w1;
             store_next_pk := (store_next_pk w1 + 1)%Z;
             store_calls := store_calls w1 |})
       else if isinstance_UniqueTransientValue (pk (deref (objects w1) elem))
       then (Raise TypeError, w1)
       else (Ok tt, w1).

(** [elem.delete()], the backing store's delete *)
Definition model_delete (elem : oid) : M world unit :=
  λ w, (Ok tt, record_call (StoreDelete elem) w).

(** *** DjangoReadWriteInterface: no caching, every request goes to the
    store *)
Module DjangoReadWriteInterface.
Definition add (elem : oid) : M world unit := model_save elem [].
Definition delete (elem : oid) : M world unit := model_delete elem.
Definition clear : M world unit := ret tt.
End DjangoReadWriteInterface.

(** ** Change records *)
Inductive change_kind : Type :=
  | SaveOp (save_kwargs : kwargs)
  | DeleteOp.

#[global] Instance change_kind_eq_dec : EqDecision change_kind.
Proof. solve_decision. Defined.

Record DjangoModelChange : Type := {
  kind : change_kind;
  obj : oid;
  change_counter : Z;
}.

#[global] Instance DjangoModelChange_eq_dec : EqDecision DjangoModelChange.
Proof. solve_decision. Defined.

Definition change_type (c : DjangoModelChange) : string :=
  match kind c with SaveOp _ => "save" | DeleteOp => "delete" end.

(** the property [pk]: [self.obj.pk], read when it is asked for *)
Definition change_pk (h : heap) (c : DjangoModelChange) : value :=
  pk (deref h (obj c)).

Definition change_getattr (h : heap) (c : DjangoModelChange) (name : string)
    : Result value :=
  if decide (name = "pk") then Ok (change_pk h c)
  else if decide (name = "change_counter") then Ok (VInt (change_counter c))
  else if decide (name = "change_type") then Ok (VStr (change_type c))
  else Raise (AttributeError name).

(** Change records define neither [__eq__] nor [__hash__]: they are equal
    when they are the same object and always hashable.  Every change record
    takes a fresh [change_counter] from the class-wide [Sequence] when it is
    made, so two distinct objects never agree on it, and equality of the
    fields is identity of the objects. *)
#[global] Instance change_object : PyObject heap DjangoModelChange := {|
  py_getattr := change_getattr;
  py_eq := λ _ a b, bool_decide (a = b);
  py_hashable := λ _ _, true;
|}.

(** [DjangoModelChange.__init__], through the constructor of [SaveOp] or of
    [DeleteOp] *)
Definition new_change (k : change_kind) (elem : oid) : M world DjangoModelChange :=
  n <- Sequence.next_value ;;
  ret {| kind := k; obj := elem; change_counter := n |}.

Definition apply_change (c : DjangoModelChange) : M world unit :=
  w <- get ;;
  match kind c with
  | DeleteOp =>
      if is_None (pk (deref (objects w) (obj c))) then
        (* object was created and then deleted before it was ever written
           to database *)
        ret tt
      else
        model_save (obj c) []
  | SaveOp save_kwargs =>
      (if isinstance_UniqueTransientValue (pk (deref (objects w) (obj c)))
       then set_pk (obj c) VNone   (* real pk value will be assigned on save() *)
       else ret tt) ;;;
      model_save (obj c) save_kwargs
  end.

(** *** ChangeLog: a ListLookup of change records, keyed by [pk] and ordered
    by [change_counter] *)
Module ChangeLog.
Definition t : Type := ListLookup.t heap DjangoModelChange.

Definition __init__ : t :=
  ListLookup.__init__ ["pk"] (Some (λ _ c, change_counter c)).

(** every [DjangoModelChange] passes the [isinstance] validation *)
Definition add (h : heap) (change : DjangoModelChange) : M t unit :=
  util_validate true "" ;;;
  ListLookup.add h change.

Definition delete (change : DjangoModelChange) : M t unit :=
  util_fail "ERROR 403242323: Entries can not be deleted from change log - instead add a DeleteOp()".

(** [changes[-1]] of every bucket that is not empty, then sorted by
    [change_counter] *)
Definition latest_changes_for_each_pk_value (self : t)
    : list DjangoModelChange :=
  stable_sort change_counter
    (omap (λ item : key * list DjangoModelChange, last item.2)
          (ListLookup._index self)).

Definition apply_all (self : t) : M world unit :=
  for_each apply_change (latest_changes_for_each_pk_value self).
End ChangeLog.

(** *** InProcessWriteBackCache *)
Module InProcessWriteBackCache.
Section with_members.
Context {C : Type} `{LookupContainer heap oid C}.

(** the abstract method a concrete cache supplies *)
Variable is_cacheable : heap → oid → bool.

Record t : Type := {
  indexes : list C;
  change_log : ChangeLog.t;
}.

Definition __init__ (indexes : list C) : t :=
  {| indexes := CompositeLookup.__init__ indexes;
     change_log := ChangeLog.__init__ |}.

(** a method runs on the process state and the cache object *)
Definition in_world {A} (m : M world A) : M (world * t) A :=
  λ s, let '(r, w') := m s.1 in (r, (w', s.2)).

(** [super().f(...)]: the composite's method, on [self.indexes] *)
Definition in_indexes {A} (m : heap → M (list C) A) : M (world * t) A :=
  λ s, let '(r, idxs) := m (objects s.1) (indexes s.2) in
       (r, (s.1, {| indexes := idxs; change_log := change_log s.2 |})).

(** [self.change_log.f(...)] *)
Definition in_change_log {A} (m : heap → M ChangeLog.t A) : M (world * t) A :=
  λ s, let '(r, log) := m (objects s.1) (change_log s.2) in
       (r, (s.1, {| indexes := indexes s.2; change_log := log |})).

Definition add (elem : oid) : M (world * t) unit :=
  op <- in_world (new_change (SaveOp []) elem) ;;
  s <- get ;;
  if is_cacheable (objects s.1) elem then
    (if is_None (pk (deref (objects s.1) elem)) then
       in_world (v <- new_UniqueTransientValue ;; set_pk elem v)
     else ret tt) ;;;
    in_indexes (λ h, CompositeLookup.add h elem) ;;;
    in_change_log (λ h, ChangeLog.add h op)
  else
    in_world (apply_change op).

Definition delete (elem : oid) : M (world * t) unit :=
  op <- in_world (new_change DeleteOp elem) ;;
  s <- get ;;
  if is_cacheable (objects s.1) elem then
    in_indexes (λ h, CompositeLookup.delete h elem) ;;;
    in_change_log (λ h, ChangeLog.add h op)
  else
    in_world (apply_change op).

Definition flush_changes_to_database : M (world * t) unit :=
  s <- get ;;
  in_world (ChangeLog.apply_all (change_log s.2)) ;;;
  in_change_log (λ _, ListLookup.clear).

Definition clear (force : bool) : M (world * t) unit :=
  in_indexes (λ _, CompositeLookup.clear) ;;;
  (if negb force then
     s <- get ;;
     util_validate_equals 0 (ListLookup.__len__ (change_log s.2))
   else ret tt) ;;;
  in_change_log (λ _, ListLookup.clear).
End with_members.
Arguments t : clear implicits.
End InProcessWriteBackCache.

(** *** The in-memory indexes as one type of member *)
Inductive index (H E : Type) : Type :=
  | ListIndex (l : ListLookup.t H E)
  | DefaultListIndex (d : DefaultListLookup.t H E).
Arguments ListIndex {H E} l.
Arguments DefaultListIndex {H E} d.

Section index.
Context {H E : Type} `{PyObject H E}.

Definition as_ListIndex {A} (x : Result A * ListLookup.t H E)
    : Result A * index H E := (x.1, ListIndex x.2).
Definition as_DefaultListIndex {A} (x : Result A * DefaultListLookup.t H E)
    : Result A * index H E := (x.1, DefaultListIndex x.2).

(** the method of the member's own class *)
Definition dispatch {A} (list_method : M (ListLookup.t H E) A)
    (default_list_method : M (DefaultListLookup.t H E) A) : M (index H E) A :=
  λ idx, match idx with
         | ListIndex l => as_ListIndex (list_method l)
         | DefaultListIndex d => as_DefaultListIndex (default_list_method d)
         end.

#[global] Instance index_container : LookupContainer H E (index H E) := {|
  lc_add h elem := dispatch (ListLookup.add h elem) (DefaultListLookup.add h elem);
  lc_delete h elem :=
    dispatch (ListLookup.delete h elem) (DefaultListLookup.delete h elem);
  lc_clear := dispatch ListLookup.clear DefaultListLookup.clear;
  lc_bulk_add h items :=
    dispatch (ListLookup.bulk_add h items) (DefaultListLookup.bulk_add h items);
  lc_lookup parameters :=
    dispatch (ListLookup.lookup parameters) (DefaultListLookup.lookup parameters);
|}.

Definition index_key_attributes (idx : index H E) : list string :=
  match idx with
  | ListIndex l => ListLookup.key_attributes l
  | DefaultListIndex d => DefaultListLookup.key_attributes d
  end.

(** the dict of buckets, [self._index] *)
Definition index_buckets (idx : index H E) : list (key * list E) :=
  match idx with
  | ListIndex l => ListLookup._index l
  | DefaultListIndex d => DefaultListLookup._index d
  end.

(** everything held in some bucket *)
Definition index_records (idx : index H E) : list E :=
  concat (dict_values (index_buckets idx)).
End index.

(** ** Vocabulary of the properties *)

(** The names of the keyword arguments are exactly the key attributes. *)
Definition names_match (parameters : kwargs) (key_attributes : list string)
    : Prop :=
  NoDup (dict_keys parameters) ∧ dict_keys parameters ≡ₚ key_attributes.

(** The values of the keyword arguments are the object's own. *)
Definition values_of `{PyObject H E} (h : H) (elem : E) (parameters : kwargs)
    : Prop :=
  ∀ name v, (name, v) ∈ parameters → py_getattr h elem name = Ok v.

(** The bucket [DefaultListLookup.add] sorts: the old one without the first
    item equal to [elem], and [elem] behind it. *)
Definition replaced `{PyObject H E} (h : H) (elem : E) (bucket : list E)
    : list E :=
  match list_remove (λ item, py_eq h item elem) bucket with
  | Ok bucket' => bucket'
  | Raise _ => bucket
  end ++ [elem].

(** No item of the collection is equal to a later one. *)
Definition pairwise_distinct `{PyObject H E} (h : H) (items : list E) : Prop :=
  ∀ i j y x, i < j → items !! i = Some y → items !! j = Some x →
             py_eq h y x = false.

(** [d'] is [d] with every bucket sorted. *)
Definition sorted_to {E} (sk : option (E → Z)) (d d' : list (key * list E))
    : Prop :=
  Forall2 (λ p p', p.1 = p'.1 ∧ list_sort sk p.2 = Ok p'.2) d d'.

(** Every bucket of [d] can be sorted. *)
Definition sort_ok {E} (sk : option (E → Z)) (d : list (key * list E)) : Prop :=
  Forall (λ b, is_Ok (list_sort sk b) = true) (dict_values d).

(** [certain]: the codes on which the composite stops *)
Definition certain (c : retcode) : bool :=
  bool_decide (c ∈ [VALUE_FOUND; VALUE_DOES_NOT_EXIST]).

(** The change records a log holds, bucket after bucket. *)
Definition log_changes (log : ChangeLog.t) : list DjangoModelChange :=
  concat (dict_values (ListLookup._index log)).

(** What the class maintains of a change log: one bucket per identity, no
    bucket empty, every bucket in strictly ascending [change_counter] order,
    and no [change_counter] twice in the log. *)
Record ChangeLog_wf (log : ChangeLog.t) : Prop := {
  wf_config : ListLookup.key_attributes log = ["pk"]
              ∧ ListLookup.sort_key log = Some (λ _ c, change_counter c);
  wf_keys : NoDup (dict_keys (ListLookup._index log));
  wf_nonempty : Forall (λ b, b ≠ []) (dict_values (ListLookup._index log));
  wf_sorted : Forall (λ b, Sorted Z.lt (change_counter <$> b))
                     (dict_values (ListLookup._index log));
  wf_counters : NoDup (change_counter <$> log_changes log);
}.

(** The calls a client makes on a cache. *)
Inductive operation : Type :=
  | Add (elem : oid)
  | Delete (elem : oid)
  | Flush.

#[global] Instance operation_eq_dec : EqDecision operation.
Proof. solve_decision. Defined.

Section cache_runs.
Context {C : Type} `{LookupContainer heap oid C}.
Variable is_cacheable : heap → oid → bool.

Definition perform (o : operation)
    : M (world * InProcessWriteBackCache.t C) unit :=
  match o with
  | Add elem => InProcessWriteBackCache.add is_cacheable elem
  | Delete elem => InProcessWriteBackCache.delete is_cacheable elem
  | Flush => InProcessWriteBackCache.flush_changes_to_database
  end.

Definition perform_all (ops : list operation)
    : M (world * InProcessWriteBackCache.t C) unit :=
  for_each perform ops.
End cache_runs.

(** The process state when a cacheable [add] reaches the indexes: the
    counter is drawn, and a record without identity has its placeholder. *)
Definition prepared (w : world) (elem : oid) : world :=
  let w1 := (Sequence.next_value w).2 in
  if is_None (pk (deref (objects w) elem)) then
    (set_pk elem (VTransient (transient_values w1))
            (new_UniqueTransientValue w1).2).2
  else w1.

(** The store takes the change: it is not the [DeleteOp] of a record whose
    [pk] is a placeholder, the one change whose [apply_change] saves a
    placeholder. *)
Definition accepted (h : heap) (c : DjangoModelChange) : bool :=
  match kind c with
  | SaveOp _ => true
  | DeleteOp => negb (isinstance_UniqueTransientValue (pk (deref h (obj c))))
  end.

(** A record in an index has its entry in the change log: a change record
    of the log is about this very object, and so reads the same [pk]. *)
Definition logged (log : ChangeLog.t) (elem : oid) : Prop :=
  ∃ c, c ∈ log_changes log ∧ obj c = elem.

Definition indexed_are_logged
    (s : world * InProcessWriteBackCache.t (index heap oid)) : Prop :=
  ∀ idx elem,
    idx ∈ InProcessWriteBackCache.indexes s.2 →
    elem ∈ index_records idx →
    logged (InProcessWriteBackCache.change_log s.2) elem.


(** What one member answers to a lookup, and the state the lookup leaves it
    in. *)
Definition answers `{LookupContainer H E C} (parameters : kwargs) (idx : C)
    (c : retcode) : Prop :=
  ∃ payload idx', lc_lookup parameters idx = (Ok (c, payload), idx').

Definition after_lookup `{LookupContainer H E C} (parameters : kwargs)
    (idx : C) : C :=
  (lc_lookup parameters idx).2.

(** ** Sample data *)
Module Sample.
(** three model instances: [A] and [B] are persisted and share a category,
    [C] has no identity yet *)
Definition A : oid := 0%nat.
Definition B : oid := 1%nat.
Definition C : oid := 2%nat.

Definition records : heap :=
  list_to_map
    [(A, Model (VInt 1) [("category", VStr "x")]);
     (B, Model (VInt 2) [("category", VStr "x")]);
     (C, Model VNone [("category", VStr "y")])].

(** a sort key: the numeric [pk] *)
Definition pk_number (h : heap) (o : oid) : Z :=
  match pk (deref h o) with VInt z => z | _ => 0%Z end.

Definition by_category : DefaultListLookup.t heap oid :=
  DefaultListLookup.__init__ ["category"] (Some pk_number).

Definition sorted_by_category : ListLookup.t heap oid :=
  ListLookup.__init__ ["category"] (Some pk_number).

Definition process : world :=
  {| objects := records;
     _change_counter := 0;
     transient_values := 0;
     store_next_pk := 100;
     store_calls := [] |}.

Definition always_cacheable : heap → oid → bool := λ _ _, true.
Definition never_cacheable : heap → oid → bool := λ _ _, false.

Definition cache : InProcessWriteBackCache.t (index heap oid) :=
  InProcessWriteBackCache.__init__ [DefaultListIndex by_category].
End Sample.

(** ** Further vocabulary *)

(** Every bucket of [d] is in ascending order of the sort key, when there
    is one. *)
Definition buckets_sorted `{PyObject H E} (h : H)
    (sort_key : option (H → E → Z)) (d : list (key * list E)) : Prop :=
  ∀ f, sort_key = Some f →
       Forall (λ b, Sorted Z.le (f h <$> b)) (dict_values d).

(** the identity a save leaves the record with *)
Definition saved_pk (w : world) (elem : oid) : value :=
  match pk (deref (objects w) elem) with
  | VNone | VTransient _ => VInt (store_next_pk w)
  | p => p
  end.

(** [get] of the base class [LookupContainer]: the record found, [None]
    when none is, [LookupException] when there is more than one.  A
    payload that is [None] has no [len]. *)
Definition LookupContainer_get `{LookupContainer H E C} (parameters : kwargs)
    : M C (option E) :=
  r <- lc_lookup parameters ;;
  match r with
  | (VALUE_FOUND, Some [value0]) => ret (Some value0)
  | (VALUE_FOUND, Some _) => raise LookupException
  | (VALUE_FOUND, None) => raise TypeError
  | _ => ret None
  end.

(** *** DjangoModelLookup: a ListLookup that gives a record without [pk] a
    placeholder before it files it *)
Module DjangoModelLookup.
Definition t : Type := ListLookup.t heap oid.

(** [super().f(elem)], on the heap as it is now *)
Definition super (m : heap → M t unit) : M (world * t) unit :=
  λ s, let '(r, self) := m (objects s.1) s.2 in (r, (s.1, self)).

Definition in_world {A} (m : M world A) : M (world * t) A :=
  λ s, let '(r, w') := m s.1 in (r, (w', s.2)).

Definition add (elem : oid) : M (world * t) unit :=
  s <- get ;;
  (if is_None (pk (deref (objects s.1) elem)) then
     in_world (v <- new_UniqueTransientValue ;; set_pk elem v)
   else ret tt) ;;;
  super (λ h, ListLookup.add h elem).

Definition delete (elem : oid) : M (world * t) unit :=
  s <- get ;;
  if is_None (pk (deref (objects s.1) elem)) then
    util_fail "ERROR 3942342: attempting to delete object that was never added"
  else
    super (λ h, ListLookup.delete h elem).
End DjangoModelLookup.

(** *** DjangoFilterLookup: the fallback that asks the database

    [base_queryset.filter] is Django's; what it evaluates to for given
    keyword arguments is a field of the object here.  A queryset is true
    when it has a row. *)
Module DjangoFilterLookup.
Section with_records.
Context {E : Type}.

Record t : Type := {
  base_queryset : kwargs → list E;
  restrict_query : option (kwargs → bool);
}.

Definition __init__ (base_queryset : kwargs → list E)
    (restrict_query : option (kwargs → bool)) : t :=
  {| base_queryset := base_queryset; restrict_query := restrict_query |}.

Definition _do_filter (parameters : kwargs) : M t (list E) :=
  λ self, (Ok (base_queryset self parameters), self).

(** [self.restrict_query and self.restrict_query(parameters)] *)
Definition restricted (self : t) (parameters : kwargs) : bool :=
  match restrict_query self with
  | Some f => f parameters
  | None => false
  end.

Definition lookup (parameters : kwargs) : M t (retcode * option (list E)) :=
  self <- get ;;
  if restricted self parameters then
    ret (LOOKUP_NOT_SUPPORTED, None)
  else
    qs <- _do_filter parameters ;;
    if negb (bool_decide (length qs = 0)) then ret (VALUE_FOUND, Some qs)
    else ret (VALUE_DOES_NOT_EXIST, Some qs).

(** [add], [delete], [clear] and [bulk_add] are the base class's [pass] *)
Definition pass : M t unit := ret tt.
End with_records.
Arguments t : clear implicits.

#[global] Instance container {H E} : LookupContainer H E (t E) := {|
  lc_add _ _ := pass;
  lc_delete _ _ := pass;
  lc_clear := pass;
  lc_bulk_add _ _ := pass;
  lc_lookup := lookup;
|}.
End DjangoFilterLookup.

(** * Properties *)

(** ** Dictionaries *)
Section dict_facts.
Context {K V : Type} `{EqDecision K}.
Implicit Types (k : K) (v : V) (d : list (K * V)).

Lemma dict_get_set_eq k v d : dict_get k (dict_set k v d) = Some v.
Proof.
  induction d as [|[k' v'] d IH]; simpl.
  - by rewrite decide_True.
  - destruct (decide (k' = k)) as [->|Hne]; simpl.
    + by rewrite decide_True.
    + by rewrite decide_False.
Qed.

Lemma dict_get_set_ne k k' v d :
  k ≠ k' → dict_get k' (dict_set k v d) = dict_get k' d.
Proof.
  intros Hne. induction d as [|[k0 v0] d IH]; simpl.
  - by rewrite decide_False.
  - destruct (decide (k0 = k)) as [->|Hne0]; simpl.
    + by rewrite !decide_False.
    + by rewrite IH.
Qed.

Lemma dict_set_length_None k v d :
  dict_get k d = None → length (dict_set k v d) = S (length d).
Proof.
  induction d as [|[k' v'] d IH]; simpl; [done|].
  destruct (decide (k' = k)); [done|]. intros Hd. simpl. by rewrite IH.
Qed.

Lemma dict_set_length_Some k v d :
  is_Some (dict_get k d) → length (dict_set k v d) = length d.
Proof.
  induction d as [|[k' v'] d IH]; simpl; [by intros [? ?]|].
  destruct (decide (k' = k)); [done|]. intros Hd. simpl. by rewrite IH.
Qed.

Lemma dict_get_Some_elem k v d : dict_get k d = Some v → (k, v) ∈ d.
Proof.
  induction d as [|[k' v'] d IH]; simpl; [done|].
  destruct (decide (k' = k)) as [->|Hne].
  - intros [= ->]. apply list_elem_of_here.
  - intros Hd. apply list_elem_of_further. auto.
Qed.

Lemma dict_get_None_keys k d : dict_get k d = None ↔ k ∉ dict_keys d.
Proof.
  induction d as [|[k' v'] d IH]; simpl.
  - split; [intros _; apply not_elem_of_nil | done].
  - rewrite not_elem_of_cons. destruct (decide (k' = k)) as [->|Hne].
    + split; [done | intros [? _]; done].
    + rewrite IH. split; [by intros ?; split | by intros [_ ?]].
Qed.


Lemma dict_keys_set_Some k v d :
  is_Some (dict_get k d) → dict_keys (dict_set k v d) = dict_keys d.
Proof.
  induction d as [|[k' v'] d IH]; simpl; [by intros [? ?]|].
  destruct (decide (k' = k)) as [->|Hne]; [done|].
  intros Hd. simpl. f_equal. auto.
Qed.

Lemma dict_keys_set_None k v d :
  dict_get k d = None → dict_keys (dict_set k v d) = dict_keys d ++ [k].
Proof.
  induction d as [|[k' v'] d IH]; simpl; [done|].
  destruct (decide (k' = k)) as [->|Hne]; [done|].
  intros Hd. simpl. f_equal. auto.
Qed.

Lemma dict_set_NoDup k v d :
  NoDup (dict_keys d) → NoDup (dict_keys (dict_set k v d)).
Proof.
  intros Hnd. destruct (dict_get k d) as [v0|] eqn:Hg.
  - by rewrite dict_keys_set_Some.
  - rewrite dict_keys_set_None by done.
    apply NoDup_app. split_and!; [done| |apply NoDup_singleton].
    intros x Hx Hx'. apply list_elem_of_singleton in Hx' as ->.
    by apply dict_get_None_keys in Hg.
Qed.

Lemma dict_set_id k v d : dict_get k d = Some v → dict_set k v d = d.
Proof.
  induction d as [|[k' v'] d IH]; simpl; [done|].
  destruct (decide (k' = k)) as [->|Hne].
  - by intros [= ->].
  - intros Hd. by rewrite IH.
Qed.

(** an item of the updated dict is the new one or was there before *)
Lemma dict_elem_set_inv k v k' v' d :
  (k', v') ∈ dict_set k v d → (k', v') = (k, v) ∨ (k', v') ∈ d.
Proof.
  induction d as [|[k0 v0] d IH]; simpl.
  - intros Hin. apply list_elem_of_singleton in Hin. by left.
  - destruct (decide (k0 = k)) as [->|Hne]; intros Hin;
      apply elem_of_cons in Hin as [Hin|Hin].
    + by left.
    + right. by apply list_elem_of_further.
    + right. rewrite Hin. apply list_elem_of_here.
    + destruct (IH Hin) as [?|?]; [by left|].
      right. by apply list_elem_of_further.
Qed.

(** an item survives the update unless it is the one read under [k] *)
Lemma dict_elem_set_keep k v k' v' d :
  (k', v') ∈ d →
  (k', v') ∈ dict_set k v d ∨ (k' = k ∧ dict_get k d = Some v').
Proof.
  induction d as [|[k0 v0] d IH]; simpl.
  - intros Hin. by apply elem_of_nil in Hin.
  - intros Hin. apply elem_of_cons in Hin as [[= -> ->]|Hin].
    + destruct (decide (k0 = k)) as [->|Hne]; [by right|].
      left. apply list_elem_of_here.
    + destruct (decide (k0 = k)) as [->|Hne].
      * left. by apply list_elem_of_further.
      * destruct (IH Hin) as [?|?]; [|by right].
        left. by apply list_elem_of_further.
Qed.

Lemma dict_elem_set_new k v d : (k, v) ∈ dict_set k v d.
Proof. apply dict_get_Some_elem, dict_get_set_eq. Qed.

Lemma dict_mem_true k d : dict_mem k d = true ↔ is_Some (dict_get k d).
Proof.
  unfold dict_mem. destruct (dict_get k d); split; try done.
Qed.

Lemma dict_mem_false k d : dict_mem k d = false ↔ dict_get k d = None.
Proof. unfold dict_mem. by destruct (dict_get k d). Qed.
End dict_facts.

Section dict_facts_more.
Context {K V : Type} `{EqDecision K}.
Implicit Types (k : K) (v : V) (d : list (K * V)).

Lemma dict_set_None_app k v d :
  dict_get k d = None → dict_set k v d = d ++ [(k, v)].
Proof.
  induction d as [|[k' v'] d IH]; simpl; [done|].
  destruct (decide (k' = k)); [done|]. intros Hd. by rewrite IH.
Qed.

Lemma defaultdict_get_Some factory k v d :
  dict_get k d = Some v → defaultdict_get factory k d = (v, d).
Proof. unfold defaultdict_get. by intros ->. Qed.

Lemma defaultdict_get_None factory k d :
  dict_get k d = None →
  defaultdict_get factory k d = (factory, d ++ [(k, factory)]).
Proof. unfold defaultdict_get. intros Hd. by rewrite Hd, dict_set_None_app. Qed.

(** after the access the key is there, with the value returned *)
Lemma defaultdict_get_spec factory k d :
  dict_get k (defaultdict_get factory k d).2
    = Some (defaultdict_get factory k d).1.
Proof.
  unfold defaultdict_get. destruct (dict_get k d) eqn:Hd; simpl; [done|].
  apply dict_get_set_eq.
Qed.
End dict_facts_more.

(** ** Matching keyword arguments *)
Section parameters_facts.
Context {H E : Type} `{PyObject H E}.

Lemma names_match_length parameters key_attributes :
  names_match parameters key_attributes →
  length parameters = length key_attributes.
Proof.
  intros [_ Hperm]. apply Permutation_length in Hperm.
  unfold dict_keys in Hperm. by rewrite length_map in Hperm.
Qed.

Lemma dict_keys_get (parameters : kwargs) name :
  name ∈ dict_keys parameters → ∃ v, dict_get name parameters = Some v.
Proof.
  intros Hin. destruct (dict_get name parameters) eqn:Hg; [by eexists|].
  by apply dict_get_None_keys in Hg.
Qed.

(** the key built from matching keyword arguments is the object's key *)
Lemma key_of_parameters_values h (elem : E) parameters key_attributes k :
  key_attributes ⊆ dict_keys parameters →
  values_of h elem parameters →
  key_of h key_attributes elem = Ok k →
  key_of_parameters parameters key_attributes = Ok k.
Proof.
  unfold key_of, key_of_parameters. intros Hsub Hval.
  revert k. induction key_attributes as [|name names IH]; intros k; simpl.
  - done.
  - destruct (dict_keys_get parameters name) as [v Hv].
    { apply Hsub, list_elem_of_here. }
    rewrite Hv. rewrite (Hval name v) by by apply dict_get_Some_elem.
    destruct (collect (py_getattr h elem) names) as [ks|e] eqn:Hks; [|done].
    intros [= <-]. rewrite (IH (λ x Hx, Hsub x (list_elem_of_further _ _ _ Hx)) ks eq_refl).
    done.
Qed.

Lemma key_of_parameters_match h (elem : E) parameters key_attributes k :
  names_match parameters key_attributes →
  values_of h elem parameters →
  key_of h key_attributes elem = Ok k →
  key_of_parameters parameters key_attributes = Ok k.
Proof.
  intros [_ Hperm]. apply key_of_parameters_values.
  intros x Hx. by rewrite Hperm.
Qed.
End parameters_facts.

(** ** DefaultListLookup *)
Section DefaultListLookup_facts.
Context {H E : Type} `{PyObject H E}.
Import DefaultListLookup.
Implicit Types (self : DefaultListLookup.t H E) (h : H) (elem : E).

Lemma with_index_id self : with_index self (_index self) = self.
Proof. by destruct self. Qed.

Lemma with_index_index self d : _index (with_index self d) = d.
Proof. done. Qed.

Lemma with_index_twice self d d' :
  with_index (with_index self d) d' = with_index self d'.
Proof. done. Qed.

(** [lookup] with matching names, unfolded *)
Lemma lookup_supported self parameters k :
  length parameters = length (key_attributes self) →
  key_of_parameters parameters (key_attributes self) = Ok k →
  lookup parameters self =
    let '(bucket, d) := defaultdict_get [] k (_index self) in
    (Ok (if negb (bool_decide (bucket = [])) then (VALUE_FOUND, Some bucket)
         else if can_answer_authoritatively self parameters
              then (VALUE_DOES_NOT_EXIST, None)
              else (VALUE_UNKNOWN, None)),
     with_index self d).
Proof.
  intros Hlen Hkey. unfold lookup, bind, get, getitem, ret. simpl.
  rewrite Hlen, Nat.eqb_refl. simpl. rewrite Hkey.
  pose proof (defaultdict_get_spec [] k (_index self)) as Hspec.
  destruct (defaultdict_get [] k (_index self)) as [bucket d] eqn:Hd.
  simpl in *. destruct bucket as [|item bucket]; simpl.
  - by destruct (can_answer_authoritatively self parameters).
  - unfold defaultdict_get. rewrite Hspec. done.
Qed.

(** [delete], unfolded *)
Lemma delete_unfold self h elem k :
  key_of h (key_attributes self) elem = Ok k →
  delete h elem self =
    match dict_get k (_index self) with
    | None => (Raise (UtilFailure "ERROR 934923432"), self)
    | Some bucket =>
        (Ok tt,
         with_index self
           (dict_set k (filter (λ e, py_eq h e elem = false) bucket)
                     (_index self)))
    end.
Proof.
  intros Hkey. unfold delete, bind, _key, get, util_validate, getitem, setitem.
  rewrite Hkey. unfold dict_mem.
  destruct (dict_get k (_index self)) as [bucket|] eqn:Hd; simpl; [|done].
  by rewrite (defaultdict_get_Some _ _ bucket).
Qed.
End DefaultListLookup_facts.

(** C10.  On the default list-bucket index a lookup whose parameter names are
    exactly the key attributes, for a key that has no bucket, is not
    read-only: it answers without payload, inserts an empty bucket for that
    key, which makes the index one longer, and a delete of a record with that
    key, which failed with the missing-bucket integrity error before the
    lookup, succeeds after it. *)
Theorem DefaultListLookup_lookup_inserts_bucket `{PyObject H E}
    (self : DefaultListLookup.t H E) (parameters : kwargs) (k : key) :
  names_match parameters (DefaultListLookup.key_attributes self) →
  key_of_parameters parameters (DefaultListLookup.key_attributes self) = Ok k →
  dict_get k (DefaultListLookup._index self) = None →
  ∃ code self',
    DefaultListLookup.lookup parameters self = (Ok (code, None), self')
    ∧ code ∈ [VALUE_UNKNOWN; VALUE_DOES_NOT_EXIST]
    ∧ DefaultListLookup._index self' = DefaultListLookup._index self ++ [(k, [])]
    ∧ DefaultListLookup.__len__ self' = S (DefaultListLookup.__len__ self)
    ∧ ∀ h elem,
        key_of h (DefaultListLookup.key_attributes self) elem = Ok k →
        (DefaultListLookup.delete h elem self).1
          = Raise (UtilFailure "ERROR 934923432")
        ∧ (DefaultListLookup.delete h elem self').1 = Ok tt.
Proof.
  intros Hnames Hkey Hnone.
  pose proof (names_match_length _ _ Hnames) as Hlen.
  rewrite (lookup_supported self parameters k Hlen Hkey).
  rewrite (defaultdict_get_None _ _ _ Hnone). simpl.
  exists (if DefaultListLookup.can_answer_authoritatively self parameters
          then VALUE_DOES_NOT_EXIST else VALUE_UNKNOWN).
  eexists. split_and!.
  - by destruct (DefaultListLookup.can_answer_authoritatively self parameters).
  - destruct (DefaultListLookup.can_answer_authoritatively self parameters);
      set_solver.
  - done.
  - unfold DefaultListLookup.__len__. simpl. rewrite length_app. simpl. lia.
  - intros h elem Hk. split.
    + rewrite (delete_unfold self h elem k Hk). by rewrite Hnone.
    + rewrite (delete_unfold (DefaultListLookup.with_index self _) h elem k Hk).
      simpl.
      rewrite <- (dict_set_None_app k [] _ Hnone), dict_get_set_eq. done.
Qed.

(** ** Sorting *)
Section sort_facts.
Context {A : Type} (key : A → Z).
Implicit Types (x : A) (l : list A).

Lemma insort_right_perm x l : insort_right key x l ≡ₚ x :: l.
Proof.
  induction l as [|y l IH]; simpl; [done|].
  destruct (key x <? key y)%Z; [done|].
  rewrite IH. apply Permutation_swap.
Qed.

Lemma stable_sort_snoc l x :
  stable_sort key (l ++ [x]) = insort_right key x (stable_sort key l).
Proof. unfold stable_sort. by rewrite foldl_app. Qed.

Lemma stable_sort_perm l : stable_sort key l ≡ₚ l.
Proof.
  induction l as [|x l IH] using rev_ind; [done|].
  rewrite stable_sort_snoc, insort_right_perm, IH.
  by rewrite Permutation_app_comm.
Qed.

Lemma insort_right_sorted x l :
  Sorted Z.le (key <$> l) → Sorted Z.le (key <$> insort_right key x l).
Proof.
  induction l as [|y l IH]; simpl; intros Hs.
  - repeat constructor.
  - destruct (key x <? key y)%Z eqn:Hlt.
    + apply Z.ltb_lt in Hlt. simpl. constructor; [done|].
      constructor. lia.
    + apply Z.ltb_ge in Hlt. simpl.
      apply Sorted_inv in Hs as [Hs Hhd].
      constructor; [by apply IH|].
      destruct l as [|z l]; simpl.
      * by constructor.
      * destruct (key x <? key z)%Z; simpl; constructor; [done|].
        by inversion Hhd.
Qed.

Lemma stable_sort_sorted l : Sorted Z.le (key <$> stable_sort key l).
Proof.
  induction l as [|x l IH] using rev_ind; [constructor|].
  rewrite stable_sort_snoc. by apply insort_right_sorted.
Qed.

(** an item that is not smaller than any other goes last *)
Lemma insort_right_last x l :
  Forall (λ y, key y ≤ key x)%Z l → insort_right key x l = l ++ [x].
Proof.
  induction 1 as [|y l Hy Hl IH]; simpl; [done|].
  rewrite (proj2 (Z.ltb_ge _ _) Hy). by rewrite IH.
Qed.

Lemma Sorted_le_snoc l x :
  Sorted Z.le (key <$> (l ++ [x])) →
  Sorted Z.le (key <$> l) ∧ Forall (λ y, key y ≤ key x)%Z l.
Proof.
  induction l as [|y l IH]; simpl; intros Hs.
  - split; constructor.
  - apply Sorted_inv in Hs as [Hs Hhd].
    destruct (IH Hs) as [Hl Hall]. split.
    + constructor; [done|]. destruct l; simpl in *; constructor.
      by inversion Hhd.
    + constructor; [|done].
      destruct l as [|z l]; simpl in *.
      * by inversion Hhd.
      * inversion Hhd; subst. inversion Hall; subst. lia.
Qed.

(** sorting what is in order already changes nothing *)
Lemma stable_sort_id l : Sorted Z.le (key <$> l) → stable_sort key l = l.
Proof.
  induction l as [|x l IH] using rev_ind; [done|].
  intros Hs. apply Sorted_le_snoc in Hs as [Hl Hall].
  rewrite stable_sort_snoc, IH by done. by apply insort_right_last.
Qed.

End sort_facts.

Lemma list_sort_perm {A} (sk : option (A → Z)) (l l' : list A) :
  list_sort sk l = Ok l' → l' ≡ₚ l.
Proof.
  unfold list_sort. destruct sk as [f|].
  - intros [= <-]. apply stable_sort_perm.
  - case_decide; [|done]. by intros [= <-].
Qed.

Lemma list_remove_elem {A} (eq_x : A → bool) (l l' : list A) x :
  list_remove eq_x l = Ok l' → x ∈ l' → x ∈ l.
Proof.
  revert l'. induction l as [|y l IH]; intros l'; simpl; [done|].
  destruct (eq_x y).
  - intros [= <-] Hin. by apply list_elem_of_further.
  - destruct (list_remove eq_x l) as [r|e]; [|done].
    intros [= <-] Hin. apply elem_of_cons in Hin as [->|Hin].
    + apply list_elem_of_here.
    + apply list_elem_of_further. by apply (IH r).
Qed.

Lemma elem_of_concat {A} (x : A) (ls : list (list A)) :
  x ∈ concat ls ↔ ∃ l, x ∈ l ∧ l ∈ ls.
Proof.
  induction ls as [|l ls IH]; simpl.
  - split; [by intros ?%elem_of_nil | by intros (? & _ & ?%elem_of_nil)].
  - rewrite elem_of_app, IH. split.
    + intros [Hin|(l' & Hin & Hl')].
      * exists l. split; [done|apply list_elem_of_here].
      * exists l'. split; [done|by apply list_elem_of_further].
    + intros (l' & Hin & Hl'). apply elem_of_cons in Hl' as [->|Hl'].
      * by left.
      * right. by exists l'.
Qed.

Lemma dict_set_set {K V} `{EqDecision K} (k : K) (v v' : V) (d : list (K * V)) :
  dict_set k v (dict_set k v' d) = dict_set k v d.
Proof.
  induction d as [|[k0 v0] d IH]; simpl.
  - by rewrite decide_True.
  - destruct (decide (k0 = k)) as [->|Hne]; simpl.
    + by rewrite decide_True.
    + by rewrite decide_False, IH.
Qed.

Lemma defaultdict_get_set {K V} `{EqDecision K} (factory : V) (k : K) (v : V)
    (d : list (K * V)) :
  dict_set k v (defaultdict_get factory k d).2 = dict_set k v d.
Proof.
  unfold defaultdict_get. destruct (dict_get k d); simpl; [done|].
  apply dict_set_set.
Qed.

Section DefaultListLookup_add.
Context {H E : Type} `{PyObject H E}.
Import DefaultListLookup.
Implicit Types (self : DefaultListLookup.t H E) (h : H) (elem : E).

Lemma add_raises self h elem e :
  key_of h (key_attributes self) elem = Raise e →
  add h elem self = (Raise e, self).
Proof. intros Hkey. unfold add, bind, _key. by rewrite Hkey. Qed.

Lemma add_unfold self h elem k :
  key_of h (key_attributes self) elem = Ok k →
  add h elem self =
    let bucket := replaced h elem (default [] (dict_get k (_index self))) in
    match list_sort (option_map (λ f, f h) (_sort_key self)) bucket with
    | Ok sorted => (Ok tt, with_index self (dict_set k sorted (_index self)))
    | Raise e => (Raise e, with_index self (dict_set k bucket (_index self)))
    end.
Proof.
  intros Hkey.
  unfold add, sort_bucket, bind, _key, get, getitem, setitem, ret, lift, replaced.
  rewrite Hkey.
  pose proof (defaultdict_get_spec [] k (_index self)) as Hspec.
  assert ((defaultdict_get [] k (_index self)).1
          = default [] (dict_get k (_index self))) as Hfst.
  { unfold defaultdict_get. by destruct (dict_get k (_index self)). }
  pose proof (λ v, defaultdict_get_set [] k v (_index self)) as Hset'.
  destruct (defaultdict_get [] k (_index self)) as [bucket d] eqn:Hd.
  simpl in *. subst bucket.
  set (bucket := default [] (dict_get k (_index self))) in *.
  destruct (list_remove (λ item, py_eq h item elem) bucket) as [bucket'|e];
    simpl.
  - rewrite (defaultdict_get_Some _ _ bucket') by apply dict_get_set_eq.
    simpl. rewrite dict_set_set.
    rewrite (defaultdict_get_Some _ _ (bucket' ++ [elem]))
      by apply dict_get_set_eq.
    simpl.
    destruct (list_sort _ (bucket' ++ [elem])); simpl;
      by rewrite ?dict_set_set, !Hset'.
  - rewrite (defaultdict_get_Some _ _ bucket) by done.
    simpl.
    rewrite (defaultdict_get_Some _ _ (bucket ++ [elem]))
      by apply dict_get_set_eq.
    simpl.
    destruct (list_sort _ (bucket ++ [elem])); simpl;
      by rewrite ?dict_set_set, !Hset'.
Qed.

Lemma replaced_elem h elem bucket : elem ∈ replaced h elem bucket.
Proof. unfold replaced. set_solver. Qed.

Lemma replaced_subset h elem bucket x :
  x ∈ replaced h elem bucket → x = elem ∨ x ∈ bucket.
Proof.
  unfold replaced. intros Hin. apply elem_of_app in Hin as [Hin|Hin].
  - right. destruct (list_remove _ bucket) as [b|] eqn:Hr; [|done].
    by apply (list_remove_elem _ _ _ _ Hr).
  - left. by apply list_elem_of_singleton in Hin.
Qed.

(** what a successful [add] leaves under the key of [elem] *)
Lemma add_Ok_inv self self' h elem :
  add h elem self = (Ok tt, self') →
  ∃ k sorted,
    key_of h (key_attributes self) elem = Ok k
    ∧ sorted ≡ₚ replaced h elem (default [] (dict_get k (_index self)))
    ∧ self' = with_index self (dict_set k sorted (_index self)).
Proof.
  destruct (key_of h (key_attributes self) elem) as [k|e] eqn:Hkey.
  - rewrite (add_unfold _ _ _ _ Hkey). simpl.
    destruct (list_sort _ _) as [sorted|e] eqn:Hsort; [|done].
    intros [= <-]. exists k, sorted. split_and!; [done| |done].
    by apply list_sort_perm in Hsort.
  - by rewrite (add_raises _ _ _ _ Hkey).
Qed.

Lemma add_lookup_found self self' h elem parameters :
  add h elem self = (Ok tt, self') →
  names_match parameters (key_attributes self) →
  values_of h elem parameters →
  ∃ payload,
    lookup parameters self' = (Ok (VALUE_FOUND, Some payload), self')
    ∧ elem ∈ payload.
Proof.
  intros Hadd Hnames Hvalues.
  apply add_Ok_inv in Hadd as (k & sorted & Hkey & Hperm & ->).
  assert (elem ∈ sorted) as Hin by (rewrite Hperm; apply replaced_elem).
  exists sorted. split; [|done].
  rewrite (lookup_supported _ parameters k).
  - simpl. rewrite (defaultdict_get_Some _ _ sorted) by apply dict_get_set_eq.
    destruct sorted; [by apply elem_of_nil in Hin|done].
  - by apply names_match_length.
  - by apply (key_of_parameters_match h elem).
Qed.
End DefaultListLookup_add.

(** ** SortedSet and ListLookup *)
Section ListLookup_facts.
Context {H E : Type} `{PyObject H E}.
Import ListLookup.
Implicit Types (self : ListLookup.t H E) (h : H) (elem : E).

Lemma without_elem h elem (s : list E) x :
  x ∈ SortedSet.without h elem s ↔ x ∈ s ∧ py_eq h x elem = false.
Proof. unfold SortedSet.without. rewrite list_elem_of_filter. tauto. Qed.

Lemma contains_without h elem (s : list E) b :
  SortedSet.contains h elem s = Ok b →
  SortedSet.contains h elem (SortedSet.without h elem s) = Ok false.
Proof.
  unfold SortedSet.contains. destruct (py_hashable h elem); [|done].
  intros _. f_equal. apply not_true_is_false. intros Hex.
  apply existsb_exists in Hex as (x & Hin & Heq).
  apply list_elem_of_In, without_elem in Hin as [_ Hne]. congruence.
Qed.

Lemma contains_false_id h elem (s : list E) :
  SortedSet.contains h elem s = Ok false → SortedSet.without h elem s = s.
Proof.
  unfold SortedSet.contains, SortedSet.without.
  destruct (py_hashable h elem); [|done]. intros [= Hex].
  induction s as [|x s IH]; [done|]. simpl in Hex.
  apply orb_false_elim in Hex as [Hx Hs].
  rewrite filter_cons_True by done. f_equal. by apply IH.
Qed.

Lemma SortedSet_add_new h sk elem (s s' : list E) :
  SortedSet.contains h elem s = Ok false →
  SortedSet.add h sk elem s = Ok s' → s' ≡ₚ elem :: s.
Proof.
  unfold SortedSet.add. intros ->. destruct sk as [f|].
  - intros [= <-]. apply insort_right_perm.
  - case_bool_decide as Hs; [|done]. intros [= <-]. by rewrite Hs.
Qed.

Lemma with_index_id' self : with_index self (_index self) = self.
Proof. by destruct self. Qed.

(** what a successful [add] leaves under the key of [elem]: the old
    bucket without the items equal to [elem], and [elem] *)
Lemma ListLookup_add_Ok_inv self self' h elem :
  add h elem self = (Ok tt, self') →
  ∃ k bucket,
    key_of h (key_attributes self) elem = Ok k
    ∧ bucket ≡ₚ elem :: SortedSet.without h elem
                           (default [] (dict_get k (_index self)))
    ∧ self' = with_index self (dict_set k bucket (_index self)).
Proof.
  unfold add, bucket_add, bind, _key, get, getitem, setitem, lift.
  destruct (key_of h (key_attributes self) elem) as [k|e] eqn:Hkey; [|done].
  pose proof (defaultdict_get_spec [] k (_index self)) as Hspec.
  assert ((defaultdict_get [] k (_index self)).1
          = default [] (dict_get k (_index self))) as Hfst.
  { unfold defaultdict_get. by destruct (dict_get k (_index self)). }
  pose proof (λ v, defaultdict_get_set [] k v (_index self)) as Hset.
  destruct (defaultdict_get [] k (_index self)) as [bucket d] eqn:Hd.
  simpl in *. subst bucket.
  set (bucket := default [] (dict_get k (_index self))) in *.
  destruct (SortedSet.discard h elem bucket) as [bucket1|e] eqn:Hdis; [|done].
  simpl. rewrite (defaultdict_get_Some _ _ bucket1) by apply dict_get_set_eq.
  simpl.
  destruct (SortedSet.add h (sort_key self) elem bucket1)
    as [bucket2|e] eqn:Hadd; [|done].
  simpl. intros [= <-]. exists k, bucket2. split_and!; [done| |].
  - unfold SortedSet.discard in Hdis.
    destruct (SortedSet.contains h elem bucket) as [b|] eqn:Hc; [|done].
    injection Hdis as <-.
    apply (SortedSet_add_new h (sort_key self)); [|done].
    by apply (contains_without _ _ _ b).
  - by rewrite !dict_set_set, !Hset.
Qed.

Lemma ListLookup_lookup_supported self parameters k :
  length parameters = length (key_attributes self) →
  key_of_parameters parameters (key_attributes self) = Ok k →
  lookup parameters self =
    (Ok match dict_get k (_index self) with
        | Some (item :: bucket) => (VALUE_FOUND, Some (item :: bucket))
        | _ => if can_answer_authoritatively self parameters
               then (VALUE_DOES_NOT_EXIST, None)
               else (VALUE_UNKNOWN, None)
        end, self).
Proof.
  intros Hlen Hkey. unfold lookup, bind, get, ret. simpl.
  rewrite Hlen, Nat.eqb_refl. simpl. rewrite Hkey.
  destruct (dict_get k (_index self)) as [[|item bucket]|];
    by destruct (can_answer_authoritatively self parameters).
Qed.

Lemma ListLookup_add_lookup_found self self' h elem parameters :
  add h elem self = (Ok tt, self') →
  names_match parameters (key_attributes self) →
  values_of h elem parameters →
  ∃ payload,
    lookup parameters self' = (Ok (VALUE_FOUND, Some payload), self')
    ∧ elem ∈ payload.
Proof.
  intros Hadd Hnames Hvalues.
  apply ListLookup_add_Ok_inv in Hadd as (k & bucket & Hkey & Hperm & ->).
  assert (elem ∈ bucket) as Hin by (rewrite Hperm; apply list_elem_of_here).
  exists bucket. split; [|done].
  rewrite (ListLookup_lookup_supported _ parameters k).
  - simpl. rewrite dict_get_set_eq.
    destruct bucket; [by apply elem_of_nil in Hin|done].
  - by apply names_match_length.
  - by apply (key_of_parameters_match h elem).
Qed.

(** [delete], unfolded *)
Lemma ListLookup_delete_unfold self h elem k :
  key_of h (key_attributes self) elem = Ok k →
  delete h elem self =
    match dict_get k (_index self) with
    | None => (Raise (UtilFailure "ERROR 934923432"), self)
    | Some bucket =>
        match SortedSet.remove h elem bucket with
        | Ok bucket' =>
            (Ok tt, with_index self (dict_set k bucket' (_index self)))
        | Raise e => (Raise e, self)
        end
    end.
Proof.
  intros Hkey.
  unfold delete, bind, _key, get, util_validate, getitem, setitem, lift.
  rewrite Hkey. unfold dict_mem.
  destruct (dict_get k (_index self)) as [bucket|] eqn:Hd; simpl; [|done].
  rewrite (defaultdict_get_Some _ _ bucket) by done. simpl.
  rewrite with_index_id'. by destruct (SortedSet.remove h elem bucket).
Qed.
End ListLookup_facts.

(** C9.  A record added to an index and then looked up with keyword
    arguments whose names are exactly the index's key attributes and whose
    values are the record's own is found: the lookup returns [VALUE_FOUND]
    and a payload that contains the record.  This holds for the sorted-set
    index and for the list-bucket index. *)
Theorem add_then_lookup_found `{PyObject H E} (h : H) (idx idx' : index H E)
    (elem : E) (parameters : kwargs) :
  lc_add h elem idx = (Ok tt, idx') →
  names_match parameters (index_key_attributes idx) →
  values_of h elem parameters →
  ∃ payload idx'',
    lc_lookup parameters idx' = (Ok (VALUE_FOUND, Some payload), idx'')
    ∧ elem ∈ payload.
Proof.
  intros Hadd Hnames Hvalues. destruct idx as [l|d]; simpl in *.
  - unfold as_ListIndex in Hadd.
    destruct (ListLookup.add h elem l) as [r l'] eqn:Hl. simpl in Hadd.
    injection Hadd as -> <-.
    destruct (ListLookup_add_lookup_found _ _ _ _ _ Hl Hnames Hvalues)
      as (payload & Hlookup & Hin).
    exists payload, (ListIndex l'). split; [|done].
    unfold dispatch, as_ListIndex. by rewrite Hlookup.
  - unfold as_DefaultListIndex in Hadd.
    destruct (DefaultListLookup.add h elem d) as [r d'] eqn:Hd. simpl in Hadd.
    injection Hadd as -> <-.
    destruct (add_lookup_found _ _ _ _ _ Hd Hnames Hvalues)
      as (payload & Hlookup & Hin).
    exists payload, (DefaultListIndex d'). split; [|done].
    unfold dispatch, as_DefaultListIndex. by rewrite Hlookup.
Qed.

(** On the list-bucket index a delete that finds the bucket and in it no
    record equal to the one deleted returns and changes nothing. *)
Lemma DefaultListLookup_delete_absent_returns `{PyObject H E} (h : H)
    (self : DefaultListLookup.t H E) (elem : E) (k : key) (bucket : list E) :
  key_of h (DefaultListLookup.key_attributes self) elem = Ok k →
  dict_get k (DefaultListLookup._index self) = Some bucket →
  (∀ x, x ∈ bucket → py_eq h x elem = false) →
  DefaultListLookup.delete h elem self = (Ok tt, self).
Proof.
  intros Hkey Hget Hne. rewrite (delete_unfold self h elem k Hkey), Hget.
  assert (filter (λ e, py_eq h e elem = false) bucket = bucket) as ->.
  { clear Hget. induction bucket as [|x bucket IH]; [done|].
    rewrite filter_cons_True by apply Hne, list_elem_of_here.
    f_equal. apply IH. intros y Hy. by apply Hne, list_elem_of_further. }
  by rewrite (dict_set_id _ _ _ Hget), with_index_id.
Qed.

(** C5 as stated fails on the list-bucket index, which lets the delete of a
    record that was never added pass when another record made the bucket:
    with [A] added, deleting [B], of the same category, returns and leaves
    the index as it was. *)
Lemma DefaultListLookup_delete_never_added_succeeds :
  let idx := (DefaultListLookup.add Sample.records Sample.A Sample.by_category).2 in
  DefaultListLookup._index idx = [([VStr "x"], [Sample.A])]
  ∧ DefaultListLookup.delete Sample.records Sample.B idx = (Ok tt, idx).
Proof. split; reflexivity. Qed.

(** C5, amended.  Deleting a record that was never added fails and leaves
    the index as it was whenever the index has no bucket for the record's
    key, and then the failure is the integrity error; on the sorted-set
    index it fails as well when the bucket exists and holds no record equal
    to the one deleted. *)
Theorem delete_never_added_fails `{PyObject H E} (h : H) (idx : index H E)
    (elem : E) (k : key) :
  key_of h (index_key_attributes idx) elem = Ok k →
  (∀ bucket, dict_get k (index_buckets idx) = Some bucket →
     (∃ l, idx = ListIndex l) ∧ ∀ x, x ∈ bucket → py_eq h x elem = false) →
  ∃ e, lc_delete h elem idx = (Raise e, idx)
       ∧ (dict_get k (index_buckets idx) = None →
          e = UtilFailure "ERROR 934923432").
Proof.
  intros Hkey Hbucket. destruct idx as [l|d]; simpl in *; unfold dispatch.
  - rewrite (ListLookup_delete_unfold l h elem k Hkey).
    destruct (dict_get k (ListLookup._index l)) as [bucket|] eqn:Hd.
    + destruct (Hbucket bucket eq_refl) as [_ Hne].
      unfold SortedSet.remove, SortedSet.contains.
      destruct (py_hashable h elem).
      * assert (existsb (λ item, py_eq h item elem) bucket = false) as ->.
        { apply not_true_is_false. intros Hex.
          apply existsb_exists in Hex as (x & Hin & Heq).
          apply list_elem_of_In, Hne in Hin. congruence. }
        by exists KeyError.
      * by exists TypeError.
    + by eexists.
  - rewrite (delete_unfold d h elem k Hkey).
    destruct (dict_get k (DefaultListLookup._index d)) as [bucket|] eqn:Hd.
    + by destruct (Hbucket bucket eq_refl) as [[l ?] _].
    + by eexists.
Qed.

(** ** CompositeLookup *)
Section CompositeLookup_facts.
Context {H E C : Type} `{LookupContainer H E C}.
Implicit Types (parameters : kwargs) (indexes : list C).

Lemma certain_false_cases c :
  certain c = false → c = LOOKUP_NOT_SUPPORTED ∨ c = VALUE_UNKNOWN.
Proof. destruct c; auto; by vm_compute. Qed.

Lemma retcode_max_uncertain a b :
  certain a = false → certain b = false → certain (retcode_max a b) = false.
Proof. by destruct a, b. Qed.

Lemma retcode_max_le_l a b : (retcode_value a ≤ retcode_value (retcode_max a b))%Z.
Proof. unfold retcode_max. destruct (_ <? _)%Z eqn:Hlt; lia. Qed.

Lemma retcode_max_le_r a b : (retcode_value b ≤ retcode_value (retcode_max a b))%Z.
Proof. unfold retcode_max. destruct (_ <? _)%Z eqn:Hlt; lia. Qed.

Lemma retcode_max_cases a b : retcode_max a b = a ∨ retcode_max a b = b.
Proof. unfold retcode_max. destruct (_ <? _)%Z; auto. Qed.

(** the members in front of the first certain one only raise the code the
    loop carries; the loop stops at the certain one *)
Lemma lookup_from_certain parameters c0 before m after c payload m' :
  Forall (λ idx, ∃ c, answers parameters idx c ∧ certain c = false) before →
  lc_lookup parameters m = (Ok (c, payload), m') →
  certain c = true →
  CompositeLookup.lookup_from parameters c0 (before ++ m :: after)
    = (Ok (c, payload), (after_lookup parameters <$> before) ++ m' :: after).
Proof.
  intros Hbefore Hm Hc. revert c0.
  induction Hbefore as [|idx before (c1 & (p1 & idx' & Hidx) & Hc1) _ IH];
    intros c0; simpl.
  - rewrite Hm. unfold certain in Hc. by rewrite Hc.
  - unfold after_lookup at 1. rewrite Hidx. unfold certain in Hc1.
    rewrite Hc1. by rewrite IH.
Qed.

(** no member certain: every member is asked, and the loop ends with the
    greatest code *)
Lemma lookup_from_uncertain parameters c0 indexes codes :
  Forall2 (λ idx c, answers parameters idx c ∧ certain c = false)
          indexes codes →
  CompositeLookup.lookup_from parameters c0 indexes
    = (Ok (foldl retcode_max c0 codes, None),
       after_lookup parameters <$> indexes).
Proof.
  intros Hall. revert c0.
  induction Hall as [|idx c1 indexes codes [(p1 & idx' & Hidx) Hc1] _ IH];
    intros c0; simpl; [done|].
  unfold after_lookup at 1. rewrite Hidx. unfold certain in Hc1.
  rewrite Hc1. by rewrite IH.
Qed.

Lemma foldl_retcode_max_bound c0 codes :
  (retcode_value c0 ≤ retcode_value (foldl retcode_max c0 codes))%Z
  ∧ Forall (λ c, retcode_value c ≤ retcode_value (foldl retcode_max c0 codes))%Z
           codes.
Proof.
  revert c0. induction codes as [|c codes IH]; intros c0; simpl.
  - split; [lia|constructor].
  - destruct (IH (retcode_max c0 c)) as [Hle Hall]. split.
    + pose proof (retcode_max_le_l c0 c). lia.
    + constructor; [|done]. pose proof (retcode_max_le_r c0 c). lia.
Qed.

Lemma foldl_retcode_max_elem c0 codes :
  foldl retcode_max c0 codes = c0 ∨ foldl retcode_max c0 codes ∈ codes.
Proof.
  revert c0. induction codes as [|c codes IH]; intros c0; simpl; [by left|].
  destruct (IH (retcode_max c0 c)) as [->|Hin].
  - destruct (retcode_max_cases c0 c) as [->| ->]; [by left|].
    right. apply list_elem_of_here.
  - right. by apply list_elem_of_further.
Qed.
End CompositeLookup_facts.

(** C6.  A composite lookup returns the result of the first member, in
    configured order, whose own lookup returns [VALUE_FOUND] or
    [VALUE_DOES_NOT_EXIST]: the members behind it are left as they were,
    whatever they are.  When no member returns such a code, every member is
    consulted and the composite returns, without payload, the greatest of
    the codes seen in the order [LOOKUP_NOT_SUPPORTED < VALUE_UNKNOWN]
    ([LOOKUP_NOT_SUPPORTED] when there is no member at all). *)
Theorem CompositeLookup_lookup_first_certain `{LookupContainer H E C}
    (parameters : kwargs) :
  (∀ (before : list C) m after c payload m',
     Forall (λ idx, ∃ c, answers parameters idx c ∧ certain c = false) before →
     lc_lookup parameters m = (Ok (c, payload), m') →
     c ∈ [VALUE_FOUND; VALUE_DOES_NOT_EXIST] →
     CompositeLookup.lookup parameters (before ++ m :: after)
       = (Ok (c, payload), (after_lookup parameters <$> before) ++ m' :: after))
  ∧ (∀ (indexes : list C) codes,
       Forall2 (λ idx c, answers parameters idx c ∧ certain c = false)
               indexes codes →
       ∃ c,
         CompositeLookup.lookup parameters indexes
           = (Ok (c, None), after_lookup parameters <$> indexes)
         ∧ c ∈ [LOOKUP_NOT_SUPPORTED; VALUE_UNKNOWN]
         ∧ Forall (λ c', retcode_value c' ≤ retcode_value c)%Z codes
         ∧ (c ∈ codes ∨ codes = [] ∧ c = LOOKUP_NOT_SUPPORTED)).
Proof.
  split.
  - intros before m after c payload m' Hbefore Hm Hc.
    apply lookup_from_certain; [done..|].
    unfold certain. by apply bool_decide_eq_true.
  - intros indexes codes Hall.
    exists (foldl retcode_max LOOKUP_NOT_SUPPORTED codes). split_and!.
    + by apply lookup_from_uncertain.
    + assert (Forall (λ c, certain c = false) codes) as Hcodes.
      { clear -Hall. induction Hall as [|???? [_ ?]]; by constructor. }
      assert (certain (foldl retcode_max LOOKUP_NOT_SUPPORTED codes) = false)
        as Hmax.
      { assert (certain LOOKUP_NOT_SUPPORTED = false) as Hinit by done.
        revert Hinit. generalize LOOKUP_NOT_SUPPORTED. clear Hall.
        induction Hcodes as [|c codes Hc _ IH]; intros c0 Hc0; simpl; [done|].
        apply IH. by apply retcode_max_uncertain. }
      destruct (certain_false_cases _ Hmax) as [-> | ->]; set_solver.
    + apply foldl_retcode_max_bound.
    + destruct (foldl_retcode_max_elem LOOKUP_NOT_SUPPORTED codes) as [Heq|Hin];
        [|by left].
      destruct codes as [|c codes]; [by right|]. left.
      rewrite Heq.
      destruct (foldl_retcode_max_bound LOOKUP_NOT_SUPPORTED (c :: codes))
        as [_ Hall'].
      rewrite Heq in Hall'. apply Forall_cons in Hall' as [Hc _].
      destruct c; simpl in Hc; try lia. apply list_elem_of_here.
Qed.

(** ** InProcessWriteBackCache.clear *)

(** C7.  When the change log is not empty, [clear] with [force=False] fails,
    and the failed call leaves the change log as it was.  The failure is
    that of the emptiness validation unless clearing a member index failed
    before it. *)
Theorem clear_unforced_keeps_change_log `{LookupContainer heap oid C}
    (s : world * InProcessWriteBackCache.t C) :
  ListLookup.__len__ (InProcessWriteBackCache.change_log s.2) ≠ 0 →
  ∃ e s',
    InProcessWriteBackCache.clear false s = (Raise e, s')
    ∧ InProcessWriteBackCache.change_log s'.2
        = InProcessWriteBackCache.change_log s.2
    ∧ ((CompositeLookup.clear (InProcessWriteBackCache.indexes s.2)).1 = Ok tt →
       e = UtilFailure "validate_equals").
Proof.
  intros Hlen. destruct s as [w self].
  unfold InProcessWriteBackCache.clear, InProcessWriteBackCache.in_indexes,
    InProcessWriteBackCache.in_change_log, bind, get, util_validate_equals.
  simpl in *.
  destruct (CompositeLookup.clear (InProcessWriteBackCache.indexes self))
    as [[[]|e] idxs] eqn:Hclear; simpl.
  - destruct (ListLookup.__len__ (InProcessWriteBackCache.change_log self))
      as [|n] eqn:Hn; [done|].
    simpl. by eexists _, _.
  - eexists _, _. split_and!; [done..|]. by intros.
Qed.

(** ** The heap *)
Lemma deref_insert_eq (h : heap) elem m : deref (<[elem := m]> h) elem = m.
Proof. apply lookup_total_insert_eq. Qed.

Lemma deref_insert_ne (h : heap) elem o m :
  elem ≠ o → deref (<[elem := m]> h) o = deref h o.
Proof. apply lookup_total_insert_ne. Qed.

(** ** ChangeLog *)
Section ChangeLog_facts.
Implicit Types (log : ChangeLog.t) (c : DjangoModelChange)
  (bucket : list DjangoModelChange).

Lemma Sorted_le_NoDup_lt (l : list Z) :
  Sorted Z.le l → NoDup l → Sorted Z.lt l.
Proof.
  induction 1 as [|x l Hs IH Hhd]; intros Hnd; [constructor|].
  apply NoDup_cons in Hnd as [Hx Hnd]. constructor; [by apply IH|].
  destruct Hhd as [|y l Hxy]; constructor.
  assert (x ≠ y) by (intros ->; apply Hx, list_elem_of_here). lia.
Qed.




(** applying a change raises when the store does not take it, with the
    store's [TypeError], and returns otherwise *)
Lemma apply_change_result c w :
  (apply_change c w).1
  = if accepted (objects w) c then Ok tt else Raise TypeError.
Proof.
  unfold apply_change, accepted, bind, get, model_save, set_pk, ret. simpl.
  destruct (kind c) as [kw|].
  - destruct (pk (deref (objects w) (obj c))) eqn:Hpk; simpl;
      rewrite ?Hpk; simpl; try done.
    by rewrite deref_insert_eq.
  - by destruct (pk (deref (objects w) (obj c))) eqn:Hpk; simpl;
      rewrite ?Hpk.
Qed.

(** applying a change gives no record a placeholder *)
Lemma apply_change_placeholder c w o :
  isinstance_UniqueTransientValue (pk (deref (objects (apply_change c w).2) o))
    = true →
  isinstance_UniqueTransientValue (pk (deref (objects w) o)) = true.
Proof.
  unfold apply_change, bind, get, model_save, set_pk, ret. simpl.
  destruct (kind c) as [kw|].
  - destruct (pk (deref (objects w) (obj c))) eqn:Hpk; simpl;
      rewrite ?Hpk; simpl; try done.
    + destruct (decide (o = obj c)) as [->|Hne].
      * by rewrite deref_insert_eq.
      * by rewrite deref_insert_ne.
    + rewrite deref_insert_eq. simpl.
      destruct (decide (o = obj c)) as [->|Hne].
      * by rewrite deref_insert_eq.
      * by rewrite !deref_insert_ne.
  - by destruct (pk (deref (objects w) (obj c))) eqn:Hpk; simpl;
      rewrite ?Hpk.
Qed.

Lemma apply_change_accepted c c' w :
  accepted (objects w) c' = true →
  accepted (objects (apply_change c w).2) c' = true.
Proof.
  unfold accepted. destruct (kind c'); [done|].
  intros Hacc.
  destruct (isinstance_UniqueTransientValue
              (pk (deref (objects (apply_change c w).2) (obj c')))) eqn:Hp;
    [|done].
  apply apply_change_placeholder in Hp. by rewrite Hp in Hacc.
Qed.

(** the loop over changes that the store takes returns *)
Lemma for_each_apply_change_Ok (l : list DjangoModelChange) w :
  Forall (λ c, accepted (objects w) c = true) l →
  (for_each apply_change l w).1 = Ok tt.
Proof.
  revert w. induction l as [|c l IH]; intros w Hall; simpl; [done|].
  apply Forall_cons in Hall as [Hc Hall].
  unfold bind. pose proof (apply_change_result c w) as Hr.
  pose proof (λ c', apply_change_accepted c c' w) as Hacc.
  rewrite Hc in Hr.
  destruct (apply_change c w) as [[[]|e] w']; simpl in *; [|done].
  apply IH. eapply Forall_impl; [exact Hall|]. intros c'. apply Hacc.
Qed.

End ChangeLog_facts.


(** *** The class maintains [ChangeLog_wf] *)
Section ChangeLog_wf_facts.
Implicit Types (log : ChangeLog.t) (c : DjangoModelChange)
  (bucket : list DjangoModelChange).

Lemma ListLookup_add_unfold `{PyObject H E} (self : ListLookup.t H E) h elem k :
  key_of h (ListLookup.key_attributes self) elem = Ok k →
  ListLookup.add h elem self =
    let idx := ListLookup._index self in
    match SortedSet.discard h elem (default [] (dict_get k idx)) with
    | Raise e =>
        (Raise e, ListLookup.with_index self (defaultdict_get [] k idx).2)
    | Ok b1 =>
        match SortedSet.add h (ListLookup.sort_key self) elem b1 with
        | Ok b2 => (Ok tt, ListLookup.with_index self (dict_set k b2 idx))
        | Raise e => (Raise e, ListLookup.with_index self (dict_set k b1 idx))
        end
    end.
Proof.
  intros Hkey.
  unfold ListLookup.add, ListLookup.bucket_add, bind, ListLookup._key, get,
    ListLookup.getitem, ListLookup.setitem, lift.
  rewrite Hkey.
  assert ((defaultdict_get [] k (ListLookup._index self)).1
          = default [] (dict_get k (ListLookup._index self))) as Hfst.
  { unfold defaultdict_get. by destruct (dict_get k (ListLookup._index self)). }
  pose proof (λ v, defaultdict_get_set [] k v (ListLookup._index self)) as Hset.
  destruct (defaultdict_get [] k (ListLookup._index self)) as [bucket d] eqn:Hd.
  simpl in *. subst bucket.
  destruct (SortedSet.discard h elem _) as [b1|e]; [|done].
  simpl. rewrite (defaultdict_get_Some _ _ b1) by apply dict_get_set_eq.
  simpl. destruct (SortedSet.add h _ elem b1) as [b2|e]; simpl.
  - by rewrite !dict_set_set, !Hset.
  - by rewrite !Hset.
Qed.

Lemma dict_values_set_Forall {K V} `{EqDecision K} (P : V → Prop) (k : K)
    (v : V) (d : list (K * V)) :
  P v → Forall P (dict_values d) → Forall P (dict_values (dict_set k v d)).
Proof.
  intros Hv. induction d as [|[k0 v0] d IH]; simpl; intros Hd.
  - by constructor.
  - apply Forall_cons in Hd as [H0 Hd].
    destruct (decide (k0 = k)); simpl; constructor; auto.
Qed.

(** the items of the updated dict, with those of the bucket replaced,
    are the new bucket and the items of the old dict *)
Lemma dict_set_concat {K A} `{EqDecision K} (k : K) (v : list A)
    (d : list (K * list A)) :
  concat (dict_values (dict_set k v d)) ++ default [] (dict_get k d)
    ≡ₚ v ++ concat (dict_values d).
Proof.
  induction d as [|[k0 v0] d IH]; simpl.
  - by rewrite !app_nil_r.
  - destruct (decide (k0 = k)); simpl.
    + rewrite <- !(assoc_L (++)). f_equiv.
      by rewrite Permutation_app_comm.
    + rewrite <- (assoc_L (++)), IH.
      rewrite !(assoc_L (++)). f_equiv. apply Permutation_app_comm.
Qed.

Lemma Sorted_lt_le (l : list Z) : Sorted Z.lt l → Sorted Z.le l.
Proof.
  induction 1 as [|x l _ IH Hhd]; constructor; [done|].
  destruct Hhd; constructor. lia.
Qed.

Lemma Sorted_lt_NoDup (l : list Z) : Sorted Z.lt l → NoDup l.
Proof.
  intros Hs. apply (Sorted_StronglySorted _) in Hs.
  induction Hs as [|x l _ IH Hall]; constructor; [|done].
  intros Hin. apply (proj1 (Forall_forall _ _) Hall) in Hin. lia.
Qed.

Lemma bucket_in_log log k bucket c :
  dict_get k (ListLookup._index log) = Some bucket →
  c ∈ bucket → c ∈ log_changes log.
Proof.
  intros Hget Hin. unfold log_changes. apply elem_of_concat.
  exists bucket. split; [done|].
  apply (list_elem_of_fmap_2 snd _ (k, bucket)).
  by apply dict_get_Some_elem.
Qed.

Lemma ChangeLog_wf_init : ChangeLog_wf ChangeLog.__init__.
Proof. split; simpl; try constructor; done. Qed.

(** adding a change record whose counter is new to the log *)
Lemma ChangeLog_wf_add (h : heap) log c :
  ChangeLog_wf log →
  (∀ c', c' ∈ log_changes log → change_counter c' ≠ change_counter c) →
  ∃ log',
    ChangeLog.add h c log = (Ok tt, log')
    ∧ ChangeLog_wf log'
    ∧ log_changes log' ≡ₚ c :: log_changes log.
Proof.
  intros [[Hattrs Hsk] Hkeys Hnonempty Hsorted Hcounters] Hfresh.
  set (k := [change_pk h c]).
  set (bucket := default [] (dict_get k (ListLookup._index log))).
  assert (∀ c', c' ∈ bucket → change_counter c' ≠ change_counter c) as Hb.
  { intros c' Hin. apply Hfresh. subst bucket.
    destruct (dict_get k (ListLookup._index log)) as [b|] eqn:Hget.
    - by apply (bucket_in_log log k b).
    - by apply elem_of_nil in Hin. }
  assert (Sorted Z.lt (change_counter <$> bucket)) as Hbs.
  { subst bucket.
    destruct (dict_get k (ListLookup._index log)) as [b|] eqn:Hget;
      [|constructor].
    apply (proj1 (Forall_forall _ _) Hsorted).
    apply (list_elem_of_fmap_2 snd _ (k, b)). by apply dict_get_Some_elem. }
  assert (SortedSet.contains h c bucket = Ok false) as Hcontains.
  { unfold SortedSet.contains. simpl. f_equal. apply not_true_is_false.
    intros Hex. apply existsb_exists in Hex as (c' & Hin & Heq).
    apply bool_decide_eq_true in Heq as ->.
    by apply list_elem_of_In, Hb in Hin. }
  set (bucket' := insort_right change_counter c bucket).
  exists (ListLookup.with_index log (dict_set k bucket' (ListLookup._index log))).
  assert (concat (dict_values (dict_set k bucket' (ListLookup._index log)))
          ≡ₚ c :: log_changes log) as Hperm.
  { apply (Permutation_app_inv_r bucket).
    pose proof (dict_set_concat k bucket' (ListLookup._index log)) as Hc.
    fold bucket in Hc. rewrite Hc. unfold bucket'.
    rewrite insort_right_perm. simpl. f_equiv.
    apply Permutation_app_comm. }
  split_and!.
  - unfold ChangeLog.add, bind, util_validate, ret.
    rewrite (ListLookup_add_unfold log h c k)
      by (by unfold key_of; rewrite Hattrs).
    cbv zeta. unfold SortedSet.discard.
    change (default [] (dict_get k (ListLookup._index log))) with bucket.
    rewrite Hcontains, (contains_false_id _ _ _ Hcontains).
    unfold SortedSet.add. rewrite Hcontains, Hsk. done.
  - split; simpl.
    + done.
    + by apply dict_set_NoDup.
    + apply dict_values_set_Forall; [|done].
      unfold bucket'. intros Hnil.
      pose proof (insort_right_perm change_counter c bucket) as Hp.
      rewrite Hnil in Hp. by apply Permutation_nil_cons in Hp.
    + apply dict_values_set_Forall; [|done].
      apply Sorted_le_NoDup_lt.
      * by apply insort_right_sorted, Sorted_lt_le.
      * unfold bucket'. rewrite insort_right_perm. simpl.
        apply NoDup_cons. split; [|by apply Sorted_lt_NoDup].
        intros Hin. apply list_elem_of_fmap in Hin as (c' & Heq & Hin).
        by apply (Hb c').
    + unfold log_changes. simpl. rewrite Hperm. simpl.
      apply NoDup_cons. split; [|done].
      intros Hin. apply list_elem_of_fmap in Hin as (c' & Heq & Hin).
      by apply (Hfresh c').
  - done.
Qed.
End ChangeLog_wf_facts.

(** ** InProcessWriteBackCache: what [add], [delete] and the flush do *)
Section cache_facts.
Context {C : Type} `{LookupContainer heap oid C}.
Variable is_cacheable : heap → oid → bool.
Implicit Types (w : world) (self : InProcessWriteBackCache.t C) (elem : oid).

Import InProcessWriteBackCache.

Lemma add_cacheable w self elem :
  is_cacheable (objects w) elem = true →
  add is_cacheable elem (w, self) =
    let op := {| kind := SaveOp []; obj := elem;
                 change_counter := (_change_counter w + 1)%Z |} in
    let w' := prepared w elem in
    match CompositeLookup.add (objects w') elem (indexes self) with
    | (Raise e, idxs) =>
        (Raise e, (w', {| indexes := idxs; change_log := change_log self |}))
    | (Ok _, idxs) =>
        let '(r, log) := ChangeLog.add (objects w') op (change_log self) in
        (r, (w', {| indexes := idxs; change_log := log |}))
    end.
Proof.
  intros Hc.
  unfold add, in_world, in_indexes, in_change_log, new_change, bind, get, ret,
    prepared.
  simpl. rewrite Hc.
  destruct (is_None (pk (deref (objects w) elem))); simpl;
    destruct (CompositeLookup.add _ elem (indexes self)) as [[[]|e] idxs];
    simpl; try done;
    by destruct (ChangeLog.add _ _ (change_log self)).
Qed.

Lemma add_not_cacheable w self elem :
  is_cacheable (objects w) elem = false →
  add is_cacheable elem (w, self) =
    let op := {| kind := SaveOp []; obj := elem;
                 change_counter := (_change_counter w + 1)%Z |} in
    let '(r, w') := apply_change op (Sequence.next_value w).2 in
    (r, (w', self)).
Proof.
  intros Hc. unfold add, in_world, new_change, bind, get, ret.
  simpl. rewrite Hc. by destruct (apply_change _ _).
Qed.

Lemma delete_cacheable w self elem :
  is_cacheable (objects w) elem = true →
  delete is_cacheable elem (w, self) =
    let op := {| kind := DeleteOp; obj := elem;
                 change_counter := (_change_counter w + 1)%Z |} in
    let w' := (Sequence.next_value w).2 in
    match CompositeLookup.delete (objects w') elem (indexes self) with
    | (Raise e, idxs) =>
        (Raise e, (w', {| indexes := idxs; change_log := change_log self |}))
    | (Ok _, idxs) =>
        let '(r, log) := ChangeLog.add (objects w') op (change_log self) in
        (r, (w', {| indexes := idxs; change_log := log |}))
    end.
Proof.
  intros Hc.
  unfold delete, in_world, in_indexes, in_change_log, new_change, bind, get,
    ret.
  simpl. rewrite Hc.
  repeat (case_match; simplify_eq/=); done.
Qed.

Lemma delete_not_cacheable w self elem :
  is_cacheable (objects w) elem = false →
  delete is_cacheable elem (w, self) =
    let op := {| kind := DeleteOp; obj := elem;
                 change_counter := (_change_counter w + 1)%Z |} in
    let '(r, w') := apply_change op (Sequence.next_value w).2 in
    (r, (w', self)).
Proof.
  intros Hc. unfold delete, in_world, new_change, bind, get, ret.
  simpl. rewrite Hc. by destruct (apply_change _ _).
Qed.

(** the flush applies the latest changes; when that returns it leaves an
    empty change log and the indexes as they were, and when that raises the
    cache is as it was *)
Lemma flush_unfold w self :
  flush_changes_to_database (w, self) =
    match ChangeLog.apply_all (change_log self) w with
    | (Ok _, w') =>
        (Ok tt,
         (w', {| indexes := indexes self;
                 change_log := ListLookup.with_index (change_log self) [] |}))
    | (Raise e, w') => (Raise e, (w', self))
    end.
Proof.
  unfold flush_changes_to_database, in_world, in_change_log, bind, get.
  simpl. by destruct (ChangeLog.apply_all _ w) as [[[]|e] w'].
Qed.



End cache_facts.

(** ** Buckets after an update *)
Section records_facts.
Context {K A : Type} `{EqDecision K}.
Implicit Types (k : K) (b : list A) (d : list (K * list A)).

Lemma records_set_inv k b d x :
  x ∈ concat (dict_values (dict_set k b d)) →
  x ∈ b ∨ x ∈ concat (dict_values d).
Proof.
  intros Hin. rewrite <- elem_of_app, <- (dict_set_concat k b d).
  apply elem_of_app. by left.
Qed.

Lemma records_set_keep k b d x :
  x ∈ concat (dict_values d) →
  x ∈ concat (dict_values (dict_set k b d)) ∨ x ∈ default [] (dict_get k d).
Proof.
  intros Hin. rewrite <- elem_of_app, (dict_set_concat k b d).
  apply elem_of_app. by right.
Qed.

Lemma records_set_new k b d x :
  x ∈ b → x ∈ concat (dict_values (dict_set k b d)).
Proof.
  intros Hin. apply elem_of_concat. exists b. split; [done|].
  apply (list_elem_of_fmap_2 snd _ (k, b)), dict_elem_set_new.
Qed.

Lemma records_bucket k d x :
  x ∈ default [] (dict_get k d) → x ∈ concat (dict_values d).
Proof.
  destruct (dict_get k d) as [b|] eqn:Hget; simpl.
  - intros Hin. apply elem_of_concat. exists b. split; [done|].
    apply (list_elem_of_fmap_2 snd _ (k, b)). by apply dict_get_Some_elem.
  - by intros ?%elem_of_nil.
Qed.
End records_facts.

(** ** What the members hold after [add] and [delete] *)
Section index_facts.
Context {H E : Type} `{PyObject H E}.
Implicit Types (h : H) (elem : E) (idx : index H E).

(** a successful [add] brings nothing into the index but [elem] *)
Lemma index_add_records h elem idx idx' x :
  lc_add h elem idx = (Ok tt, idx') →
  x ∈ index_records idx' → x = elem ∨ x ∈ index_records idx.
Proof.
  destruct idx as [l|d]; simpl; unfold dispatch.
  - unfold as_ListIndex.
    destruct (ListLookup.add h elem l) as [r l'] eqn:Hadd. simpl.
    intros [= -> <-].
    apply ListLookup_add_Ok_inv in Hadd as (k & bucket & _ & Hperm & ->).
    unfold index_records. simpl. intros Hin.
    apply records_set_inv in Hin as [Hin|Hin]; [|by right].
    rewrite Hperm in Hin. apply elem_of_cons in Hin as [->|Hin]; [by left|].
    right. apply without_elem in Hin as [Hin _].
    by apply (records_bucket k).
  - unfold as_DefaultListIndex.
    destruct (DefaultListLookup.add h elem d) as [r d'] eqn:Hadd. simpl.
    intros [= -> <-].
    apply add_Ok_inv in Hadd as (k & sorted & _ & Hperm & ->).
    unfold index_records. simpl. intros Hin.
    apply records_set_inv in Hin as [Hin|Hin]; [|by right].
    rewrite Hperm in Hin. apply replaced_subset in Hin as [->|Hin]; [by left|].
    right. by apply (records_bucket k).
Qed.

Lemma ListLookup_delete_Ok_inv h elem (l l' : ListLookup.t H E) :
  ListLookup.delete h elem l = (Ok tt, l') →
  ∃ k bucket,
    dict_get k (ListLookup._index l) = Some bucket
    ∧ l' = ListLookup.with_index l
             (dict_set k (SortedSet.without h elem bucket)
                       (ListLookup._index l)).
Proof.
  destruct (key_of h (ListLookup.key_attributes l) elem) as [k|e] eqn:Hkey.
  - rewrite (ListLookup_delete_unfold l h elem k Hkey).
    destruct (dict_get k (ListLookup._index l)) as [bucket|] eqn:Hget;
      [|done].
    unfold SortedSet.remove.
    destruct (SortedSet.contains h elem bucket) as [[]|]; try done.
    intros [= <-]. by exists k, bucket.
  - unfold ListLookup.delete, bind, ListLookup._key. by rewrite Hkey.
Qed.

Lemma DefaultListLookup_delete_Ok_inv h elem (d d' : DefaultListLookup.t H E) :
  DefaultListLookup.delete h elem d = (Ok tt, d') →
  ∃ k bucket,
    dict_get k (DefaultListLookup._index d) = Some bucket
    ∧ d' = DefaultListLookup.with_index d
             (dict_set k (filter (λ e, py_eq h e elem = false) bucket)
                       (DefaultListLookup._index d)).
Proof.
  destruct (key_of h (DefaultListLookup.key_attributes d) elem)
    as [k|e] eqn:Hkey.
  - rewrite (delete_unfold d h elem k Hkey).
    destruct (dict_get k (DefaultListLookup._index d)) as [bucket|] eqn:Hget;
      [|done].
    intros [= <-]. by exists k, bucket.
  - unfold DefaultListLookup.delete, bind, DefaultListLookup._key.
    by rewrite Hkey.
Qed.

(** a successful [delete] brings nothing into the index *)
Lemma index_delete_records h elem idx idx' x :
  lc_delete h elem idx = (Ok tt, idx') →
  x ∈ index_records idx' → x ∈ index_records idx.
Proof.
  destruct idx as [l|d]; simpl; unfold dispatch.
  - unfold as_ListIndex.
    destruct (ListLookup.delete h elem l) as [r l'] eqn:Hdel. simpl.
    intros [= -> <-].
    apply ListLookup_delete_Ok_inv in Hdel as (k & bucket & Hget & ->).
    unfold index_records. simpl. intros Hin.
    apply records_set_inv in Hin as [Hin|Hin]; [|done].
    apply without_elem in Hin as [Hin _].
    apply (records_bucket k). by rewrite Hget.
  - unfold as_DefaultListIndex.
    destruct (DefaultListLookup.delete h elem d) as [r d'] eqn:Hdel. simpl.
    intros [= -> <-].
    apply DefaultListLookup_delete_Ok_inv in Hdel as (k & bucket & Hget & ->).
    unfold index_records. simpl. intros Hin.
    apply records_set_inv in Hin as [Hin|Hin]; [|done].
    apply list_elem_of_filter in Hin as [_ Hin].
    apply (records_bucket k). by rewrite Hget.
Qed.
End index_facts.

(** ** Broadcasts of the composite *)
Section broadcast_facts.
Context {C : Type}.
Implicit Types (f : M C unit) (indexes : list C).

Lemma broadcast_Ok_inv `{LookupContainer H E C} f indexes indexes' :
  CompositeLookup.broadcast f indexes = (Ok tt, indexes') →
  Forall2 (λ idx idx', f idx = (Ok tt, idx')) indexes indexes'.
Proof.
  revert indexes'. induction indexes as [|idx indexes IH]; intros indexes';
    simpl.
  - intros [= <-]. constructor.
  - destruct (f idx) as [[[]|e] idx'] eqn:Hf; [|done].
    destruct (CompositeLookup.broadcast f indexes) as [r rest] eqn:Hrest.
    intros [= -> <-]. constructor; [done|]. by apply IH.
Qed.
End broadcast_facts.

(** ** The change log only grows *)
Section log_facts.
Implicit Types (h : heap) (log : ChangeLog.t) (c : DjangoModelChange).

Lemma ChangeLog_add_eq h c log :
  ChangeLog.add h c log = ListLookup.add h c log.
Proof.
  unfold ChangeLog.add, bind, util_validate, ret.
  by destruct (ListLookup.add h c log) as [[[]|e] log'].
Qed.

(** a successful [add] keeps every change record and holds the new one *)
Lemma ChangeLog_add_grows h c log log' :
  ChangeLog.add h c log = (Ok tt, log') →
  c ∈ log_changes log'
  ∧ ∀ c', c' ∈ log_changes log → c' ∈ log_changes log'.
Proof.
  rewrite ChangeLog_add_eq. intros Hadd.
  apply ListLookup_add_Ok_inv in Hadd as (k & bucket & _ & Hperm & ->).
  unfold log_changes. simpl. split.
  - apply records_set_new. rewrite Hperm. apply list_elem_of_here.
  - intros c' Hin.
    apply (records_set_keep k bucket) in Hin as [Hin|Hin]; [done|].
    apply records_set_new. rewrite Hperm.
    destruct (decide (c' = c)) as [->|Hne]; [apply list_elem_of_here|].
    apply list_elem_of_further, without_elem. split; [done|].
    simpl. by apply bool_decide_eq_false.
Qed.
End log_facts.

(** ** The change log of a running cache *)
Section cache_log.
Context {C : Type} `{LookupContainer heap oid C}.
Variable is_cacheable : heap → oid → bool.
Implicit Types (s : world * InProcessWriteBackCache.t C) (op : operation).

Import InProcessWriteBackCache.





End cache_log.

(** ** Indexed records and the change log *)
Section cache_indexed.
Variable is_cacheable : heap → oid → bool.
Implicit Types (s : world * InProcessWriteBackCache.t (index heap oid))
  (op : operation).

Import InProcessWriteBackCache.

Lemma logged_grows h c log log' elem :
  ChangeLog.add h c log = (Ok tt, log') →
  logged log elem → logged log' elem.
Proof.
  intros Hadd (c' & Hin & Hobj). exists c'. split; [|done].
  by apply (proj2 (ChangeLog_add_grows _ _ _ _ Hadd)).
Qed.

Lemma logged_new h c log log' :
  ChangeLog.add h c log = (Ok tt, log') → logged log' (obj c).
Proof.
  intros Hadd. exists c. split; [|done].
  apply (proj1 (ChangeLog_add_grows _ _ _ _ Hadd)).
Qed.

(** the change record of a logged record reads the record's identity,
    whatever happens to it *)
Lemma logged_identity log elem :
  logged log elem →
  ∃ c, c ∈ log_changes log ∧ ∀ h, change_pk h c = pk (deref h elem).
Proof.
  intros (c & Hin & <-). exists c. split; [done|]. by intros h.
Qed.

(** a successful [add] or [delete] keeps every indexed record logged *)
Lemma perform_indexed_are_logged op s s' :
  op ≠ Flush →
  indexed_are_logged s →
  perform is_cacheable op s = (Ok tt, s') →
  indexed_are_logged s'.
Proof.
  destruct s as [w [idxs log]]. intros Hop Hs.
  destruct op as [elem|elem|]; [| |done]; simpl.
  - destruct (is_cacheable (objects w) elem) eqn:Hc.
    + rewrite add_cacheable by done. cbv zeta. simpl.
      destruct (CompositeLookup.add _ elem idxs) as [[[]|e] idxs'] eqn:Hadd;
        [|done].
      destruct (ChangeLog.add _ _ log) as [r log'] eqn:Hlog.
      intros [= -> <-]. intros idx' x Hidx' Hx. simpl in *.
      apply broadcast_Ok_inv in Hadd.
      apply list_elem_of_lookup in Hidx' as [i Hi].
      destruct (Forall2_lookup_r _ _ _ _ _ Hadd Hi) as (idx & Hidx & Hstep).
      destruct (index_add_records _ _ _ _ x Hstep Hx) as [->|Hold].
      * apply (logged_new _ _ _ _ Hlog).
      * apply (logged_grows _ _ _ _ _ Hlog), (Hs idx); [|done].
        simpl. apply list_elem_of_lookup. by exists i.
    + rewrite add_not_cacheable by done. cbv zeta.
      destruct (apply_change _ _) as [r w']. by intros [= -> <-].
  - destruct (is_cacheable (objects w) elem) eqn:Hc.
    + rewrite delete_cacheable by done. cbv zeta. simpl.
      destruct (CompositeLookup.delete _ elem idxs) as [[[]|e] idxs'] eqn:Hdel;
        [|done].
      destruct (ChangeLog.add _ _ log) as [r log'] eqn:Hlog.
      intros [= -> <-]. intros idx' x Hidx' Hx. simpl in *.
      apply broadcast_Ok_inv in Hdel.
      apply list_elem_of_lookup in Hidx' as [i Hi].
      destruct (Forall2_lookup_r _ _ _ _ _ Hdel Hi) as (idx & Hidx & Hstep).
      apply (logged_grows _ _ _ _ _ Hlog), (Hs idx).
      * simpl. apply list_elem_of_lookup. by exists i.
      * by apply (index_delete_records _ _ _ _ x Hstep).
    + rewrite delete_not_cacheable by done. cbv zeta.
      destruct (apply_change _ _) as [r w']. by intros [= -> <-].
Qed.

Lemma perform_all_indexed_are_logged (ops : list operation) s s' :
  Flush ∉ ops →
  indexed_are_logged s →
  perform_all is_cacheable ops s = (Ok tt, s') →
  indexed_are_logged s'.
Proof.
  revert s. induction ops as [|op ops IH]; intros s Hops Hs; simpl.
  - by intros [= <-].
  - apply not_elem_of_cons in Hops as [Hop Hops].
    unfold perform_all in *. simpl. unfold bind.
    destruct (perform is_cacheable op s) as [[[]|e] s1] eqn:Hstep; [|done].
    apply (IH s1 Hops).
    by apply (perform_indexed_are_logged op s s1).
Qed.
End cache_indexed.

(** C8 as stated fails after a flush: when [A] is added and the changes are
    flushed, [A] is still in the index while the change log is empty. *)
Lemma flushed_record_is_not_logged :
  let run := perform_all Sample.always_cacheable [Add Sample.A; Flush]
                         (Sample.process, Sample.cache) in
  run.1 = Ok tt
  ∧ (index_records <$> InProcessWriteBackCache.indexes run.2.2) = [[Sample.A]]
  ∧ log_changes (InProcessWriteBackCache.change_log run.2.2) = []
  ∧ ¬ indexed_are_logged run.2.
Proof.
  split_and!; [reflexivity..|].
  intros Hinv.
  destruct (Hinv (DefaultListIndex
                    (DefaultListLookup.add Sample.records Sample.A
                                           Sample.by_category).2) Sample.A)
    as (c & Hc & _).
  - vm_compute. apply list_elem_of_here.
  - vm_compute. apply list_elem_of_here.
  - vm_compute in Hc. by apply elem_of_nil in Hc.
Qed.

(** C8, amended.  In every state that a sequence of successful [add] and
    [delete] calls, without a flush, leads to from a cache whose indexes are
    empty, every record present in any configured index has a change record
    in the change log that is about this record, and so carries its
    identity.  A flush in that state that returns leaves the change log empty
    and the indexes as they were; a flush that raises leaves the change log
    and the indexes as they were; and the flush returns when the store takes
    every change it applies. *)
Theorem indexed_are_logged_until_flush (is_cacheable : heap → oid → bool)
    (ops : list operation) (w : world) (idxs : list (index heap oid))
    (s : world * InProcessWriteBackCache.t (index heap oid)) :
  Forall (λ idx, index_records idx = []) idxs →
  Flush ∉ ops →
  perform_all is_cacheable ops (w, InProcessWriteBackCache.__init__ idxs)
    = (Ok tt, s) →
  indexed_are_logged s
  ∧ (∀ s',
       InProcessWriteBackCache.flush_changes_to_database s = (Ok tt, s') →
       log_changes (InProcessWriteBackCache.change_log s'.2) = []
       ∧ ListLookup.__len__ (InProcessWriteBackCache.change_log s'.2) = 0
       ∧ InProcessWriteBackCache.indexes s'.2
           = InProcessWriteBackCache.indexes s.2)
  ∧ (∀ e s',
       InProcessWriteBackCache.flush_changes_to_database s = (Raise e, s') →
       s'.2 = s.2)
  ∧ (Forall (λ c, accepted (objects s.1) c = true)
            (ChangeLog.latest_changes_for_each_pk_value
               (InProcessWriteBackCache.change_log s.2)) →
     (InProcessWriteBackCache.flush_changes_to_database s).1 = Ok tt).
Proof.
  intros Hempty Hops Hrun. split.
  - apply (perform_all_indexed_are_logged is_cacheable ops
             (w, InProcessWriteBackCache.__init__ idxs) s Hops); [|done].
    intros idx elem Hidx Helem. simpl in Hidx.
    apply (proj1 (Forall_forall _ _) Hempty) in Hidx.
    rewrite Hidx in Helem. by apply elem_of_nil in Helem.
  - destruct s as [w' self]. rewrite flush_unfold. simpl.
    pose proof (for_each_apply_change_Ok
      (ChangeLog.latest_changes_for_each_pk_value
         (InProcessWriteBackCache.change_log self)) w') as Hok.
    unfold ChangeLog.apply_all in *.
    destruct (for_each apply_change _ w') as [[[]|e] w'']; simpl in *.
    + split_and!; [by intros s' [= <-]|done|done].
    + split_and!; [done|by intros e' s' [= _ <-]|done].
Qed.


(** ** What a [DeleteOp] does to the backing store *)

(** a [DeleteOp] whose record has a [pk] other than [None] calls the
    store's save, which raises when the [pk] is a placeholder *)
Lemma apply_change_DeleteOp_saves (c : DjangoModelChange) (w : world) :
  kind c = DeleteOp →
  pk (deref (objects w) (obj c)) ≠ VNone →
  store_calls (apply_change c w).2 = store_calls w ++ [StoreSave (obj c) []]
  ∧ (apply_change c w).1
    = if isinstance_UniqueTransientValue (pk (deref (objects w) (obj c)))
      then Raise TypeError else Ok tt.
Proof.
  intros Hkind Hpk. unfold apply_change, bind, get. simpl. rewrite Hkind.
  destruct (pk (deref (objects w) (obj c))) eqn:Hp; [done|..];
    unfold model_save; simpl; by rewrite Hp.
Qed.


(** C1, at the failing input.  The record [A] has the real identity 1.
    Its delete, applied directly because [A] is not cacheable, sends a save
    to the backing store and no delete; so does the flush of a cache in
    which [A] was added and then deleted, where the one change applied is the
    [DeleteOp]. *)
Theorem DeleteOp_reaches_store_as_save :
  pk (deref Sample.records Sample.A) = VInt 1
  ∧ store_calls
      (InProcessWriteBackCache.delete Sample.never_cacheable Sample.A
         (Sample.process, Sample.cache)).2.1
    = [StoreSave Sample.A []]
  ∧ let s := (perform_all Sample.always_cacheable
                [Add Sample.A; Delete Sample.A]
                (Sample.process, Sample.cache)).2 in
    ChangeLog.latest_changes_for_each_pk_value
      (InProcessWriteBackCache.change_log s.2)
      = [{| kind := DeleteOp; obj := Sample.A; change_counter := 2 |}]
    ∧ store_calls
        (InProcessWriteBackCache.flush_changes_to_database s).2.1
      = [StoreSave Sample.A []].
Proof. cbv zeta. split_and!; reflexivity. Qed.

(** C2, at the failing input.  The record [C] is created without identity.
    The cache's [add] gives it a placeholder; after the cache's [delete] the
    one change the flush applies is the [DeleteOp], which finds a [pk] that
    is not [None] and sends a save of [C] to the backing store. *)
Theorem created_then_deleted_reaches_store :
  pk (deref Sample.records Sample.C) = VNone
  ∧ let s := (perform_all Sample.always_cacheable
                [Add Sample.C; Delete Sample.C]
                (Sample.process, Sample.cache)).2 in
    pk (deref (objects s.1) Sample.C) = VTransient 0
    ∧ ChangeLog.latest_changes_for_each_pk_value
        (InProcessWriteBackCache.change_log s.2)
        = [{| kind := DeleteOp; obj := Sample.C; change_counter := 2 |}]
    ∧ store_calls
        (InProcessWriteBackCache.flush_changes_to_database s).2.1
      = [StoreSave Sample.C []].
Proof. cbv zeta. split_and!; reflexivity. Qed.

(** C4, at the failing input.  Given the same record twice, [bulk_add] on
    the empty index keeps both in the bucket, while [add] per record keeps
    one; a lookup tells the two indexes apart. *)
Theorem bulk_add_keeps_duplicates :
  let items := [Sample.A; Sample.A] in
  let fast := (DefaultListLookup.bulk_add Sample.records items
                 Sample.by_category).2 in
  let incremental := (for_each (DefaultListLookup.add Sample.records) items
                        Sample.by_category).2 in
  DefaultListLookup._index fast = [([VStr "x"], [Sample.A; Sample.A])]
  ∧ DefaultListLookup._index incremental = [([VStr "x"], [Sample.A])]
  ∧ (DefaultListLookup.lookup [("category", VStr "x")] fast).1
      = Ok (VALUE_FOUND, Some [Sample.A; Sample.A])
  ∧ (DefaultListLookup.lookup [("category", VStr "x")] incremental).1
      = Ok (VALUE_FOUND, Some [Sample.A]).
Proof. cbv zeta. split_and!; reflexivity. Qed.

(** ** The two paths of [DefaultListLookup.bulk_add] *)
Section bulk_add_facts.
Context {H E : Type} `{PyObject H E}.
Import DefaultListLookup.
Implicit Types (h : H) (self : DefaultListLookup.t H E) (sk : option (E → Z))
  (d : list (key * list E)) (k : key) (b : list E).

Lemma sort_values_sorted_to sk d d' :
  sort_values sk d = (Ok tt, d') ↔ sorted_to sk d d'.
Proof.
  unfold sorted_to. revert d'. induction d as [|[k b] d IH]; intros d'; simpl.
  - split; [intros [= <-]; constructor|]. by intros ->%Forall2_nil_inv_l.
  - destruct (list_sort sk b) as [b'|e] eqn:Hb.
    + destruct (sort_values sk d) as [r d''] eqn:Hd. split.
      * intros [= -> <-]. constructor; [done|]. by apply IH.
      * intros ([k' b''] & rest & [Hk Hs] & Hrest & ->)%Forall2_cons_inv_l.
        simpl in *. subst k'. rewrite Hb in Hs. injection Hs as <-.
        apply IH in Hrest. by injection Hrest as -> ->.
    + split; [done|].
      intros ([k' b''] & rest & [Hk Hs] & Hrest & ->)%Forall2_cons_inv_l.
      simpl in *. congruence.
Qed.

Lemma sorted_to_det sk d d1 d2 :
  sorted_to sk d d1 → sorted_to sk d d2 → d1 = d2.
Proof.
  intros H1%sort_values_sorted_to H2%sort_values_sorted_to. congruence.
Qed.

Lemma sorted_to_get sk d d' k :
  sorted_to sk d d' →
  match dict_get k d with
  | None => dict_get k d' = None
  | Some b => ∃ b', dict_get k d' = Some b' ∧ list_sort sk b = Ok b'
  end.
Proof.
  induction 1 as [|[k0 b0] [k0' b0'] d d' [Hk Hs] _ IH]; simpl in *; [done|].
  subst k0'. destruct (decide (k0 = k)); [by exists b0'|done].
Qed.

Lemma sorted_to_set sk d d' k b b' :
  sorted_to sk d d' → list_sort sk b = Ok b' →
  sorted_to sk (dict_set k b d) (dict_set k b' d').
Proof.
  intros Hd Hb.
  induction Hd as [|[k0 b0] [k0' b0'] d d' [Hk Hs] Hd IH]; simpl in *.
  - by repeat constructor.
  - subst k0'. destruct (decide (k0 = k)); by constructor.
Qed.

Lemma sorted_to_sort_ok sk d d' : sorted_to sk d d' → sort_ok sk d.
Proof.
  induction 1 as [|[k0 b0] [k0' b0'] d d' [Hk Hs] _ IH]; constructor; [|done].
  simpl in *. by rewrite Hs.
Qed.

Lemma sort_ok_sorted_to sk d : sort_ok sk d → ∃ d', sorted_to sk d d'.
Proof.
  unfold sort_ok. induction d as [|[k b] d IH]; simpl; intros Hok.
  - exists []. constructor.
  - apply Forall_cons in Hok as [Hb Hok]. destruct (IH Hok) as [d' Hd'].
    destruct (list_sort sk b) as [b'|] eqn:Hs; [|done].
    exists ((k, b') :: d'). by constructor.
Qed.

Lemma list_sort_prefix_ok sk b x :
  is_Ok (list_sort sk (b ++ [x])) = true → is_Ok (list_sort sk b) = true.
Proof.
  unfold list_sort. destruct sk; [done|].
  rewrite length_app. simpl.
  destruct (decide (length b ≤ 1)); [done|].
  destruct (decide (length b + 1 ≤ 1)); [lia|done].
Qed.

Lemma sort_ok_set_back sk d k x :
  sort_ok sk (dict_set k (default [] (dict_get k d) ++ [x]) d) → sort_ok sk d.
Proof.
  unfold sort_ok. rewrite !Forall_forall. intros Hok b Hb.
  apply list_elem_of_fmap in Hb as ([k' b'] & -> & Hin). simpl.
  destruct (dict_elem_set_keep k (default [] (dict_get k d) ++ [x]) _ _ _ Hin)
    as [Hkeep|[-> Hget]].
  - apply Hok. by apply (list_elem_of_fmap_2 snd _ (k', b')).
  - apply (list_sort_prefix_ok sk b' x). apply Hok.
    apply (list_elem_of_fmap_2 snd _ (k, b' ++ [x])).
    rewrite Hget. simpl. apply dict_elem_set_new.
Qed.

Lemma list_sort_snoc sk b b' x :
  list_sort sk b = Ok b' → list_sort sk (b' ++ [x]) = list_sort sk (b ++ [x]).
Proof.
  unfold list_sort. destruct sk as [f|].
  - intros [= <-]. f_equal. rewrite !stable_sort_snoc.
    by rewrite (stable_sort_id f (stable_sort f b)) by apply stable_sort_sorted.
  - case_decide; [|done]. by intros [= <-].
Qed.

Lemma list_remove_fresh (eq_x : E → bool) b :
  (∀ y, y ∈ b → eq_x y = false) → list_remove eq_x b = Raise ValueError.
Proof.
  induction b as [|y b IH]; simpl; intros Hb; [done|].
  rewrite (Hb y) by apply list_elem_of_here.
  rewrite IH; [done|]. intros z Hz. by apply Hb, list_elem_of_further.
Qed.

Lemma replaced_fresh h x b :
  (∀ y, y ∈ b → py_eq h y x = false) → replaced h x b = b ++ [x].
Proof. intros Hb. unfold replaced. by rewrite list_remove_fresh. Qed.

Lemma append_unfold h item self :
  append h item self =
    match key_of h (key_attributes self) item with
    | Ok k =>
        (Ok tt,
         with_index self
           (dict_set k (default [] (dict_get k (_index self)) ++ [item])
                     (_index self)))
    | Raise e => (Raise e, self)
    end.
Proof.
  unfold append, bind, _key, getitem, setitem.
  destruct (key_of h (key_attributes self) item) as [k|e]; [|done].
  pose proof (defaultdict_get_set ([] : list E) k
    (default [] (dict_get k (_index self)) ++ [item]) (_index self)) as Hset.
  unfold defaultdict_get in *.
  destruct (dict_get k (_index self)) as [b|] eqn:Hget; simpl in *; [done|].
  by rewrite Hset.
Qed.

Lemma for_each_snoc {S A} (f : A → M S unit) (l : list A) (x : A) (s : S) :
  for_each f (l ++ [x]) s =
    match for_each f l s with
    | (Ok _, s') => f x s'
    | (Raise e, s') => (Raise e, s')
    end.
Proof.
  revert s. induction l as [|y l IH]; intros s; simpl; unfold bind.
  - by destruct (f x s) as [[[]|e] s'].
  - destruct (f y s) as [[[]|e] s']; [|done]. apply IH.
Qed.

Lemma pairwise_distinct_snoc h (items : list E) x :
  pairwise_distinct h (items ++ [x]) →
  pairwise_distinct h items ∧ ∀ y, y ∈ items → py_eq h y x = false.
Proof.
  intros Hpd. split.
  - intros i j y z Hij Hi Hj. apply (Hpd i j); [done|..];
      by apply lookup_app_l_Some.
  - intros y Hy. apply list_elem_of_lookup in Hy as [i Hi].
    apply (Hpd i (length items)).
    + by apply lookup_lt_Some in Hi.
    + by apply lookup_app_l_Some.
    + by rewrite list_lookup_middle.
Qed.

Lemma append_config h item self :
  (append h item self).2 = with_index self (_index (append h item self).2).
Proof.
  rewrite append_unfold.
  destruct (key_of h (key_attributes self) item); simpl; [done|].
  by rewrite with_index_id.
Qed.

Lemma add_config h item self :
  (add h item self).2 = with_index self (_index (add h item self).2).
Proof.
  destruct (key_of h (key_attributes self) item) as [k|e] eqn:Hkey.
  - rewrite (add_unfold _ _ _ _ Hkey). cbv zeta.
    by destruct (list_sort _ _).
  - rewrite (add_raises _ _ _ _ Hkey). simpl. by rewrite with_index_id.
Qed.

(** a loop of calls that change [self._index] only leaves the rest of the
    object alone *)
Lemma for_each_config (f : E → M (DefaultListLookup.t H E) unit)
    (items : list E) self :
  (∀ item s, (f item s).2 = with_index s (_index (f item s).2)) →
  (for_each f items self).2
    = with_index self (_index (for_each f items self).2).
Proof.
  intros Hf. revert self. induction items as [|x items IH]; intros self; simpl.
  - by rewrite with_index_id.
  - unfold bind. specialize (Hf x self).
    destruct (f x self) as [[[]|e] s1]; simpl in *; [|done].
    rewrite (IH s1). rewrite Hf at 1. done.
Qed.

(** the first loop of the fast path puts nothing into the buckets but the
    items *)
Lemma appended_records h (items : list E) self y :
  (for_each (append h) items self).1 = Ok tt →
  y ∈ concat (dict_values (_index (for_each (append h) items self).2)) →
  y ∈ items ∨ y ∈ concat (dict_values (_index self)).
Proof.
  induction items as [|x items IH] using rev_ind.
  - simpl. by right.
  - rewrite for_each_snoc.
    destruct (for_each (append h) items self) as [[[]|e] s1]; [|done].
    rewrite append_unfold. simpl in IH.
    destruct (key_of h (key_attributes s1) x) as [k|e]; [|done].
    simpl. intros _ Hy.
    apply records_set_inv in Hy as [Hy|Hy].
    + apply elem_of_app in Hy as [Hy|Hy].
      * apply (records_bucket k) in Hy.
        destruct (IH eq_refl Hy) as [?|?]; [left|by right].
        apply elem_of_app. by left.
      * left. apply elem_of_app. by right.
    + destruct (IH eq_refl Hy) as [?|?]; [left|by right].
      apply elem_of_app. by left.
Qed.

(** the two loops run side by side: the incremental loop returns exactly
    when the fast loop returns and its buckets can be sorted, and then it
    holds the buckets of the fast loop, sorted *)
Lemma loops_agree h self (items : list E) :
  _index self = [] →
  pairwise_distinct h items →
  let sk := option_map (λ f, f h) (_sort_key self) in
  let fast := for_each (append h) items self in
  let incremental := for_each (add h) items self in
  ((fast.1 = Ok tt ∧ sort_ok sk (_index fast.2)) ↔ incremental.1 = Ok tt)
  ∧ (incremental.1 = Ok tt →
     sorted_to sk (_index fast.2) (_index incremental.2)).
Proof.
  intros Hempty. induction items as [|x items IH] using rev_ind; intros Hpd sk.
  - simpl. rewrite Hempty. split.
    + split; [done|]. intros _. split; [done|]. constructor.
    + intros _. constructor.
  - apply pairwise_distinct_snoc in Hpd as [Hpd Hx].
    specialize (IH Hpd). cbv zeta in IH. fold sk in IH.
    pose proof (for_each_config (append h) items self (append_config h)) as Hs1.
    pose proof (for_each_config (add h) items self (add_config h)) as Hs2.
    pose proof (appended_records h items self) as Hrec.
    rewrite !for_each_snoc.
    destruct (for_each (append h) items self) as [r1 s1] eqn:Hfast.
    destruct (for_each (add h) items self) as [r2 s2] eqn:Hinc.
    simpl in *. destruct IH as [Hiff Hsorted].
    assert (key_attributes s1 = key_attributes self) as Hka1 by by rewrite Hs1.
    assert (key_attributes s2 = key_attributes self) as Hka2 by by rewrite Hs2.
    assert (option_map (λ f, f h) (_sort_key s2) = sk) as Hsk2
      by (by rewrite Hs2).
    destruct r2 as [[]|e2].
    + destruct (proj2 Hiff eq_refl) as [-> Hok]. specialize (Hsorted eq_refl).
      rewrite append_unfold, Hka1.
      destruct (key_of h (key_attributes self) x) as [k|e] eqn:Hkey.
      2: { rewrite (add_raises s2 h x e) by by rewrite Hka2. simpl.
           split; [|done]. split; [by intros [? _]|done]. }
      rewrite (add_unfold _ _ _ k) by by rewrite Hka2.
      cbv zeta. rewrite Hsk2.
      set (b1 := default [] (dict_get k (_index s1))).
      set (b2 := default [] (dict_get k (_index s2))).
      assert (list_sort sk b1 = Ok b2) as Hb.
      { pose proof (sorted_to_get sk _ _ k Hsorted) as Hget. subst b1 b2.
        destruct (dict_get k (_index s1)) as [b|].
        - by destruct Hget as (b' & -> & ?).
        - rewrite Hget. simpl. by destruct sk. }
      assert (replaced h x b2 = b2 ++ [x]) as ->.
      { apply replaced_fresh. intros y Hy. apply Hx.
        apply list_sort_perm in Hb. rewrite Hb in Hy.
        apply (records_bucket k) in Hy.
        destruct (Hrec y eq_refl Hy) as [?|Hy']; [done|].
        rewrite Hempty in Hy'. by apply elem_of_nil in Hy'. }
      rewrite (list_sort_snoc sk b1 b2 x Hb).
      destruct (list_sort sk (b1 ++ [x])) as [v|e] eqn:Hv; simpl.
      * assert (sorted_to sk (dict_set k (b1 ++ [x]) (_index s1))
                          (dict_set k v (_index s2))) as Hnew
          by by apply sorted_to_set.
        split; [|done]. split; [done|]. intros _. split; [done|].
        by apply sorted_to_sort_ok in Hnew.
      * split; [|done]. split; [|done]. intros [_ Hbad].
        unfold sort_ok in Hbad. rewrite Forall_forall in Hbad.
        assert (is_Ok (list_sort sk (b1 ++ [x])) = true) as Hgood.
        { apply Hbad. apply (list_elem_of_fmap_2 snd _ (k, b1 ++ [x])).
          apply dict_elem_set_new. }
        by rewrite Hv in Hgood.
    + simpl. split; [|done]. split; [|done]. intros [Hr1 Hok].
      destruct r1 as [[]|e1]; [|done].
      rewrite append_unfold, Hka1 in Hr1, Hok.
      destruct (key_of h (key_attributes self) x) as [k|e] eqn:Hkey; [|done].
      simpl in Hok. apply sort_ok_set_back in Hok.
      by destruct (proj1 Hiff (conj eq_refl Hok)).
Qed.

(** X26.  On an empty index and a collection in which no item is equal to
    a later one, the fast path of [bulk_add] and [add] per item return
    together, and then leave the same index. *)
Theorem bulk_add_paths_agree h self (items : list E) :
  _index self = [] →
  pairwise_distinct h items →
  (bulk_add h items self).1 = Ok tt ∨ (for_each (add h) items self).1 = Ok tt →
  bulk_add h items self = for_each (add h) items self.
Proof.
  intros Hempty Hpd Hok.
  destruct (loops_agree h self items Hempty Hpd) as [Hiff Hsorted].
  pose proof (for_each_config (append h) items self (append_config h)) as Hs1.
  pose proof (for_each_config (add h) items self (add_config h)) as Hs2.
  unfold bulk_add, bind, get, sort_all in *. rewrite Hempty in *. simpl in *.
  destruct (for_each (append h) items self) as [r1 s1] eqn:Hfast.
  destruct (for_each (add h) items self) as [r2 s2] eqn:Hinc.
  simpl in *.
  assert (option_map (λ f, f h) (_sort_key s1)
          = option_map (λ f, f h) (_sort_key self)) as Hsk1 by by rewrite Hs1.
  assert (r2 = Ok tt) as ->.
  { destruct Hok as [Hok|Hok]; [|done]. apply Hiff.
    destruct r1 as [[]|e1]; [|done]. split; [done|]. rewrite Hsk1 in Hok.
    destruct (sort_values _ (_index s1)) as [r d] eqn:Hd. simpl in Hok.
    subst r. by apply sort_values_sorted_to, sorted_to_sort_ok in Hd. }
  destruct (proj2 Hiff eq_refl) as [-> _]. specialize (Hsorted eq_refl).
  rewrite Hsk1. apply sort_values_sorted_to in Hsorted. rewrite Hsorted.
  f_equal. rewrite Hs2, Hs1. done.
Qed.
End bulk_add_facts.

(** ** The theorems at sample inputs *)

(** a lookup of category ["z"] on the empty index by category *)
Lemma DefaultListLookup_lookup_inserts_bucket_witness :
  ∃ code self',
    DefaultListLookup.lookup [("category", VStr "z")] Sample.by_category
      = (Ok (code, None), self')
    ∧ code ∈ [VALUE_UNKNOWN; VALUE_DOES_NOT_EXIST]
    ∧ DefaultListLookup._index self'
        = DefaultListLookup._index Sample.by_category ++ [([VStr "z"], [])]
    ∧ DefaultListLookup.__len__ self'
        = S (DefaultListLookup.__len__ Sample.by_category)
    ∧ ∀ (h : heap) (elem : oid),
        key_of h (DefaultListLookup.key_attributes Sample.by_category) elem
          = Ok [VStr "z"] →
        (DefaultListLookup.delete h elem Sample.by_category).1
          = Raise (UtilFailure "ERROR 934923432")
        ∧ (DefaultListLookup.delete h elem self').1 = Ok tt.
Proof.
  apply (DefaultListLookup_lookup_inserts_bucket
           Sample.by_category [("category", VStr "z")] [VStr "z"]).
  - split; [apply NoDup_singleton | reflexivity].
  - reflexivity.
  - reflexivity.
Defined.

(** [A] added to the sorted-set index by category, then looked up by its
    category *)
Lemma add_then_lookup_found_witness :
  ∃ payload idx'',
    lc_lookup [("category", VStr "x")]
      (lc_add Sample.records Sample.A
              (ListIndex Sample.sorted_by_category)).2
      = (Ok (VALUE_FOUND, Some payload), idx'')
    ∧ Sample.A ∈ payload.
Proof.
  apply (add_then_lookup_found Sample.records
           (ListIndex Sample.sorted_by_category) _ Sample.A
           [("category", VStr "x")]).
  - reflexivity.
  - split; [apply NoDup_singleton | reflexivity].
  - intros name v Hin. apply list_elem_of_singleton in Hin as [= -> ->].
    reflexivity.
Defined.

(** [B] deleted from the sorted-set index that holds [A], of the same
    category *)
Lemma delete_never_added_fails_witness :
  let idx := (lc_add Sample.records Sample.A
                     (ListIndex Sample.sorted_by_category)).2 in
  index_buckets idx = [([VStr "x"], [Sample.A])]
  ∧ ∃ e, lc_delete Sample.records Sample.B idx = (Raise e, idx)
         ∧ (dict_get [VStr "x"] (index_buckets idx) = None →
            e = UtilFailure "ERROR 934923432").
Proof.
  cbv zeta. split; [reflexivity|].
  apply (delete_never_added_fails Sample.records _ Sample.B [VStr "x"]).
  - reflexivity.
  - intros bucket [= <-]. split; [by eexists|].
    intros x Hx. apply list_elem_of_singleton in Hx as ->. reflexivity.
Defined.

(** [clear()] on the cache in which [A] was added and not flushed *)
Lemma clear_unforced_keeps_change_log_witness :
  let s := (perform_all Sample.always_cacheable [Add Sample.A]
                        (Sample.process, Sample.cache)).2 in
  ∃ e s',
    InProcessWriteBackCache.clear false s = (Raise e, s')
    ∧ InProcessWriteBackCache.change_log s'.2
        = InProcessWriteBackCache.change_log s.2
    ∧ ((CompositeLookup.clear (InProcessWriteBackCache.indexes s.2)).1 = Ok tt →
       e = UtilFailure "validate_equals").
Proof.
  cbv zeta. apply clear_unforced_keeps_change_log. vm_compute. lia.
Defined.


(** [A] and [C] added, [A] deleted *)
Lemma indexed_are_logged_until_flush_witness :
  let s := (perform_all Sample.always_cacheable
              [Add Sample.A; Add Sample.C; Delete Sample.A]
              (Sample.process, Sample.cache)).2 in
  let s' := (InProcessWriteBackCache.flush_changes_to_database s).2 in
  indexed_are_logged s
  ∧ (InProcessWriteBackCache.flush_changes_to_database s).1 = Ok tt
  ∧ log_changes (InProcessWriteBackCache.change_log s'.2) = []
  ∧ ListLookup.__len__ (InProcessWriteBackCache.change_log s'.2) = 0
  ∧ InProcessWriteBackCache.indexes s'.2
      = InProcessWriteBackCache.indexes s.2.
Proof.
  cbv zeta.
  destruct (indexed_are_logged_until_flush Sample.always_cacheable
              [Add Sample.A; Add Sample.C; Delete Sample.A]
              Sample.process [DefaultListIndex Sample.by_category]
              (perform_all Sample.always_cacheable
                 [Add Sample.A; Add Sample.C; Delete Sample.A]
                 (Sample.process, Sample.cache)).2)
    as (Hlogged & Hflushed & _ & Hreturns).
  - repeat constructor.
  - apply (bool_decide_unpack _). vm_compute. exact I.
  - vm_compute. reflexivity.
  - split; [exact Hlogged|]. split.
    + apply Hreturns. vm_compute. repeat constructor.
    + apply Hflushed. vm_compute. reflexivity.
Defined.

(** * Further properties *)

(** * Further properties of the indexes *)
Section index_more.
Context {H E : Type} `{PyObject H E}.
Implicit Types (h : H) (elem : E) (idx : index H E) (parameters : kwargs)
  (k : key) (d : list (key * list E)).

Lemma key_of_parameters_missing parameters (key_attributes : list string) name :
  name ∈ key_attributes →
  dict_get name parameters = None →
  key_of_parameters parameters key_attributes = Raise KeyError.
Proof.
  unfold key_of_parameters.
  induction key_attributes as [|a key_attributes IH]; intros Hin Hnone.
  - by apply elem_of_nil in Hin.
  - simpl. destruct (dict_get a parameters) as [v|] eqn:Ha; [|done].
    apply elem_of_cons in Hin as [->|Hin]; [congruence|].
    by rewrite IH.
Qed.

Lemma key_of_parameters_raises parameters (key_attributes : list string) e :
  key_of_parameters parameters key_attributes = Raise e → e = KeyError.
Proof.
  unfold key_of_parameters.
  induction key_attributes as [|a key_attributes IH]; simpl; [done|].
  destruct (dict_get a parameters); [|by intros [= <-]].
  destruct (collect _ key_attributes); [done|].
  intros [= <-]. by apply IH.
Qed.

(** the state a lookup leaves: the index itself, or the index with an empty
    bucket inserted for the key asked for *)
Lemma DefaultListLookup_lookup_state (self : DefaultListLookup.t H E) parameters :
  ∃ r, DefaultListLookup.lookup parameters self
       = (Ok r,
          match key_of_parameters parameters
                  (DefaultListLookup.key_attributes self) with
          | Ok k =>
              if (length parameters
                  =? length (DefaultListLookup.key_attributes self))%nat
              then DefaultListLookup.with_index self
                     (defaultdict_get [] k (DefaultListLookup._index self)).2
              else self
          | Raise _ => self
          end).
Proof.
  destruct (decide (length parameters
                    = length (DefaultListLookup.key_attributes self)))
    as [Hlen|Hlen].
  - destruct (key_of_parameters parameters _) as [k|e] eqn:Hkey.
    + rewrite (lookup_supported self parameters k Hlen Hkey).
      rewrite Hlen, Nat.eqb_refl.
      destruct (defaultdict_get [] k _) as [b d']. by eexists.
    + unfold DefaultListLookup.lookup, bind, get, ret. simpl.
      rewrite Hlen, Nat.eqb_refl. simpl. rewrite Hkey. by eexists.
  - unfold DefaultListLookup.lookup, bind, get, ret. simpl.
    apply Nat.eqb_neq in Hlen. rewrite Hlen. simpl.
    destruct (key_of_parameters parameters _); by eexists.
Qed.

Lemma ListLookup_lookup_state (self : ListLookup.t H E) parameters :
  ∃ r, ListLookup.lookup parameters self = (Ok r, self).
Proof.
  unfold ListLookup.lookup, bind, get, ret. simpl.
  destruct (negb _); [by eexists|].
  destruct (key_of_parameters parameters _); [|by eexists].
  destruct (dict_get _ _) as [[|??]|];
    destruct (ListLookup.can_answer_authoritatively self parameters);
    by eexists.
Qed.

Lemma defaultdict_get_keeps {V} (factory : V) k k' (d : list (key * V)) v :
  dict_get k' d = Some v → dict_get k' (defaultdict_get factory k d).2 = Some v.
Proof.
  unfold defaultdict_get. destruct (dict_get k d) eqn:Hk; simpl; [done|].
  intros Hk'. rewrite dict_get_set_ne; [done|]. intros ->. congruence.
Qed.

Lemma defaultdict_get_records k d :
  concat (dict_values (defaultdict_get ([] : list E) k d).2)
    = concat (dict_values d).
Proof.
  unfold defaultdict_get. destruct (dict_get k d) eqn:Hk; simpl; [done|].
  rewrite dict_set_None_app by done. unfold dict_values.
  rewrite map_app, concat_app. simpl. by rewrite app_nil_r.
Qed.
End index_more.

Lemma index_lookup_unsupported `{PyObject H E} (idx : index H E)
    (parameters : kwargs) :
  length parameters ≠ length (index_key_attributes idx)
  ∨ (∃ name, name ∈ index_key_attributes idx
             ∧ dict_get name parameters = None) →
  lc_lookup parameters idx = (Ok (LOOKUP_NOT_SUPPORTED, None), idx).
Proof.
  intros Hbad. destruct idx as [l|d]; simpl in *; unfold dispatch.
  - unfold ListLookup.lookup, bind, get, ret, as_ListIndex. simpl.
    destruct (decide (length parameters = length (ListLookup.key_attributes l)))
      as [Hlen|Hlen].
    + destruct Hbad as [?|(name & Hin & Hnone)]; [done|].
      rewrite Hlen, Nat.eqb_refl. simpl.
      by rewrite (key_of_parameters_missing _ _ name).
    + apply Nat.eqb_neq in Hlen. by rewrite Hlen.
  - unfold DefaultListLookup.lookup, bind, get, ret, as_DefaultListIndex. simpl.
    destruct (decide (length parameters
                      = length (DefaultListLookup.key_attributes d)))
      as [Hlen|Hlen].
    + destruct Hbad as [?|(name & Hin & Hnone)]; [done|].
      rewrite Hlen, Nat.eqb_refl. simpl.
      by rewrite (key_of_parameters_missing _ _ name).
    + apply Nat.eqb_neq in Hlen. by rewrite Hlen.
Qed.

(** X1.  A lookup whose keyword arguments are not as many as the key
    attributes, or lack one of them, answers [LOOKUP_NOT_SUPPORTED] without
    payload and leaves the index as it was, on both kinds of index. *)
Theorem lookup_not_supported `{PyObject H E} (idx : index H E)
    (parameters : kwargs) :
  length parameters ≠ length (index_key_attributes idx)
  ∨ (∃ name, name ∈ index_key_attributes idx
             ∧ dict_get name parameters = None) →
  lc_lookup parameters idx = (Ok (LOOKUP_NOT_SUPPORTED, None), idx).
Proof. apply index_lookup_unsupported. Qed.

(** X2.  A lookup never raises and never changes what is indexed: the
    records stay, every bucket there is stays as it is, and the sorted-set
    index stays the same altogether. *)
Theorem lookup_keeps_buckets `{PyObject H E} (idx : index H E)
    (parameters : kwargs) :
  ∃ r idx',
    lc_lookup parameters idx = (Ok r, idx')
    ∧ index_records idx' = index_records idx
    ∧ (∀ k bucket, dict_get k (index_buckets idx) = Some bucket →
                   dict_get k (index_buckets idx') = Some bucket)
    ∧ (∀ l, idx = ListIndex l → idx' = idx).
Proof.
  destruct idx as [l|d]; simpl; unfold dispatch.
  - destruct (ListLookup_lookup_state l parameters) as [r Hr].
    exists r, (ListIndex l). unfold as_ListIndex. rewrite Hr. done.
  - destruct (DefaultListLookup_lookup_state d parameters) as [r Hr].
    eexists r, _. unfold as_DefaultListIndex. rewrite Hr. simpl.
    split; [done|]. unfold index_records.
    destruct (key_of_parameters parameters _) as [k|e]; simpl; [|done].
    destruct (_ =? _)%nat; simpl; [|done].
    split_and!; [apply defaultdict_get_records| |done].
    intros k' bucket. apply defaultdict_get_keeps.
Qed.

(** ** Sorted buckets *)
Section sorted_more.
Context {H E : Type} `{PyObject H E}.
Implicit Types (h : H) (elem : E) (self : DefaultListLookup.t H E)
  (k : key) (d : list (key * list E)).

Lemma Sorted_le_filter (f : E → Z) (P : E → Prop) `{∀ x, Decision (P x)}
    (b : list E) :
  Sorted Z.le (f <$> b) → Sorted Z.le (f <$> filter P b).
Proof.
  intros Hs. apply (Sorted_StronglySorted _) in Hs.
  apply StronglySorted_Sorted.
  induction b as [|x b IH]; simpl in *; [constructor|].
  apply StronglySorted_inv in Hs as [Hs Hall].
  destruct (decide (P x)).
  - rewrite filter_cons_True by done. simpl. constructor; [by apply IH|].
    rewrite Forall_forall in Hall |- *. intros y Hy. apply Hall.
    apply list_elem_of_fmap in Hy as (z & -> & Hz).
    apply list_elem_of_fmap_2. by apply list_elem_of_filter in Hz as [_ ?].
  - rewrite filter_cons_False by done. by apply IH.
Qed.

Lemma buckets_sorted_set h sk k (b : list E) d :
  (∀ f, sk = Some f → Sorted Z.le (f h <$> b)) →
  buckets_sorted h sk d → buckets_sorted h sk (dict_set k b d).
Proof.
  intros Hb Hd f Hf. apply dict_values_set_Forall; [by apply Hb|by apply Hd].
Qed.

Lemma buckets_sorted_defaultdict h sk k d :
  buckets_sorted h sk d →
  buckets_sorted h sk (defaultdict_get ([] : list E) k d).2.
Proof.
  intros Hd. unfold defaultdict_get.
  destruct (dict_get k d); simpl; [done|].
  apply buckets_sorted_set; [|done]. intros. constructor.
Qed.

Lemma buckets_sorted_get h sk k d b f :
  buckets_sorted h sk d → sk = Some f → dict_get k d = Some b →
  Sorted Z.le (f h <$> b).
Proof.
  intros Hd Hf Hget. specialize (Hd f Hf). rewrite Forall_forall in Hd.
  apply Hd. apply (list_elem_of_fmap_2 snd _ (k, b)).
  by apply dict_get_Some_elem.
Qed.

Lemma add_keeps_sorted h elem self :
  buckets_sorted h (DefaultListLookup._sort_key self)
                 (DefaultListLookup._index self) →
  buckets_sorted h (DefaultListLookup._sort_key self)
                 (DefaultListLookup._index (DefaultListLookup.add h elem self).2).
Proof.
  intros Hs.
  destruct (key_of h (DefaultListLookup.key_attributes self) elem)
    as [k|e] eqn:Hkey.
  - rewrite (add_unfold _ _ _ _ Hkey). cbv zeta.
    destruct (DefaultListLookup._sort_key self) as [f|] eqn:Hsk.
    + simpl. apply buckets_sorted_set; [|done].
      intros f' [= <-]. apply stable_sort_sorted.
    + by intros f' ?.
  - by rewrite (add_raises _ _ _ _ Hkey).
Qed.

Lemma for_each_add_keeps_sorted h (items : list E) self :
  buckets_sorted h (DefaultListLookup._sort_key self)
                 (DefaultListLookup._index self) →
  buckets_sorted h (DefaultListLookup._sort_key self)
    (DefaultListLookup._index
       (for_each (DefaultListLookup.add h) items self).2).
Proof.
  revert self. induction items as [|x items IH]; intros self Hs; simpl; [done|].
  unfold bind. pose proof (add_keeps_sorted h x self Hs) as Hx.
  pose proof (add_config h x self) as Hcfg.
  destruct (DefaultListLookup.add h x self) as [[[]|e] s1]; simpl in *; [|done].
  assert (DefaultListLookup._sort_key s1 = DefaultListLookup._sort_key self)
    as Hsk by by rewrite Hcfg.
  rewrite <- Hsk. apply IH. by rewrite Hsk.
Qed.
End sorted_more.

(** X3.  The list-bucket index keeps every bucket in ascending order of its
    sort key: [add], [delete] and [lookup] leave the buckets sorted whether
    they return or raise, and so does a [bulk_add] that returns. *)
Theorem DefaultListLookup_keeps_buckets_sorted `{PyObject H E} (h : H)
    (self : DefaultListLookup.t H E) :
  let sorted self' :=
    buckets_sorted h (DefaultListLookup._sort_key self)
                   (DefaultListLookup._index self') in
  sorted self →
  (∀ elem, sorted (DefaultListLookup.add h elem self).2)
  ∧ (∀ elem, sorted (DefaultListLookup.delete h elem self).2)
  ∧ (∀ parameters, sorted (DefaultListLookup.lookup parameters self).2)
  ∧ (∀ items, (DefaultListLookup.bulk_add h items self).1 = Ok tt →
              sorted (DefaultListLookup.bulk_add h items self).2).
Proof.
  intros sorted Hs. subst sorted. split_and!.
  - intros elem. by apply add_keeps_sorted.
  - intros elem.
    destruct (key_of h (DefaultListLookup.key_attributes self) elem)
      as [k|e] eqn:Hkey.
    + rewrite (delete_unfold _ _ _ _ Hkey).
      destruct (dict_get k _) as [bucket|] eqn:Hget; simpl; [|done].
      apply buckets_sorted_set; [|done]. intros f Hf.
      apply Sorted_le_filter. by apply (buckets_sorted_get h _ k _ _ f Hs).
    + unfold DefaultListLookup.delete, bind, DefaultListLookup._key.
      by rewrite Hkey.
  - intros parameters.
    destruct (DefaultListLookup_lookup_state self parameters) as [r ->].
    simpl. destruct (key_of_parameters _ _); [|done].
    destruct (_ =? _)%nat; [|done]. by apply buckets_sorted_defaultdict.
  - intros items.
    unfold DefaultListLookup.bulk_add, bind, get. simpl.
    destruct (decide (length (DefaultListLookup._index self) = 0)) as [He|Hne].
    + pose proof (for_each_config (DefaultListLookup.append h) items self
                    (append_config h)) as Hcfg.
      destruct (for_each (DefaultListLookup.append h) items self)
        as [[[]|e] s1]; [|done].
      simpl in *. unfold DefaultListLookup.sort_all.
      assert (DefaultListLookup._sort_key s1 = DefaultListLookup._sort_key self)
        as Hsk by by rewrite Hcfg.
      rewrite Hsk.
      destruct (DefaultListLookup.sort_values _ _) as [r d'] eqn:Hd. simpl.
      intros ->. apply sort_values_sorted_to in Hd. intros f Hf.
      rewrite Hf in Hd. simpl in Hd. clear -Hd.
      induction Hd as [|[k b] [k' b'] d d' [_ Hb] _ IH]; constructor; [|done].
      simpl in *. injection Hb as <-. apply stable_sort_sorted.
    + intros _. by apply for_each_add_keeps_sorted.
Qed.

(** ** What [add] and [delete] touch *)
Section touch_more.
Context {H E : Type} `{PyObject H E}.
Implicit Types (h : H) (elem : E) (idx : index H E) (k : key)
  (d : list (key * list E)).

Lemma defaultdict_get_ne {V} (factory : V) k k' (d : list (key * V)) :
  k ≠ k' → dict_get k' (defaultdict_get factory k d).2 = dict_get k' d.
Proof.
  intros Hne. unfold defaultdict_get. destruct (dict_get k d); simpl; [done|].
  by apply dict_get_set_ne.
Qed.

Lemma ListLookup_add_raises (self : ListLookup.t H E) h elem e :
  key_of h (ListLookup.key_attributes self) elem = Raise e →
  ListLookup.add h elem self = (Raise e, self).
Proof.
  intros Hkey. unfold ListLookup.add, bind, ListLookup._key. by rewrite Hkey.
Qed.

Lemma ListLookup_delete_raises (self : ListLookup.t H E) h elem e :
  key_of h (ListLookup.key_attributes self) elem = Raise e →
  ListLookup.delete h elem self = (Raise e, self).
Proof.
  intros Hkey. unfold ListLookup.delete, bind, ListLookup._key.
  by rewrite Hkey.
Qed.

Lemma DefaultListLookup_delete_raises (self : DefaultListLookup.t H E) h elem e :
  key_of h (DefaultListLookup.key_attributes self) elem = Raise e →
  DefaultListLookup.delete h elem self = (Raise e, self).
Proof.
  intros Hkey. unfold DefaultListLookup.delete, bind, DefaultListLookup._key.
  by rewrite Hkey.
Qed.

Lemma dict_set_length_ge {V} k (v : V) (d : list (key * V)) :
  length d ≤ length (dict_set k v d).
Proof.
  destruct (dict_get k d) eqn:Hget.
  - by rewrite dict_set_length_Some.
  - rewrite dict_set_length_None by done. lia.
Qed.

Lemma defaultdict_get_length_ge {V} (factory : V) k (d : list (key * V)) :
  length d ≤ length (defaultdict_get factory k d).2.
Proof.
  unfold defaultdict_get. destruct (dict_get k d); simpl; [done|].
  apply dict_set_length_ge.
Qed.
End touch_more.

(** X4.  [add] and [delete] touch the bucket of the record's own key only:
    whether they return or raise, the bucket under any other key is what it
    was. *)
Theorem add_delete_keep_other_buckets `{PyObject H E} (h : H)
    (idx : index H E) (elem : E) (k' : key) :
  key_of h (index_key_attributes idx) elem ≠ Ok k' →
  dict_get k' (index_buckets (lc_add h elem idx).2)
    = dict_get k' (index_buckets idx)
  ∧ dict_get k' (index_buckets (lc_delete h elem idx).2)
      = dict_get k' (index_buckets idx).
Proof.
  intros Hk'. destruct idx as [l|d]; simpl in *; unfold dispatch;
    unfold as_ListIndex, as_DefaultListIndex; simpl.
  - destruct (key_of h (ListLookup.key_attributes l) elem) as [k|e] eqn:Hkey.
    + assert (k ≠ k') as Hne by congruence. split.
      * rewrite (ListLookup_add_unfold l h elem k Hkey). cbv zeta.
        destruct (SortedSet.discard h elem _) as [b1|]; simpl;
          [|by apply defaultdict_get_ne].
        destruct (SortedSet.add h _ elem b1); simpl;
          by apply dict_get_set_ne.
      * rewrite (ListLookup_delete_unfold l h elem k Hkey).
        destruct (dict_get k _); [|done].
        destruct (SortedSet.remove h elem _); simpl; [|done].
        by apply dict_get_set_ne.
    + by rewrite (ListLookup_add_raises _ _ _ e),
                 (ListLookup_delete_raises _ _ _ e).
  - destruct (key_of h (DefaultListLookup.key_attributes d) elem)
      as [k|e] eqn:Hkey.
    + assert (k ≠ k') as Hne by congruence. split.
      * rewrite (add_unfold d h elem k Hkey). cbv zeta.
        destruct (list_sort _ _); simpl; by apply dict_get_set_ne.
      * rewrite (delete_unfold d h elem k Hkey).
        destruct (dict_get k _); simpl; [|done]. by apply dict_get_set_ne.
    + by rewrite (add_raises _ _ _ e),
                 (DefaultListLookup_delete_raises _ _ _ e).
Qed.


(** X6.  The length of an index counts its buckets, the emptied ones too:
    [add] and [lookup] never lower it, and [delete] leaves it as it is,
    whether they return or raise. *)
Theorem index_length_never_shrinks `{PyObject H E} (h : H) (idx : index H E) :
  (∀ elem, length (index_buckets idx)
           ≤ length (index_buckets (lc_add h elem idx).2))
  ∧ (∀ elem, length (index_buckets (lc_delete h elem idx).2)
             = length (index_buckets idx))
  ∧ (∀ parameters, length (index_buckets idx)
                   ≤ length (index_buckets (lc_lookup parameters idx).2)).
Proof.
  split_and!.
  - intros elem. destruct idx as [l|d]; simpl; unfold dispatch;
      unfold as_ListIndex, as_DefaultListIndex; simpl.
    + destruct (key_of h (ListLookup.key_attributes l) elem) as [k|e] eqn:Hkey.
      * rewrite (ListLookup_add_unfold l h elem k Hkey). cbv zeta.
        destruct (SortedSet.discard h elem _) as [b1|]; simpl;
          [|apply defaultdict_get_length_ge].
        destruct (SortedSet.add h _ elem b1); simpl; apply dict_set_length_ge.
      * by rewrite (ListLookup_add_raises _ _ _ e).
    + destruct (key_of h (DefaultListLookup.key_attributes d) elem)
        as [k|e] eqn:Hkey.
      * rewrite (add_unfold d h elem k Hkey). cbv zeta.
        destruct (list_sort _ _); simpl; apply dict_set_length_ge.
      * by rewrite (add_raises _ _ _ e).
  - intros elem. destruct idx as [l|d]; simpl; unfold dispatch;
      unfold as_ListIndex, as_DefaultListIndex; simpl.
    + destruct (key_of h (ListLookup.key_attributes l) elem) as [k|e] eqn:Hkey.
      * rewrite (ListLookup_delete_unfold l h elem k Hkey).
        destruct (dict_get k _) eqn:Hget; [|done].
        destruct (SortedSet.remove h elem _); simpl; [|done].
        by apply dict_set_length_Some.
      * by rewrite (ListLookup_delete_raises _ _ _ e).
    + destruct (key_of h (DefaultListLookup.key_attributes d) elem)
        as [k|e] eqn:Hkey.
      * rewrite (delete_unfold d h elem k Hkey).
        destruct (dict_get k _) eqn:Hget; simpl; [|done].
        by apply dict_set_length_Some.
      * by rewrite (DefaultListLookup_delete_raises _ _ _ e).
  - intros parameters. destruct idx as [l|d]; simpl; unfold dispatch;
      unfold as_ListIndex, as_DefaultListIndex; simpl.
    + by destruct (ListLookup_lookup_state l parameters) as [r ->].
    + destruct (DefaultListLookup_lookup_state d parameters) as [r ->]. simpl.
      destruct (key_of_parameters _ _); [|done].
      destruct (_ =? _)%nat; [|done]. apply defaultdict_get_length_ge.
Qed.

(** X7.  On the sorted-set index the [add] of a record that cannot be
    hashed, as a model instance without [pk], raises [TypeError]; the
    records stay as they were, but the bucket for the record's key has been
    made by then if it was missing. *)
Theorem ListLookup_add_unhashable `{PyObject H E} (h : H)
    (self : ListLookup.t H E) (elem : E) (k : key) :
  key_of h (ListLookup.key_attributes self) elem = Ok k →
  py_hashable h elem = false →
  ∃ self',
    ListLookup.add h elem self = (Raise TypeError, self')
    ∧ concat (dict_values (ListLookup._index self'))
        = concat (dict_values (ListLookup._index self))
    ∧ ListLookup._index self'
        = match dict_get k (ListLookup._index self) with
          | Some _ => ListLookup._index self
          | None => ListLookup._index self ++ [(k, [])]
          end.
Proof.
  intros Hkey Hhash. rewrite (ListLookup_add_unfold self h elem k Hkey).
  cbv zeta. unfold SortedSet.discard, SortedSet.contains. rewrite Hhash.
  eexists. split; [done|]. simpl. split; [apply defaultdict_get_records|].
  unfold defaultdict_get. destruct (dict_get k _) eqn:Hget; simpl; [done|].
  by apply dict_set_None_app.
Qed.

(** * Further properties of the composite *)
Section composite_more.
Context {H E C : Type} `{LookupContainer H E C}.
Implicit Types (f : M C unit) (indexes : list C).

Lemma broadcast_failure f (before : list C) m after e m' :
  Forall (λ idx, (f idx).1 = Ok tt) before →
  f m = (Raise e, m') →
  CompositeLookup.broadcast f (before ++ m :: after)
    = (Raise e, ((λ idx, (f idx).2) <$> before) ++ m' :: after).
Proof.
  intros Hbefore Hm. induction Hbefore as [|idx before Hidx _ IH]; simpl.
  - by rewrite Hm.
  - destruct (f idx) as [[[]|e0] idx'] eqn:Hf; [|done]. simpl.
    by rewrite IH.
Qed.
End composite_more.

(** X8.  The composite's [add] and [delete] are not atomic: when a member
    raises, the exception is the composite's, the members in front of it
    have been changed and the members behind it have not been called. *)
Theorem CompositeLookup_add_delete_stop_at_failure `{LookupContainer H E C}
    (h : H) (elem : E) (before : list C) (m : C) (after : list C) :
  (∀ e m',
     Forall (λ idx, (lc_add h elem idx).1 = Ok tt) before →
     lc_add h elem m = (Raise e, m') →
     CompositeLookup.add h elem (before ++ m :: after)
       = (Raise e, ((λ idx, (lc_add h elem idx).2) <$> before) ++ m' :: after))
  ∧ (∀ e m',
       Forall (λ idx, (lc_delete h elem idx).1 = Ok tt) before →
       lc_delete h elem m = (Raise e, m') →
       CompositeLookup.delete h elem (before ++ m :: after)
         = (Raise e,
            ((λ idx, (lc_delete h elem idx).2) <$> before) ++ m' :: after)).
Proof. split; intros e m'; apply broadcast_failure. Qed.

(** ** A record added through the composite is found through it *)
Section composite_index.
Context {H E : Type} `{PyObject H E}.
Implicit Types (h : H) (elem : E) (idx : index H E) (parameters : kwargs).

(** the key built from the record's own values is the record's key *)
Lemma key_of_parameters_agrees h elem parameters (key_attributes : list string)
    k k' :
  values_of h elem parameters →
  key_of_parameters parameters key_attributes = Ok k' →
  key_of h key_attributes elem = Ok k →
  k' = k.
Proof.
  unfold key_of, key_of_parameters. intros Hval. revert k k'.
  induction key_attributes as [|a key_attributes IH]; intros k k'; simpl.
  - congruence.
  - destruct (dict_get a parameters) as [v|] eqn:Ha; [|done].
    rewrite (Hval a v) by by apply dict_get_Some_elem.
    destruct (collect _ key_attributes) as [ks'|]; [|done].
    destruct (collect (py_getattr h elem) key_attributes) as [ks|]; [|done].
    intros [= <-] [= <-]. f_equal. by apply IH.
Qed.

Lemma index_add_key_attributes h elem idx :
  index_key_attributes (lc_add h elem idx).2 = index_key_attributes idx.
Proof.
  destruct idx as [l|d]; simpl; unfold dispatch, as_ListIndex,
    as_DefaultListIndex; simpl.
  - destruct (key_of h (ListLookup.key_attributes l) elem) as [k|e] eqn:Hkey.
    + rewrite (ListLookup_add_unfold l h elem k Hkey). cbv zeta.
      destruct (SortedSet.discard h elem _) as [b1|]; [|done].
      by destruct (SortedSet.add h _ elem b1).
    + unfold ListLookup.add, bind, ListLookup._key. by rewrite Hkey.
  - by rewrite (add_config h elem d).
Qed.

(** what a member that holds the record answers to keyword arguments with
    the record's values: it does not support them, or it finds the record *)
Lemma index_add_then_lookup h elem idx idx' parameters :
  lc_add h elem idx = (Ok tt, idx') →
  values_of h elem parameters →
  lc_lookup parameters idx' = (Ok (LOOKUP_NOT_SUPPORTED, None), idx')
    ∧ ¬ names_match parameters (index_key_attributes idx)
  ∨ ∃ payload,
      lc_lookup parameters idx' = (Ok (VALUE_FOUND, Some payload), idx')
      ∧ elem ∈ payload.
Proof.
  intros Hadd Hval.
  pose proof (index_add_key_attributes h elem idx) as Hka.
  rewrite Hadd in Hka. simpl in Hka.
  assert (∃ k, key_of h (index_key_attributes idx) elem = Ok k) as [k0 Hk0].
  { destruct idx as [l|d]; simpl in Hadd; unfold dispatch in Hadd.
    - unfold as_ListIndex in Hadd.
      destruct (ListLookup.add h elem l) as [r l'] eqn:Hl. simpl in Hadd.
      injection Hadd as -> <-.
      apply ListLookup_add_Ok_inv in Hl as (k & _ & Hkey & _). by exists k.
    - unfold as_DefaultListIndex in Hadd.
      destruct (DefaultListLookup.add h elem d) as [r d'] eqn:Hd. simpl in Hadd.
      injection Hadd as -> <-.
      apply add_Ok_inv in Hd as (k & _ & Hkey & _). by exists k. }
  destruct (decide (length parameters = length (index_key_attributes idx')))
    as [Hlen|Hlen].
  2: { left. split; [apply index_lookup_unsupported; by left|].
       intros Hnames%names_match_length. congruence. }
  destruct (key_of_parameters parameters (index_key_attributes idx'))
    as [k'|e] eqn:Hkey'.
  2: { left. split.
       - destruct idx' as [l'|d']; simpl in *;
           unfold dispatch, as_ListIndex, as_DefaultListIndex.
         + unfold ListLookup.lookup, bind, get, ret. simpl.
           by rewrite Hlen, Nat.eqb_refl, Hkey'.
         + unfold DefaultListLookup.lookup, bind, get, ret. simpl.
           by rewrite Hlen, Nat.eqb_refl, Hkey'.
       - intros Hnames.
         rewrite Hka in Hkey'.
         by rewrite (key_of_parameters_match h elem _ _ k0 Hnames Hval Hk0)
           in Hkey'. }
  right. destruct idx as [l|d]; simpl in Hadd; unfold dispatch in Hadd.
  - unfold as_ListIndex in Hadd.
    destruct (ListLookup.add h elem l) as [r l'] eqn:Hl. simpl in Hadd.
    injection Hadd as -> <-. simpl in *.
    apply ListLookup_add_Ok_inv in Hl as (k & bucket & Hkey & Hperm & ->).
    simpl in *.
    assert (k' = k) as -> by by apply (key_of_parameters_agrees h elem _ _ _ _ Hval Hkey').
    assert (elem ∈ bucket) as Hin by (rewrite Hperm; apply list_elem_of_here).
    exists bucket. split; [|done]. unfold dispatch, as_ListIndex.
    rewrite (ListLookup_lookup_supported _ parameters k) by done.
    simpl. rewrite dict_get_set_eq.
    destruct bucket; [by apply elem_of_nil in Hin|done].
  - unfold as_DefaultListIndex in Hadd.
    destruct (DefaultListLookup.add h elem d) as [r d'] eqn:Hd. simpl in Hadd.
    injection Hadd as -> <-. simpl in *.
    apply add_Ok_inv in Hd as (k & sorted & Hkey & Hperm & ->). simpl in *.
    assert (k' = k) as -> by by apply (key_of_parameters_agrees h elem _ _ _ _ Hval Hkey').
    assert (elem ∈ sorted) as Hin by (rewrite Hperm; apply replaced_elem).
    exists sorted. split; [|done]. unfold dispatch, as_DefaultListIndex.
    rewrite (lookup_supported _ parameters k) by done.
    simpl. rewrite (defaultdict_get_Some _ _ sorted) by apply dict_get_set_eq.
    destruct sorted; [by apply elem_of_nil in Hin|done].
Qed.
End composite_index.

Section composite_index_lookup.
Context {H E : Type} `{PyObject H E}.
Implicit Types (h : H) (elem : E) (idx : index H E) (parameters : kwargs).

(** the loop of the composite's [lookup] over members that all hold the
    record *)
Lemma lookup_from_holding h elem parameters (indexes indexes' : list (index H E))
    code :
  Forall2 (λ idx idx', lc_add h elem idx = (Ok tt, idx')) indexes indexes' →
  values_of h elem parameters →
  CompositeLookup.lookup_from parameters code indexes'
    = (Ok (code, None), indexes')
    ∧ Forall (λ idx, ¬ names_match parameters (index_key_attributes idx)) indexes
  ∨ ∃ payload,
      CompositeLookup.lookup_from parameters code indexes'
        = (Ok (VALUE_FOUND, Some payload), indexes')
      ∧ elem ∈ payload.
Proof.
  intros Hall Hval. revert code.
  induction Hall as [|idx idx' indexes indexes' Hadd _ IH]; intros code.
  - left. split; [done|constructor].
  - cbn [CompositeLookup.lookup_from].
    destruct (index_add_then_lookup h elem idx idx' parameters Hadd Hval)
      as [[Hno Hnames]|(payload & Hfound & Hin)].
    + rewrite Hno. simpl.
      replace (retcode_max code LOOKUP_NOT_SUPPORTED) with code
        by by destruct code.
      destruct (IH code) as [[-> Hrest]|(payload & -> & Hin)].
      * left. split; [done|]. by constructor.
      * right. by exists payload.
    + right. exists payload. by rewrite Hfound.
Qed.
End composite_index_lookup.

(** X9.  A record added through the composite is found through it: after
    an [add] that returned, a lookup with the record's own values, under
    names that are exactly the key attributes of some member, returns
    [VALUE_FOUND] with a payload that holds the record, and changes no
    member. *)
Theorem CompositeLookup_add_then_lookup_found `{PyObject H E} (h : H)
    (indexes indexes' : list (index H E)) (elem : E) (parameters : kwargs) :
  CompositeLookup.add h elem indexes = (Ok tt, indexes') →
  values_of h elem parameters →
  (∃ idx, idx ∈ indexes ∧ names_match parameters (index_key_attributes idx)) →
  ∃ payload,
    CompositeLookup.lookup parameters indexes'
      = (Ok (VALUE_FOUND, Some payload), indexes')
    ∧ elem ∈ payload.
Proof.
  intros Hadd Hval (idx & Hidx & Hnames).
  apply broadcast_Ok_inv in Hadd.
  destruct (lookup_from_holding h elem parameters indexes indexes'
              LOOKUP_NOT_SUPPORTED Hadd Hval) as [[_ Hnone]|Hfound]; [|done].
  rewrite Forall_forall in Hnone. by destruct (Hnone idx Hidx).
Qed.

Lemma CompositeLookup_clear_index `{PyObject H E}
    (indexes : list (index H E)) :
  ∃ indexes',
    CompositeLookup.clear indexes = (Ok tt, indexes')
    ∧ Forall2 (λ idx idx', index_buckets idx' = []
                           ∧ index_key_attributes idx' = index_key_attributes idx)
              indexes indexes'.
Proof.
  induction indexes as [|idx indexes (indexes' & IH & Hall)].
  - by exists [].
  - exists ((lc_clear idx).2 :: indexes').
    unfold CompositeLookup.clear in *.
    cbn [CompositeLookup.broadcast]. rewrite IH.
    destruct idx as [l|d]; (split; [done|]); by constructor.
Qed.

(** X10.  Clearing the composite clears every member: over the in-memory
    indexes it always returns, and leaves every member without a bucket and
    with the key attributes it had. *)
Theorem CompositeLookup_clear_empties `{PyObject H E}
    (indexes : list (index H E)) :
  ∃ indexes',
    CompositeLookup.clear indexes = (Ok tt, indexes')
    ∧ Forall2 (λ idx idx', index_buckets idx' = []
                           ∧ index_key_attributes idx' = index_key_attributes idx)
              indexes indexes'.
Proof. apply CompositeLookup_clear_index. Qed.

(** * Further properties of the change records and of the cache *)
Section change_more.
Implicit Types (w : world) (elem : oid) (c : DjangoModelChange).

Lemma apply_change_SaveOp w elem save_kwargs n :
  let w' := (apply_change {| kind := SaveOp save_kwargs; obj := elem;
                             change_counter := n |} w).2 in
  (apply_change {| kind := SaveOp save_kwargs; obj := elem;
                   change_counter := n |} w).1 = Ok tt
  ∧ store_calls w' = store_calls w ++ [StoreSave elem save_kwargs]
  ∧ pk (deref (objects w') elem) = saved_pk w elem
  ∧ fields (deref (objects w') elem) = fields (deref (objects w) elem)
  ∧ (∀ o, o ≠ elem → deref (objects w') o = deref (objects w) o)
  ∧ store_next_pk w'
      = (if bool_decide (saved_pk w elem = pk (deref (objects w) elem))
         then store_next_pk w else store_next_pk w + 1)%Z
  ∧ _change_counter w' = _change_counter w
  ∧ transient_values w' = transient_values w.
Proof.
  unfold apply_change, bind, get, ret, set_pk, model_save, saved_pk. simpl.
  destruct (pk (deref (objects w) elem)) eqn:Hpk; simpl;
    rewrite ?deref_insert_eq; simpl; rewrite ?Hpk; simpl;
    rewrite ?deref_insert_eq; simpl;
    (split_and!; try done;
     try (intros o Ho; by rewrite ?deref_insert_ne by done);
     try (by case_bool_decide)).
Qed.
End change_more.

(** X11.  Applying a [SaveOp] sends exactly one save of its record to the
    store and gives the record its identity: a record without [pk], or with
    a placeholder, leaves with the next identity of the store, a record with
    a real [pk] keeps it.  The fields of the record, every other object,
    the counter of the changes and the placeholders are left alone. *)
Theorem SaveOp_apply_change_assigns_identity (w : world) (elem : oid)
    (save_kwargs : kwargs) (n : Z) :
  let op := {| kind := SaveOp save_kwargs; obj := elem; change_counter := n |} in
  let w' := (apply_change op w).2 in
  (apply_change op w).1 = Ok tt
  ∧ store_calls w' = store_calls w ++ [StoreSave elem save_kwargs]
  ∧ pk (deref (objects w') elem)
      = match pk (deref (objects w) elem) with
        | VNone | VTransient _ => VInt (store_next_pk w)
        | p => p
        end
  ∧ fields (deref (objects w') elem) = fields (deref (objects w) elem)
  ∧ (∀ o, o ≠ elem → deref (objects w') o = deref (objects w) o)
  ∧ _change_counter w' = _change_counter w
  ∧ transient_values w' = transient_values w.
Proof.
  intros op w'.
  destruct (apply_change_SaveOp w elem save_kwargs n)
    as (? & ? & ? & ? & ? & _ & ? & ?).
  by split_and!.
Qed.

Section cache_more.
Context {C : Type} `{LookupContainer heap oid C}.
Variable is_cacheable : heap → oid → bool.
Implicit Types (w : world) (self : InProcessWriteBackCache.t C) (elem : oid)
  (s : world * InProcessWriteBackCache.t C).

Lemma prepared_store w elem :
  store_calls (prepared w elem) = store_calls w
  ∧ store_next_pk (prepared w elem) = store_next_pk w.
Proof. unfold prepared. by destruct (is_None _). Qed.

(** a call on a cacheable record leaves the store alone *)
Lemma perform_cacheable_store (op : operation) s :
  (∀ h o, is_cacheable h o = true) →
  op ≠ Flush →
  store_calls (perform is_cacheable op s).2.1 = store_calls s.1
  ∧ store_next_pk (perform is_cacheable op s).2.1 = store_next_pk s.1.
Proof.
  intros Hc Hop. destruct s as [w self]. destruct op as [elem|elem|]; [| |done];
    simpl.
  - rewrite add_cacheable by apply Hc. cbv zeta.
    destruct (CompositeLookup.add _ elem _) as [[[]|e] idxs]; simpl;
      [|apply prepared_store].
    destruct (ChangeLog.add _ _ _) as [r log]. simpl. apply prepared_store.
  - rewrite delete_cacheable by apply Hc. cbv zeta.
    destruct (CompositeLookup.delete _ elem _) as [[[]|e] idxs]; simpl;
      [|done].
    by destruct (ChangeLog.add _ _ _) as [r log].
Qed.

Lemma perform_all_cacheable_store (ops : list operation) s :
  (∀ h o, is_cacheable h o = true) →
  Flush ∉ ops →
  store_calls (perform_all is_cacheable ops s).2.1 = store_calls s.1
  ∧ store_next_pk (perform_all is_cacheable ops s).2.1 = store_next_pk s.1.
Proof.
  intros Hc. revert s. induction ops as [|op ops IH]; intros s Hops; [done|].
  apply not_elem_of_cons in Hops as [Hop Hops].
  unfold perform_all in *. simpl. unfold bind.
  pose proof (perform_cacheable_store op s Hc (not_eq_sym Hop)) as [H1 H2].
  destruct (perform is_cacheable op s) as [[[]|e] s1]; simpl in *; [|done].
  destruct (IH s1 Hops) as [-> ->]. done.
Qed.

Lemma flush_twice s s' :
  InProcessWriteBackCache.flush_changes_to_database s = (Ok tt, s') →
  InProcessWriteBackCache.flush_changes_to_database s' = (Ok tt, s').
Proof.
  destruct s as [w self]. rewrite flush_unfold.
  destruct (ChangeLog.apply_all _ w) as [[[]|e] w']; [|done].
  intros [= <-]. by rewrite flush_unfold.
Qed.

Lemma flush_raised s e s' :
  InProcessWriteBackCache.flush_changes_to_database s = (Raise e, s') →
  s'.2 = s.2
  ∧ (ChangeLog.apply_all (InProcessWriteBackCache.change_log s.2) s.1).1
    = Raise e.
Proof.
  destruct s as [w self]. rewrite flush_unfold. simpl.
  destruct (ChangeLog.apply_all _ w) as [[[]|e0] w']; [done|].
  by intros [= -> <-].
Qed.
End cache_more.

(** X12.  Writes are deferred: while every record is cacheable, no sequence
    of [add] and [delete] calls, returning or raising, sends anything to the
    backing store or takes an identity from it. *)
Theorem cacheable_calls_leave_store_alone `{LookupContainer heap oid C}
    (is_cacheable : heap → oid → bool) (ops : list operation)
    (s : world * InProcessWriteBackCache.t C) :
  (∀ h o, is_cacheable h o = true) →
  Flush ∉ ops →
  store_calls (perform_all is_cacheable ops s).2.1 = store_calls s.1
  ∧ store_next_pk (perform_all is_cacheable ops s).2.1 = store_next_pk s.1.
Proof. apply perform_all_cacheable_store. Qed.

(** X13.  The [add] of a record that is not cacheable goes past the cache:
    it returns, the indexes and the change log are what they were, and the
    store has received exactly one save of the record. *)
Theorem add_not_cacheable_bypasses_cache `{LookupContainer heap oid C}
    (is_cacheable : heap → oid → bool) (w : world)
    (self : InProcessWriteBackCache.t C) (elem : oid) :
  is_cacheable (objects w) elem = false →
  ∃ w',
    InProcessWriteBackCache.add is_cacheable elem (w, self) = (Ok tt, (w', self))
    ∧ store_calls w' = store_calls w ++ [StoreSave elem []]
    ∧ pk (deref (objects w') elem)
        = match pk (deref (objects w) elem) with
          | VNone | VTransient _ => VInt (store_next_pk w)
          | p => p
          end.
Proof.
  intros Hc. rewrite add_not_cacheable by done. cbv zeta.
  destruct (apply_change_SaveOp (Sequence.next_value w).2 elem []
              (_change_counter w + 1)) as (Hr & Hcalls & Hpk & _).
  destruct (apply_change _ _) as [r w']. simpl in *. subst r.
  by exists w'.
Qed.

(** X14.  A flush that returned leaves nothing to apply: a second flush
    right after it returns and changes neither the process state nor the
    cache.  A flush that raised, because applying a change raised, leaves the
    cache as it was, the change log with it. *)
Theorem flush_twice_is_flush_once `{LookupContainer heap oid C}
    (s : world * InProcessWriteBackCache.t C) :
  (∀ s',
     InProcessWriteBackCache.flush_changes_to_database s = (Ok tt, s') →
     InProcessWriteBackCache.flush_changes_to_database s' = (Ok tt, s'))
  ∧ (∀ e s',
       InProcessWriteBackCache.flush_changes_to_database s = (Raise e, s') →
       s'.2 = s.2
       ∧ (ChangeLog.apply_all (InProcessWriteBackCache.change_log s.2) s.1).1
         = Raise e).
Proof. split; [apply flush_twice|apply flush_raised]. Qed.


(** X16.  Adding to a well formed change log a change record whose counter
    no record of the log has returns, keeps the log well formed and makes
    the log hold this record besides the ones it held. *)
Theorem ChangeLog_add_fresh (h : heap) (log : ChangeLog.t)
    (c : DjangoModelChange) :
  ChangeLog_wf log →
  (∀ c', c' ∈ log_changes log → change_counter c' ≠ change_counter c) →
  ∃ log',
    ChangeLog.add h c log = (Ok tt, log')
    ∧ ChangeLog_wf log'
    ∧ log_changes log' ≡ₚ c :: log_changes log.
Proof. apply ChangeLog_wf_add. Qed.

(** X17.  [clear] empties the indexes first: whatever [force] is and
    whether the call returns or raises, every index is left without a bucket
    and the process state is untouched.  With [force] set, or with an empty
    change log, the call returns and the change log is empty, so that forcing
    discards the changes not flushed; otherwise it raises the validation's
    failure. *)
Theorem clear_empties_indexes_first
    (s : world * InProcessWriteBackCache.t (index heap oid)) (force : bool) :
  let r := InProcessWriteBackCache.clear force s in
  r.2.1 = s.1
  ∧ Forall (λ idx, index_buckets idx = [])
           (InProcessWriteBackCache.indexes r.2.2)
  ∧ (force = true
     ∨ ListLookup.__len__ (InProcessWriteBackCache.change_log s.2) = 0 →
     r.1 = Ok tt
     ∧ ListLookup._index (InProcessWriteBackCache.change_log r.2.2) = [])
  ∧ (force = false →
     ListLookup.__len__ (InProcessWriteBackCache.change_log s.2) ≠ 0 →
     r.1 = Raise (UtilFailure "validate_equals")).
Proof.
  destruct s as [w [idxs log]].
  destruct (CompositeLookup_clear_index idxs) as (idxs' & Hclear & Hall).
  assert (Forall (λ idx, index_buckets idx = []) idxs') as Hempty.
  { clear -Hall. induction Hall as [|???? [? _]]; by constructor. }
  unfold InProcessWriteBackCache.clear, InProcessWriteBackCache.in_indexes,
    InProcessWriteBackCache.in_change_log, bind, get, util_validate_equals, ret.
  simpl. rewrite Hclear. simpl.
  destruct force; simpl.
  - by split_and!.
  - destruct (ListLookup.__len__ log) as [|n] eqn:Hn; simpl.
    + by split_and!.
    + split_and!; try done. by intros [?|?].
Qed.

(** ** A record that gets its identity at the flush *)
Section flush_more.
Implicit Types (w : world) (elem : oid).

Lemma prepared_None w elem :
  pk (deref (objects w) elem) = VNone →
  pk (deref (objects (prepared w elem)) elem) = VTransient (transient_values w)
  ∧ fields (deref (objects (prepared w elem)) elem)
      = fields (deref (objects w) elem)
  ∧ (∀ o, o ≠ elem →
          deref (objects (prepared w elem)) o = deref (objects w) o)
  ∧ transient_values (prepared w elem) = S (transient_values w)
  ∧ store_next_pk (prepared w elem) = store_next_pk w
  ∧ store_calls (prepared w elem) = store_calls w.
Proof.
  intros Hpk. unfold prepared. rewrite Hpk. simpl.
  rewrite deref_insert_eq. split_and!; try done.
  intros o Ho. by rewrite deref_insert_ne.
Qed.
End flush_more.

Lemma DefaultListLookup_add_first (h : heap) (elem : oid)
    (key_attributes : list string) (f : heap → oid → Z) (k : key) :
  key_of h key_attributes elem = Ok k →
  DefaultListLookup.add h elem
    (DefaultListLookup.__init__ key_attributes (Some f))
  = (Ok tt,
     DefaultListLookup.with_index
       (DefaultListLookup.__init__ key_attributes (Some f)) [(k, [elem])]).
Proof.
  intros Hkey.
  by rewrite (add_unfold (DefaultListLookup.__init__ key_attributes (Some f))
                h elem k Hkey).
Qed.

Lemma ChangeLog_add_first (h : heap) (c : DjangoModelChange) :
  ChangeLog.add h c ChangeLog.__init__
  = (Ok tt,
     ListLookup.with_index ChangeLog.__init__ [([change_pk h c], [c])]).
Proof.
  rewrite ChangeLog_add_eq.
  by rewrite (ListLookup_add_unfold ChangeLog.__init__ h c [change_pk h c]).
Qed.

(** X18.  A record added without identity is filed under its placeholder,
    and the flush, which gives the record its real identity, does not file
    it anew: in an index on [pk] a lookup by the real identity answers
    [VALUE_UNKNOWN] after the flush, and the record is still found under the
    placeholder. *)
Theorem flushed_record_stays_under_placeholder
    (is_cacheable : heap → oid → bool) (w : world) (elem : oid)
    (sort_key : heap → oid → Z) :
  pk (deref (objects w) elem) = VNone →
  is_cacheable (objects w) elem = true →
  let cache :=
    InProcessWriteBackCache.__init__
      [DefaultListIndex (DefaultListLookup.__init__ ["pk"] (Some sort_key))] in
  let run := perform_all is_cacheable [Add elem; Flush] (w, cache) in
  run.1 = Ok tt
  ∧ pk (deref (objects run.2.1) elem) = VInt (store_next_pk w)
  ∧ (index_buckets <$> InProcessWriteBackCache.indexes run.2.2)
      = [[([VTransient (transient_values w)], [elem])]]
  ∧ (CompositeLookup.lookup [("pk", VInt (store_next_pk w))]
       (InProcessWriteBackCache.indexes run.2.2)).1
      = Ok (VALUE_UNKNOWN, None)
  ∧ (CompositeLookup.lookup [("pk", VTransient (transient_values w))]
       (InProcessWriteBackCache.indexes run.2.2)).1
      = Ok (VALUE_FOUND, Some [elem]).
Proof.
  intros Hpk Hc cache run.
  destruct (prepared_None w elem Hpk) as (Hp & Hf & Ho & Ht & Hn & Hs).
  set (op := {| kind := SaveOp []; obj := elem;
                change_counter := (_change_counter w + 1)%Z |}).
  set (k := [VTransient (transient_values w)]).
  assert (run = (Ok tt,
                 ((apply_change op (prepared w elem)).2,
                  {| InProcessWriteBackCache.indexes :=
                       [DefaultListIndex
                          (DefaultListLookup.with_index
                             (DefaultListLookup.__init__ ["pk"] (Some sort_key))
                             [(k, [elem])])];
                     InProcessWriteBackCache.change_log :=
                       ListLookup.with_index ChangeLog.__init__ [] |})))
    as ->.
  { subst run cache. unfold perform_all. simpl. unfold bind at 1.
    rewrite add_cacheable by done. cbv zeta.
    unfold CompositeLookup.add, InProcessWriteBackCache.__init__,
      CompositeLookup.__init__.
    cbn [CompositeLookup.broadcast InProcessWriteBackCache.indexes
         InProcessWriteBackCache.change_log lc_add index_container dispatch
         as_DefaultListIndex].
    rewrite (DefaultListLookup_add_first _ elem ["pk"] sort_key k)
      by (unfold key_of; simpl; by rewrite Hp).
    cbn [fst snd]. rewrite ChangeLog_add_first.
    unfold bind. rewrite flush_unfold.
    cbn [InProcessWriteBackCache.change_log InProcessWriteBackCache.indexes].
    unfold ChangeLog.apply_all. simpl.
    unfold bind, ret.
    pose proof (apply_change_result op (prepared w elem)) as Hok.
    unfold accepted in Hok. simpl in Hok. fold op. by destruct (apply_change op (prepared w elem)) as [[[]|e] w']. }
  destruct (apply_change_SaveOp (prepared w elem) elem [] (_change_counter w + 1))
    as (_ & _ & Hpk' & _).
  fold op in Hpk'. unfold saved_pk in Hpk'. rewrite Hp, Hn in Hpk'.
  split_and!; try done.
  unfold CompositeLookup.lookup.
  cbn [CompositeLookup.lookup_from InProcessWriteBackCache.indexes fst snd
       lc_lookup index_container dispatch as_DefaultListIndex].
  rewrite (lookup_supported _ [("pk", VTransient (transient_values w))] k)
    by done.
  rewrite (defaultdict_get_Some _ _ [elem])
    by (simpl; by rewrite decide_True).
  done.
Qed.

Section placeholders_more.
Context {C : Type} `{LookupContainer heap oid C}.
Variable is_cacheable : heap → oid → bool.

Lemma add_cacheable_world (w : world) (self : InProcessWriteBackCache.t C)
    (elem : oid) :
  is_cacheable (objects w) elem = true →
  (InProcessWriteBackCache.add is_cacheable elem (w, self)).2.1
    = prepared w elem.
Proof.
  intros Hc. rewrite add_cacheable by done. cbv zeta.
  destruct (CompositeLookup.add _ elem _) as [[[]|e] idxs]; simpl; [|done].
  by destruct (ChangeLog.add _ _ _).
Qed.
End placeholders_more.

(** X19.  Two records added without identity get two placeholders: after
    the two [add] calls the first record carries the placeholder of the next
    allocation and the second record the one after it, so that the records
    are not equal and are logged under different identities. *)
Theorem added_records_get_distinct_placeholders `{LookupContainer heap oid C}
    (is_cacheable : heap → oid → bool) (w : world)
    (self : InProcessWriteBackCache.t C) (r1 r2 : oid)
    (s : world * InProcessWriteBackCache.t C) :
  (∀ h o, is_cacheable h o = true) →
  r1 ≠ r2 →
  pk (deref (objects w) r1) = VNone →
  pk (deref (objects w) r2) = VNone →
  perform_all is_cacheable [Add r1; Add r2] (w, self) = (Ok tt, s) →
  pk (deref (objects s.1) r1) = VTransient (transient_values w)
  ∧ pk (deref (objects s.1) r2) = VTransient (S (transient_values w))
  ∧ model_eq (objects s.1) r1 r2 = false.
Proof.
  intros Hc Hne Hpk1 Hpk2. unfold perform_all. simpl. unfold bind.
  pose proof (add_cacheable_world is_cacheable w self r1 (Hc _ _)) as Hw1.
  destruct (InProcessWriteBackCache.add is_cacheable r1 (w, self))
    as [[[]|e] [w1 self1]]; [|done].
  simpl in Hw1. subst w1.
  pose proof (add_cacheable_world is_cacheable (prepared w r1) self1 r2
                (Hc _ _)) as Hw2.
  destruct (InProcessWriteBackCache.add is_cacheable r2 (prepared w r1, self1))
    as [[[]|e] [w2 self2]]; [|done].
  simpl in Hw2. subst w2. intros [= <-]. simpl.
  destruct (prepared_None w r1 Hpk1) as (Hp1 & _ & Ho1 & Ht1 & _).
  assert (pk (deref (objects (prepared w r1)) r2) = VNone) as Hpk2'
    by (by rewrite Ho1 by done).
  destruct (prepared_None (prepared w r1) r2 Hpk2') as (Hp2 & _ & Ho2 & _).
  rewrite Ht1 in Hp2.
  assert (pk (deref (objects (prepared (prepared w r1) r2)) r1)
          = VTransient (transient_values w)) as Hp1'
    by (by rewrite Ho2 by done).
  split_and!; [done..|].
  unfold model_eq. rewrite Hp1', Hp2. apply bool_decide_eq_false.
  intros [= Heq]. lia.
Qed.

(** * DjangoModelLookup *)





(** * [get] *)

(** X22.  [get] after [add]: with the record's own values under exactly the
    key attributes of the index, [get] returns the record that was added, or
    raises [LookupException] because the bucket holds more than one record;
    it returns neither [None] nor another record, and leaves the index as
    it is. *)
Theorem add_then_get `{PyObject H E} (h : H) (idx idx' : index H E)
    (elem : E) (parameters : kwargs) :
  lc_add h elem idx = (Ok tt, idx') →
  values_of h elem parameters →
  names_match parameters (index_key_attributes idx) →
  LookupContainer_get parameters idx' = (Ok (Some elem), idx')
  ∨ LookupContainer_get parameters idx' = (Raise LookupException, idx').
Proof.
  intros Hadd Hval Hnames.
  destruct (index_add_then_lookup h elem idx idx' parameters Hadd Hval)
    as [[_ Hno]|(payload & Hlookup & Hin)]; [done|].
  unfold LookupContainer_get, bind. rewrite Hlookup.
  destruct payload as [|x [|y payload]].
  - by apply elem_of_nil in Hin.
  - apply list_elem_of_singleton in Hin as ->. by left.
  - by right.
Qed.

(** * A record added and then deleted *)
Section add_then_delete.
Context {H E : Type} `{PyObject H E}.
Implicit Types (h : H) (elem : E) (idx : index H E).



End add_then_delete.


(** * The sorted-set index: [bulk_add] against [add] *)



(** * DjangoFilterLookup *)

(** X25.  [get] through a [DjangoFilterLookup]: it returns the row when the
    query has exactly one, [None] when the query is restricted or has no
    row, and raises [LookupException] when the query has more than one; it
    never changes the object, and the [add] and [delete] of the class do
    nothing. *)
Theorem DjangoFilterLookup_get {H E : Type} (h : H)
    (self : DjangoFilterLookup.t E) (parameters : kwargs) :
  let qs := DjangoFilterLookup.base_queryset self parameters in
  let restricted := DjangoFilterLookup.restricted self parameters in
  let r := LookupContainer_get (H:=H) parameters self in
  r.2 = self
  ∧ (∀ x, r.1 = Ok (Some x) ↔ restricted = false ∧ qs = [x])
  ∧ (r.1 = Ok None ↔ restricted = true ∨ qs = [])
  ∧ (r.1 = Raise LookupException ↔ restricted = false ∧ 2 ≤ length qs)
  ∧ (∀ elem, lc_add h elem self = (Ok tt, self)
             ∧ lc_delete h elem self = (Ok tt, self)).
Proof.
  cbv zeta. unfold LookupContainer_get, bind. simpl.
  unfold DjangoFilterLookup.lookup, bind, get, DjangoFilterLookup._do_filter.
  destruct (DjangoFilterLookup.restricted self parameters); simpl.
  - split_and!; try done; try intros x; split; try done;
      try (intros [? ?]; done); by left.
  - destruct (DjangoFilterLookup.base_queryset self parameters)
      as [|x [|y qs]]; simpl; split_and!; try done; try intros z; split;
      try done; try (intros [? ?]; simpl in *; done || lia);
      try (intros [?|?]; done); try (by right).
    + by intros [= ->].
    + by intros [_ [= ->]].
    + intros _. split; [done|lia].
Qed.

(** ** The further properties at sample inputs *)

(** a lookup by a name the index does not have *)
Lemma lookup_not_supported_witness :
  lc_lookup [("name", VStr "x")] (ListIndex Sample.sorted_by_category)
  = (Ok (LOOKUP_NOT_SUPPORTED, None), ListIndex Sample.sorted_by_category).
Proof.
  apply (lookup_not_supported (ListIndex Sample.sorted_by_category)
           [("name", VStr "x")]).
  right. exists "category". split; [left | reflexivity].
Defined.

(** the index by category after a [bulk_add] of [B] and [A], which sorted
    them, and [C] added to it *)
Lemma DefaultListLookup_keeps_buckets_sorted_witness :
  let self := (DefaultListLookup.bulk_add Sample.records [Sample.B; Sample.A]
                 Sample.by_category).2 in
  DefaultListLookup._index self = [([VStr "x"], [Sample.A; Sample.B])]
  ∧ buckets_sorted Sample.records (DefaultListLookup._sort_key self)
      (DefaultListLookup._index
         (DefaultListLookup.add Sample.records Sample.C self).2).
Proof.
  cbv zeta. split; [reflexivity|].
  apply (DefaultListLookup_keeps_buckets_sorted Sample.records).
  intros f [= <-]. vm_compute. repeat constructor. discriminate.
Defined.

(** [C], of category ["y"], added to and deleted from the index that holds
    [A] under ["x"] *)
Lemma add_delete_keep_other_buckets_witness :
  let idx := (lc_add Sample.records Sample.A
                     (DefaultListIndex Sample.by_category)).2 in
  dict_get [VStr "x"] (index_buckets (lc_add Sample.records Sample.C idx).2)
    = dict_get [VStr "x"] (index_buckets idx)
  ∧ dict_get [VStr "x"]
      (index_buckets (lc_delete Sample.records Sample.C idx).2)
      = dict_get [VStr "x"] (index_buckets idx).
Proof.
  cbv zeta. apply add_delete_keep_other_buckets.
  vm_compute. intros Hkey. discriminate Hkey.
Defined.


(** [C], which has no [pk], added to the sorted-set index by category *)
Lemma ListLookup_add_unhashable_witness :
  ∃ self',
    ListLookup.add Sample.records Sample.C Sample.sorted_by_category
      = (Raise TypeError, self')
    ∧ concat (dict_values (ListLookup._index self'))
        = concat (dict_values (ListLookup._index Sample.sorted_by_category))
    ∧ ListLookup._index self'
        = match dict_get [VStr "y"]
                  (ListLookup._index Sample.sorted_by_category) with
          | Some _ => ListLookup._index Sample.sorted_by_category
          | None => ListLookup._index Sample.sorted_by_category
                    ++ [([VStr "y"], [])]
          end.
Proof.
  apply (ListLookup_add_unhashable Sample.records Sample.sorted_by_category
           Sample.C [VStr "y"]); reflexivity.
Defined.

(** [C] added to a composite of a list-bucket index, a sorted-set index
    and another list-bucket index: the second member raises *)
Lemma CompositeLookup_add_delete_stop_at_failure_witness :
  let first := DefaultListIndex Sample.by_category in
  let second := ListIndex Sample.sorted_by_category in
  CompositeLookup.add Sample.records Sample.C ([first] ++ second :: [first])
  = (Raise TypeError,
     ((λ idx, (lc_add Sample.records Sample.C idx).2) <$> [first])
     ++ (lc_add Sample.records Sample.C second).2 :: [first]).
Proof.
  cbv zeta.
  apply (proj1 (CompositeLookup_add_delete_stop_at_failure Sample.records
                  Sample.C [DefaultListIndex Sample.by_category]
                  (ListIndex Sample.sorted_by_category)
                  [DefaultListIndex Sample.by_category])).
  - repeat constructor.
  - vm_compute. reflexivity.
Defined.

(** [A] added through a composite of the index by category, then looked up
    by its category *)
Lemma CompositeLookup_add_then_lookup_found_witness :
  let indexes' := (CompositeLookup.add Sample.records Sample.A
                     [DefaultListIndex Sample.by_category]).2 in
  ∃ payload,
    CompositeLookup.lookup [("category", VStr "x")] indexes'
      = (Ok (VALUE_FOUND, Some payload), indexes')
    ∧ Sample.A ∈ payload.
Proof.
  cbv zeta.
  apply (CompositeLookup_add_then_lookup_found Sample.records
           [DefaultListIndex Sample.by_category] _ Sample.A
           [("category", VStr "x")]).
  - vm_compute. reflexivity.
  - intros name v Hin. apply list_elem_of_singleton in Hin as [= -> ->].
    reflexivity.
  - exists (DefaultListIndex Sample.by_category). split; [left|].
    split; [apply NoDup_singleton | reflexivity].
Defined.

(** [A] and [C] added and [A] deleted, all cacheable *)
Lemma cacheable_calls_leave_store_alone_witness :
  let s := (Sample.process, Sample.cache) in
  let ops := [Add Sample.A; Add Sample.C; Delete Sample.A] in
  store_calls (perform_all Sample.always_cacheable ops s).2.1 = store_calls s.1
  ∧ store_next_pk (perform_all Sample.always_cacheable ops s).2.1
      = store_next_pk s.1.
Proof.
  cbv zeta. apply cacheable_calls_leave_store_alone.
  - reflexivity.
  - apply (bool_decide_unpack _). vm_compute. exact I.
Defined.

(** [C] added to a cache for which nothing is cacheable *)
Lemma add_not_cacheable_bypasses_cache_witness :
  ∃ w',
    InProcessWriteBackCache.add Sample.never_cacheable Sample.C
      (Sample.process, Sample.cache) = (Ok tt, (w', Sample.cache))
    ∧ store_calls w' = store_calls Sample.process ++ [StoreSave Sample.C []]
    ∧ pk (deref (objects w') Sample.C)
        = match pk (deref (objects Sample.process) Sample.C) with
          | VNone | VTransient _ => VInt (store_next_pk Sample.process)
          | p => p
          end.
Proof.
  apply (add_not_cacheable_bypasses_cache Sample.never_cacheable
           Sample.process Sample.cache Sample.C).
  reflexivity.
Defined.

(** a flush after [A] was added, which returns, and a flush after [C],
    created without identity, was added and deleted, which raises *)
Lemma flush_twice_is_flush_once_witness :
  let s1 := (perform_all Sample.always_cacheable [Add Sample.A]
               (Sample.process, Sample.cache)).2 in
  let s2 := (perform_all Sample.always_cacheable
               [Add Sample.C; Delete Sample.C]
               (Sample.process, Sample.cache)).2 in
  let flush := InProcessWriteBackCache.flush_changes_to_database in
  ((flush s1).1 = Ok tt ∧ flush (flush s1).2 = (Ok tt, (flush s1).2))
  ∧ ((flush s2).1 = Raise TypeError ∧ (flush s2).2.2 = s2.2).
Proof.
  cbv zeta. split.
  - split; [vm_compute; reflexivity|].
    apply (proj1 (flush_twice_is_flush_once
                    (perform_all Sample.always_cacheable [Add Sample.A]
                       (Sample.process, Sample.cache)).2)).
    vm_compute. reflexivity.
  - split; [vm_compute; reflexivity|].
    apply (proj2 (flush_twice_is_flush_once
                    (perform_all Sample.always_cacheable
                       [Add Sample.C; Delete Sample.C]
                       (Sample.process, Sample.cache)).2) TypeError).
    vm_compute. reflexivity.
Defined.

(** the first change record of [A] added to a new change log *)
Lemma ChangeLog_add_fresh_witness :
  let c := {| kind := SaveOp []; obj := Sample.A; change_counter := 1 |} in
  ∃ log',
    ChangeLog.add Sample.records c ChangeLog.__init__ = (Ok tt, log')
    ∧ ChangeLog_wf log'
    ∧ log_changes log' ≡ₚ c :: log_changes ChangeLog.__init__.
Proof.
  cbv zeta. apply ChangeLog_add_fresh.
  - apply ChangeLog_wf_init.
  - intros c' Hin. by apply elem_of_nil in Hin.
Defined.

(** [C], which has no [pk], added to a cache with an index on [pk], and
    the cache flushed *)
Lemma flushed_record_stays_under_placeholder_witness :
  let cache :=
    InProcessWriteBackCache.__init__
      [DefaultListIndex
         (DefaultListLookup.__init__ ["pk"] (Some Sample.pk_number))] in
  let run := perform_all Sample.always_cacheable [Add Sample.C; Flush]
               (Sample.process, cache) in
  run.1 = Ok tt
  ∧ pk (deref (objects run.2.1) Sample.C)
      = VInt (store_next_pk Sample.process)
  ∧ (index_buckets <$> InProcessWriteBackCache.indexes run.2.2)
      = [[([VTransient (transient_values Sample.process)], [Sample.C])]]
  ∧ (CompositeLookup.lookup [("pk", VInt (store_next_pk Sample.process))]
       (InProcessWriteBackCache.indexes run.2.2)).1
      = Ok (VALUE_UNKNOWN, None)
  ∧ (CompositeLookup.lookup
       [("pk", VTransient (transient_values Sample.process))]
       (InProcessWriteBackCache.indexes run.2.2)).1
      = Ok (VALUE_FOUND, Some [Sample.C]).
Proof.
  apply (flushed_record_stays_under_placeholder Sample.always_cacheable
           Sample.process Sample.C Sample.pk_number); reflexivity.
Defined.

(** [C] and another record without [pk] added to the cache *)
Lemma added_records_get_distinct_placeholders_witness :
  let D : oid := 3%nat in
  let w := with_objects Sample.process
             (<[D := Model VNone [("category", VStr "y")]]> Sample.records) in
  let s := (perform_all Sample.always_cacheable [Add Sample.C; Add D]
              (w, Sample.cache)).2 in
  pk (deref (objects s.1) Sample.C) = VTransient (transient_values w)
  ∧ pk (deref (objects s.1) D) = VTransient (S (transient_values w))
  ∧ model_eq (objects s.1) Sample.C D = false.
Proof.
  cbv zeta.
  apply (added_records_get_distinct_placeholders Sample.always_cacheable
           _ Sample.cache Sample.C 3%nat).
  - reflexivity.
  - intros Heq. discriminate Heq.
  - reflexivity.
  - reflexivity.
  - vm_compute. reflexivity.
Defined.



(** [A] added to the sorted-set index by category, then asked for by its
    category *)
Lemma add_then_get_witness :
  let idx' := (lc_add Sample.records Sample.A
                      (ListIndex Sample.sorted_by_category)).2 in
  LookupContainer_get [("category", VStr "x")] idx' = (Ok (Some Sample.A), idx')
  ∨ LookupContainer_get [("category", VStr "x")] idx'
    = (Raise LookupException, idx').
Proof.
  cbv zeta.
  apply (add_then_get Sample.records (ListIndex Sample.sorted_by_category)
           _ Sample.A [("category", VStr "x")]).
  - vm_compute. reflexivity.
  - intros name v Hin. apply list_elem_of_singleton in Hin as [= -> ->].
    reflexivity.
  - split; [apply NoDup_singleton | reflexivity].
Defined.




(** [B] and [A] added in bulk to the empty index by category *)
Lemma bulk_add_paths_agree_witness :
  DefaultListLookup.bulk_add Sample.records [Sample.B; Sample.A]
    Sample.by_category
  = for_each (DefaultListLookup.add Sample.records) [Sample.B; Sample.A]
      Sample.by_category.
Proof.
  apply bulk_add_paths_agree.
  - reflexivity.
  - intros i j y x Hij Hi Hj.
    destruct i as [|i], j as [|[|j]]; simpl in Hi, Hj;
      try lia; try discriminate Hj.
    injection Hi as <-. injection Hj as <-. reflexivity.
  - left. vm_compute. reflexivity.
Defined.
